(** * The BLDC servo control core of moteus (moteus/bldc_servo.cc)

  A shallow embedding of the interrupt-driven control loop of
  [BldcServo::Impl]: the sampler ([ISR_DoSense]), the state estimator
  ([ISR_CalculateCurrentState]), the mode machine ([ISR_MaybeChangeMode],
  [ISR_DoCalibrating]) and the controllers ([ISR_DoPwmControl] up to
  [ISR_DoPositionCommon]), together with the two entry points of the
  main context ([Command], [PollMillisecond]).

  Every [float] of the source is an IEEE-754 binary32 value; it is
  modelled bit for bit with the executable specification of
  [Stdlib.Floats.SpecFloat] at precision 24 and maximal exponent 128,
  so rounding, signed zeros, infinities and NaN behave as on the
  target.  Machine integers are [Z] with their wrap-around written
  out. *)

From Stdlib Require Import ZArith List Bool Lia.
From Stdlib Require Import Floats.SpecFloat.
Import ListNotations.

#[local] Open Scope Z_scope.
#[local] Open Scope bool_scope.

(* ================================================================== *)
(** ** Machine integers *)

Module Int.

(** Reduction of an integer to an unsigned [w]-bit value. *)
Definition wrapu (w : Z) (z : Z) : Z := z mod 2 ^ w.

(** Reduction of an integer to a signed two's complement [w]-bit value. *)
Definition wraps (w : Z) (z : Z) : Z :=
  (z + 2 ^ (w - 1)) mod 2 ^ w - 2 ^ (w - 1).

Definition u16 := wrapu 16.
Definition u32 := wrapu 32.
Definition i16 := wraps 16.
Definition i32 := wraps 32.

(** [std::max<T>] and [std::min<T>] at an integer type. *)
Definition max (a b : Z) : Z := if a <? b then b else a.
Definition min (a b : Z) : Z := if b <? a then b else a.

End Int.

(* ================================================================== *)
(** ** Single precision floating point *)

Module F32.

Definition prec : Z := 24.
Definition emax : Z := 128.

Definition float : Type := spec_float.

Definition zero : float := S754_zero false.
Definition nan : float := S754_nan.

Definition add : float -> float -> float := SFadd prec emax.
Definition sub : float -> float -> float := SFsub prec emax.
Definition mul : float -> float -> float := SFmul prec emax.
Definition div : float -> float -> float := SFdiv prec emax.
Definition neg : float -> float := SFopp.
Definition abs : float -> float := SFabs.

(** The comparison operators of C++ on floats: every comparison with
    a NaN is false, except [!=] which is true. *)
Definition lt (a b : float) : bool := SFltb a b.
Definition gt (a b : float) : bool := SFltb b a.
Definition le (a b : float) : bool := SFleb a b.
Definition ge (a b : float) : bool := SFleb b a.
Definition eq (a b : float) : bool := SFeqb a b.
Definition ne (a b : float) : bool := negb (SFeqb a b).

(** [std::isnan] *)
Definition isnan (a : float) : bool :=
  match a with S754_nan => true | _ => false end.

(** [std::max<float>(a, b)] is [(a < b) ? b : a] and
    [std::min<float>(a, b)] is [(b < a) ? b : a]. *)
Definition max (a b : float) : float := if lt a b then b else a.
Definition min (a b : float) : float := if lt b a then b else a.

(** Conversion of an integer to [float], rounding to nearest even. *)
Definition of_Z (z : Z) : float := binary_normalize prec emax z 0 false.

(** The decimal literal [m * 10^-k], rounded once. *)
Definition dec (m : Z) (k : Z) : float :=
  match m with
  | Z0 => zero
  | Zpos p => div (S754_finite false p 0) (S754_finite false (Z.to_pos (10 ^ k)) 0)
  | Zneg p => div (S754_finite true p 0) (S754_finite false (Z.to_pos (10 ^ k)) 0)
  end.

(** The integer part of a finite value (rounding toward zero). *)
Definition trunc (a : float) : option Z :=
  match a with
  | S754_zero _ => Some 0
  | S754_finite s m e =>
      let n := if 0 <=? e then Zpos m * 2 ^ e else Zpos m / 2 ^ (- e) in
      Some (if s then - n else n)
  | _ => None
  end.

Definition saturate (lo hi : Z) (a : float) : Z :=
  match a with
  | S754_nan => 0
  | S754_infinity s => if s then lo else hi
  | _ => match trunc a with
         | Some n => Z.max lo (Z.min hi n)
         | None => 0
         end
  end.

(** [static_cast<int32_t>(a)].  C++ leaves the conversion of a value
    out of range undefined; the VCVT instruction of the target
    saturates and converts NaN to zero. *)
Definition to_i32 (a : float) : Z := saturate (- 2 ^ 31) (2 ^ 31 - 1) a.

(** [static_cast<uint16_t>(a)]: the unsigned saturating conversion of
    the target followed by the truncation to sixteen bits. *)
Definition to_u16 (a : float) : Z := Int.u16 (saturate 0 (2 ^ 32 - 1) a).

(** [std::round]: to the nearest integer, halfway cases away from
    zero. *)
Definition round (a : float) : float :=
  match a with
  | S754_finite s m e =>
      if 0 <=? e then a
      else
        let n := (Zpos m + 2 ^ (- e - 1)) / 2 ^ (- e) in
        if n =? 0 then S754_zero s
        else binary_normalize prec emax (if s then - n else n) 0 s
  | _ => a
  end.

End F32.

Abbreviation float := F32.float.

#[global] Arguments F32.add : simpl never.
#[global] Arguments F32.sub : simpl never.
#[global] Arguments F32.mul : simpl never.
#[global] Arguments F32.div : simpl never.
#[global] Arguments F32.of_Z : simpl never.
#[global] Arguments F32.dec : simpl never.
#[global] Arguments F32.round : simpl never.
#[global] Arguments F32.to_i32 : simpl never.
#[global] Arguments F32.to_u16 : simpl never.
#[global] Arguments F32.lt : simpl never.
#[global] Arguments F32.gt : simpl never.
#[global] Arguments F32.le : simpl never.
#[global] Arguments F32.ge : simpl never.
#[global] Arguments F32.eq : simpl never.
#[global] Arguments F32.ne : simpl never.
#[global] Arguments F32.max : simpl never.
#[global] Arguments F32.min : simpl never.
#[global] Arguments Int.wrapu : simpl never.
#[global] Arguments Int.wraps : simpl never.

Declare Scope f32_scope.
Delimit Scope f32_scope with f32.
Infix "+" := F32.add : f32_scope.
Infix "-" := F32.sub : f32_scope.
Infix "*" := F32.mul : f32_scope.
Infix "/" := F32.div : f32_scope.
Notation "- x" := (F32.neg x) : f32_scope.
Infix "<" := F32.lt : f32_scope.
Infix ">" := F32.gt : f32_scope.
Infix "<=" := F32.le : f32_scope.
Infix ">=" := F32.ge : f32_scope.
Infix "==" := F32.eq (at level 70, no associativity) : f32_scope.
Infix "!=" := F32.ne (at level 70, no associativity) : f32_scope.

(* ================================================================== *)
(** ** Data model *)

(** The modes of the servo, as enumerated by the [switch] statements of
    the source. *)
Inductive Mode : Type :=
| kStopped
| kFault
| kEnabling
| kCalibrating
| kCalibrationComplete
| kPwm
| kVoltage
| kVoltageFoc
| kVoltageDq
| kCurrent
| kPosition
| kPositionTimeout
| kZeroVelocity
| kStayWithinBounds
| kNumModes.

Definition Mode_eqb (x y : Mode) : bool :=
  match x, y with
  | kStopped, kStopped | kFault, kFault | kEnabling, kEnabling
  | kCalibrating, kCalibrating
  | kCalibrationComplete, kCalibrationComplete
  | kPwm, kPwm | kVoltage, kVoltage | kVoltageFoc, kVoltageFoc
  | kVoltageDq, kVoltageDq | kCurrent, kCurrent | kPosition, kPosition
  | kPositionTimeout, kPositionTimeout | kZeroVelocity, kZeroVelocity
  | kStayWithinBounds, kStayWithinBounds | kNumModes, kNumModes => true
  | _, _ => false
  end.

(** The fault codes that the control loop assigns to [status_.fault]. *)
Inductive errc : Type :=
| kSuccess
| kPwmCycleOverrun
| kEncoderFault
| kMotorDriverFault
| kOverVoltage
| kOverTemperature
| kStartOutsideLimit
| kCalibrationFault
| kMotorNotConfigured.

Module Vec3.
Record t := mk { a : float; b : float; c : float }.
End Vec3.

Module SinCos.
Record t := mk { s : float; c : float }.
End SinCos.

(** [PID::ApplyOptions] *)
Module ApplyOptions.
Record t := mk { kp_scale : float; kd_scale : float }.
End ApplyOptions.

(** What the control loop takes from headers that are not part of the
    translated file: hardware constants, the trigonometric unit, the
    Clarke and Park transforms, the PID controller, the torque model
    and the windowed average.  The loop is verified for every
    implementation of them. *)
Class Extern : Type := {
  (* moteus/moteus_hw.h *)
  MOTEUS_HW_REV : Z;
  MOTEUS_CURRENT_SENSE_OHM : float;
  g_measured_hw_rev : Z;
  HAL_RCC_GetPCLK1Freq : Z;
  (* moteus/math.h *)
  kPi : float;
  k2Pi : float;
  WrapZeroToTwoPi : float -> float;
  RadiansToQ31 : float -> Z;
  (* moteus/foc.h *)
  cordic_ : Z -> SinCos.t;
  DqTransform : SinCos.t -> float -> float -> float -> float * float;
  InverseDqTransform : SinCos.t -> float -> float -> Vec3.t;
  (* moteus/pid.h *)
  pid_config : Type;
  pid_state : Type;
  PID_State_Clear : pid_state -> pid_state;
  PID_State_set_desired : float -> pid_state -> pid_state;
  PID_Apply :
    pid_config -> pid_state ->
    float -> float -> float -> float -> float ->
    option ApplyOptions.t -> pid_state * float;
  (* moteus/torque_model.h: the four constructor arguments, then the
     argument of the member function *)
  TorqueModel_current_to_torque :
    float -> float -> float -> float -> float -> float;
  TorqueModel_torque_to_current :
    float -> float -> float -> float -> float -> float;
  (* mjlib/base/windowed_average.h *)
  windowed_average : Type;
  WindowedAverage_make : Z -> windowed_average;
  WindowedAverage_Add : Z -> windowed_average -> windowed_average;
  WindowedAverage_total : windowed_average -> Z;
  WindowedAverage_size : windowed_average -> Z
}.

(** Field update of a record: [field_update eta proj] builds, from the
    eta expansion of the record, the function that applies [f] to the
    field [proj] and keeps the others. *)
Ltac field_update eta proj :=
  let body := eval cbv delta [eta] in eta in
  match eval pattern proj in body with
  | ?G _ =>
      let t := eval cbv beta in (fun f r => G (fun x => f (proj x)) r) in
      exact t
  end.

Module CommandData.

(** The command record written by the main context and consumed by the
    interrupt (declared in bldc_servo.h). *)
Record t := mk {
  mode : Mode;
  position : float;  (* NaN when absent *)
  velocity : float;
  feedforward_Nm : float;
  max_torque_Nm : float;
  kp_scale : float;
  kd_scale : float;
  stop_position : float;  (* NaN when absent *)
  bounds_min : float;  (* NaN when absent *)
  bounds_max : float;  (* NaN when absent *)
  timeout_s : float;
  pwm : Vec3.t;
  phase_v : Vec3.t;
  theta : float;
  voltage : float;
  d_V : float;
  q_V : float;
  i_d_A : float;
  i_q_A : float;
  set_position : option float;  (* std::optional<float> *)
  rezero_position : option float  (* std::optional<float> *)
}.

Definition eta (r : t) : t :=
  mk (mode r) (position r) (velocity r) (feedforward_Nm r) (max_torque_Nm r) (kp_scale r) (kd_scale r) (stop_position r) (bounds_min r) (bounds_max r) (timeout_s r) (pwm r) (phase_v r) (theta r) (voltage r) (d_V r) (q_V r) (i_d_A r) (i_q_A r) (set_position r) (rezero_position r).

Definition over_mode : (Mode -> Mode) -> t -> t :=
  ltac:(field_update eta mode).
Definition with_mode (v : Mode) : t -> t := over_mode (fun _ => v).
Definition over_position : (float -> float) -> t -> t :=
  ltac:(field_update eta position).
Definition with_position (v : float) : t -> t := over_position (fun _ => v).
Definition over_velocity : (float -> float) -> t -> t :=
  ltac:(field_update eta velocity).
Definition with_velocity (v : float) : t -> t := over_velocity (fun _ => v).
Definition over_feedforward_Nm : (float -> float) -> t -> t :=
  ltac:(field_update eta feedforward_Nm).
Definition with_feedforward_Nm (v : float) : t -> t := over_feedforward_Nm (fun _ => v).
Definition over_max_torque_Nm : (float -> float) -> t -> t :=
  ltac:(field_update eta max_torque_Nm).
Definition with_max_torque_Nm (v : float) : t -> t := over_max_torque_Nm (fun _ => v).
Definition over_kp_scale : (float -> float) -> t -> t :=
  ltac:(field_update eta kp_scale).
Definition with_kp_scale (v : float) : t -> t := over_kp_scale (fun _ => v).
Definition over_kd_scale : (float -> float) -> t -> t :=
  ltac:(field_update eta kd_scale).
Definition with_kd_scale (v : float) : t -> t := over_kd_scale (fun _ => v).
Definition over_stop_position : (float -> float) -> t -> t :=
  ltac:(field_update eta stop_position).
Definition with_stop_position (v : float) : t -> t := over_stop_position (fun _ => v).
Definition over_bounds_min : (float -> float) -> t -> t :=
  ltac:(field_update eta bounds_min).
Definition with_bounds_min (v : float) : t -> t := over_bounds_min (fun _ => v).
Definition over_bounds_max : (float -> float) -> t -> t :=
  ltac:(field_update eta bounds_max).
Definition with_bounds_max (v : float) : t -> t := over_bounds_max (fun _ => v).
Definition over_timeout_s : (float -> float) -> t -> t :=
  ltac:(field_update eta timeout_s).
Definition with_timeout_s (v : float) : t -> t := over_timeout_s (fun _ => v).
Definition over_pwm : (Vec3.t -> Vec3.t) -> t -> t :=
  ltac:(field_update eta pwm).
Definition with_pwm (v : Vec3.t) : t -> t := over_pwm (fun _ => v).
Definition over_phase_v : (Vec3.t -> Vec3.t) -> t -> t :=
  ltac:(field_update eta phase_v).
Definition with_phase_v (v : Vec3.t) : t -> t := over_phase_v (fun _ => v).
Definition over_theta : (float -> float) -> t -> t :=
  ltac:(field_update eta theta).
Definition with_theta (v : float) : t -> t := over_theta (fun _ => v).
Definition over_voltage : (float -> float) -> t -> t :=
  ltac:(field_update eta voltage).
Definition with_voltage (v : float) : t -> t := over_voltage (fun _ => v).
Definition over_d_V : (float -> float) -> t -> t :=
  ltac:(field_update eta d_V).
Definition with_d_V (v : float) : t -> t := over_d_V (fun _ => v).
Definition over_q_V : (float -> float) -> t -> t :=
  ltac:(field_update eta q_V).
Definition with_q_V (v : float) : t -> t := over_q_V (fun _ => v).
Definition over_i_d_A : (float -> float) -> t -> t :=
  ltac:(field_update eta i_d_A).
Definition with_i_d_A (v : float) : t -> t := over_i_d_A (fun _ => v).
Definition over_i_q_A : (float -> float) -> t -> t :=
  ltac:(field_update eta i_q_A).
Definition with_i_q_A (v : float) : t -> t := over_i_q_A (fun _ => v).
Definition over_set_position : (option float -> option float) -> t -> t :=
  ltac:(field_update eta set_position).
Definition with_set_position (v : option float) : t -> t := over_set_position (fun _ => v).
Definition over_rezero_position : (option float -> option float) -> t -> t :=
  ltac:(field_update eta rezero_position).
Definition with_rezero_position (v : option float) : t -> t := over_rezero_position (fun _ => v).

End CommandData.

Module Control.

(** The per-cycle control outputs (declared in bldc_servo.h). *)
Record t := mk {
  pwm : Vec3.t;
  voltage : Vec3.t;
  d_V : float;
  q_V : float;
  i_d_A : float;
  i_q_A : float;
  torque_Nm : float
}.

Definition eta (r : t) : t :=
  mk (pwm r) (voltage r) (d_V r) (q_V r) (i_d_A r) (i_q_A r) (torque_Nm r).

Definition over_pwm : (Vec3.t -> Vec3.t) -> t -> t :=
  ltac:(field_update eta pwm).
Definition with_pwm (v : Vec3.t) : t -> t := over_pwm (fun _ => v).
Definition over_voltage : (Vec3.t -> Vec3.t) -> t -> t :=
  ltac:(field_update eta voltage).
Definition with_voltage (v : Vec3.t) : t -> t := over_voltage (fun _ => v).
Definition over_d_V : (float -> float) -> t -> t :=
  ltac:(field_update eta d_V).
Definition with_d_V (v : float) : t -> t := over_d_V (fun _ => v).
Definition over_q_V : (float -> float) -> t -> t :=
  ltac:(field_update eta q_V).
Definition with_q_V (v : float) : t -> t := over_q_V (fun _ => v).
Definition over_i_d_A : (float -> float) -> t -> t :=
  ltac:(field_update eta i_d_A).
Definition with_i_d_A (v : float) : t -> t := over_i_d_A (fun _ => v).
Definition over_i_q_A : (float -> float) -> t -> t :=
  ltac:(field_update eta i_q_A).
Definition with_i_q_A (v : float) : t -> t := over_i_q_A (fun _ => v).
Definition over_torque_Nm : (float -> float) -> t -> t :=
  ltac:(field_update eta torque_Nm).
Definition with_torque_Nm (v : float) : t -> t := over_torque_Nm (fun _ => v).

End Control.

Module Status.

(** The status record owned by the interrupt (declared in bldc_servo.h). *)
Record t {E : Extern} := mk {
  mode : Mode;
  fault : errc;
  adc_cur1_raw : Z;  (* uint16_t *)
  adc_cur2_raw : Z;
  adc_cur3_raw : Z;
  adc_motor_temp_raw : Z;
  adc_voltage_sense_raw : Z;
  adc_fet_temp_raw : Z;
  adc_cur1_offset : Z;  (* uint16_t *)
  adc_cur2_offset : Z;
  adc_cur3_offset : Z;
  cur1_A : float;
  cur2_A : float;
  cur3_A : float;
  bus_V : float;
  filt_bus_V : float;
  filt_1ms_bus_V : float;
  d_A : float;
  q_A : float;
  torque_Nm : float;
  sin : float;
  cos : float;
  position_raw : Z;  (* uint16_t *)
  position : Z;  (* uint16_t *)
  electrical_theta : float;
  unwrapped_position_raw : Z;  (* int32_t *)
  unwrapped_position : float;
  velocity : float;
  fet_temp_C : float;
  position_to_set : float;
  rezeroed : bool;
  timeout_s : float;
  control_position : float;
  pid_d : pid_state;
  pid_q : pid_state;
  pid_position : pid_state;
  final_timer : Z;  (* uint32_t *)
  total_timer : Z  (* uint32_t *)
}.

Section Update.
Context {E : Extern}.

Definition eta (r : t) : t :=
  mk _ (mode r) (fault r) (adc_cur1_raw r) (adc_cur2_raw r) (adc_cur3_raw r) (adc_motor_temp_raw r) (adc_voltage_sense_raw r) (adc_fet_temp_raw r) (adc_cur1_offset r) (adc_cur2_offset r) (adc_cur3_offset r) (cur1_A r) (cur2_A r) (cur3_A r) (bus_V r) (filt_bus_V r) (filt_1ms_bus_V r) (d_A r) (q_A r) (torque_Nm r) (sin r) (cos r) (position_raw r) (position r) (electrical_theta r) (unwrapped_position_raw r) (unwrapped_position r) (velocity r) (fet_temp_C r) (position_to_set r) (rezeroed r) (timeout_s r) (control_position r) (pid_d r) (pid_q r) (pid_position r) (final_timer r) (total_timer r).

Definition over_mode : (Mode -> Mode) -> t -> t :=
  ltac:(field_update eta (@mode E)).
Definition with_mode (v : Mode) : t -> t := over_mode (fun _ => v).
Definition over_fault : (errc -> errc) -> t -> t :=
  ltac:(field_update eta (@fault E)).
Definition with_fault (v : errc) : t -> t := over_fault (fun _ => v).
Definition over_adc_cur1_raw : (Z -> Z) -> t -> t :=
  ltac:(field_update eta (@adc_cur1_raw E)).
Definition with_adc_cur1_raw (v : Z) : t -> t := over_adc_cur1_raw (fun _ => v).
Definition over_adc_cur2_raw : (Z -> Z) -> t -> t :=
  ltac:(field_update eta (@adc_cur2_raw E)).
Definition with_adc_cur2_raw (v : Z) : t -> t := over_adc_cur2_raw (fun _ => v).
Definition over_adc_cur3_raw : (Z -> Z) -> t -> t :=
  ltac:(field_update eta (@adc_cur3_raw E)).
Definition with_adc_cur3_raw (v : Z) : t -> t := over_adc_cur3_raw (fun _ => v).
Definition over_adc_motor_temp_raw : (Z -> Z) -> t -> t :=
  ltac:(field_update eta (@adc_motor_temp_raw E)).
Definition with_adc_motor_temp_raw (v : Z) : t -> t := over_adc_motor_temp_raw (fun _ => v).
Definition over_adc_voltage_sense_raw : (Z -> Z) -> t -> t :=
  ltac:(field_update eta (@adc_voltage_sense_raw E)).
Definition with_adc_voltage_sense_raw (v : Z) : t -> t := over_adc_voltage_sense_raw (fun _ => v).
Definition over_adc_fet_temp_raw : (Z -> Z) -> t -> t :=
  ltac:(field_update eta (@adc_fet_temp_raw E)).
Definition with_adc_fet_temp_raw (v : Z) : t -> t := over_adc_fet_temp_raw (fun _ => v).
Definition over_adc_cur1_offset : (Z -> Z) -> t -> t :=
  ltac:(field_update eta (@adc_cur1_offset E)).
Definition with_adc_cur1_offset (v : Z) : t -> t := over_adc_cur1_offset (fun _ => v).
Definition over_adc_cur2_offset : (Z -> Z) -> t -> t :=
  ltac:(field_update eta (@adc_cur2_offset E)).
Definition with_adc_cur2_offset (v : Z) : t -> t := over_adc_cur2_offset (fun _ => v).
Definition over_adc_cur3_offset : (Z -> Z) -> t -> t :=
  ltac:(field_update eta (@adc_cur3_offset E)).
Definition with_adc_cur3_offset (v : Z) : t -> t := over_adc_cur3_offset (fun _ => v).
Definition over_cur1_A : (float -> float) -> t -> t :=
  ltac:(field_update eta (@cur1_A E)).
Definition with_cur1_A (v : float) : t -> t := over_cur1_A (fun _ => v).
Definition over_cur2_A : (float -> float) -> t -> t :=
  ltac:(field_update eta (@cur2_A E)).
Definition with_cur2_A (v : float) : t -> t := over_cur2_A (fun _ => v).
Definition over_cur3_A : (float -> float) -> t -> t :=
  ltac:(field_update eta (@cur3_A E)).
Definition with_cur3_A (v : float) : t -> t := over_cur3_A (fun _ => v).
Definition over_bus_V : (float -> float) -> t -> t :=
  ltac:(field_update eta (@bus_V E)).
Definition with_bus_V (v : float) : t -> t := over_bus_V (fun _ => v).
Definition over_filt_bus_V : (float -> float) -> t -> t :=
  ltac:(field_update eta (@filt_bus_V E)).
Definition with_filt_bus_V (v : float) : t -> t := over_filt_bus_V (fun _ => v).
Definition over_filt_1ms_bus_V : (float -> float) -> t -> t :=
  ltac:(field_update eta (@filt_1ms_bus_V E)).
Definition with_filt_1ms_bus_V (v : float) : t -> t := over_filt_1ms_bus_V (fun _ => v).
Definition over_d_A : (float -> float) -> t -> t :=
  ltac:(field_update eta (@d_A E)).
Definition with_d_A (v : float) : t -> t := over_d_A (fun _ => v).
Definition over_q_A : (float -> float) -> t -> t :=
  ltac:(field_update eta (@q_A E)).
Definition with_q_A (v : float) : t -> t := over_q_A (fun _ => v).
Definition over_torque_Nm : (float -> float) -> t -> t :=
  ltac:(field_update eta (@torque_Nm E)).
Definition with_torque_Nm (v : float) : t -> t := over_torque_Nm (fun _ => v).
Definition over_sin : (float -> float) -> t -> t :=
  ltac:(field_update eta (@sin E)).
Definition with_sin (v : float) : t -> t := over_sin (fun _ => v).
Definition over_cos : (float -> float) -> t -> t :=
  ltac:(field_update eta (@cos E)).
Definition with_cos (v : float) : t -> t := over_cos (fun _ => v).
Definition over_position_raw : (Z -> Z) -> t -> t :=
  ltac:(field_update eta (@position_raw E)).
Definition with_position_raw (v : Z) : t -> t := over_position_raw (fun _ => v).
Definition over_position : (Z -> Z) -> t -> t :=
  ltac:(field_update eta (@position E)).
Definition with_position (v : Z) : t -> t := over_position (fun _ => v).
Definition over_electrical_theta : (float -> float) -> t -> t :=
  ltac:(field_update eta (@electrical_theta E)).
Definition with_electrical_theta (v : float) : t -> t := over_electrical_theta (fun _ => v).
Definition over_unwrapped_position_raw : (Z -> Z) -> t -> t :=
  ltac:(field_update eta (@unwrapped_position_raw E)).
Definition with_unwrapped_position_raw (v : Z) : t -> t := over_unwrapped_position_raw (fun _ => v).
Definition over_unwrapped_position : (float -> float) -> t -> t :=
  ltac:(field_update eta (@unwrapped_position E)).
Definition with_unwrapped_position (v : float) : t -> t := over_unwrapped_position (fun _ => v).
Definition over_velocity : (float -> float) -> t -> t :=
  ltac:(field_update eta (@velocity E)).
Definition with_velocity (v : float) : t -> t := over_velocity (fun _ => v).
Definition over_fet_temp_C : (float -> float) -> t -> t :=
  ltac:(field_update eta (@fet_temp_C E)).
Definition with_fet_temp_C (v : float) : t -> t := over_fet_temp_C (fun _ => v).
Definition over_position_to_set : (float -> float) -> t -> t :=
  ltac:(field_update eta (@position_to_set E)).
Definition with_position_to_set (v : float) : t -> t := over_position_to_set (fun _ => v).
Definition over_rezeroed : (bool -> bool) -> t -> t :=
  ltac:(field_update eta (@rezeroed E)).
Definition with_rezeroed (v : bool) : t -> t := over_rezeroed (fun _ => v).
Definition over_timeout_s : (float -> float) -> t -> t :=
  ltac:(field_update eta (@timeout_s E)).
Definition with_timeout_s (v : float) : t -> t := over_timeout_s (fun _ => v).
Definition over_control_position : (float -> float) -> t -> t :=
  ltac:(field_update eta (@control_position E)).
Definition with_control_position (v : float) : t -> t := over_control_position (fun _ => v).
Definition over_pid_d : (pid_state -> pid_state) -> t -> t :=
  ltac:(field_update eta (@pid_d E)).
Definition with_pid_d (v : pid_state) : t -> t := over_pid_d (fun _ => v).
Definition over_pid_q : (pid_state -> pid_state) -> t -> t :=
  ltac:(field_update eta (@pid_q E)).
Definition with_pid_q (v : pid_state) : t -> t := over_pid_q (fun _ => v).
Definition over_pid_position : (pid_state -> pid_state) -> t -> t :=
  ltac:(field_update eta (@pid_position E)).
Definition with_pid_position (v : pid_state) : t -> t := over_pid_position (fun _ => v).
Definition over_final_timer : (Z -> Z) -> t -> t :=
  ltac:(field_update eta (@final_timer E)).
Definition with_final_timer (v : Z) : t -> t := over_final_timer (fun _ => v).
Definition over_total_timer : (Z -> Z) -> t -> t :=
  ltac:(field_update eta (@total_timer E)).
Definition with_total_timer (v : Z) : t -> t := over_total_timer (fun _ => v).

End Update.

End Status.

Module Motor.

(** The motor parameters (declared in bldc_servo.h). *)
Record t := mk {
  poles : Z;  (* uint8_t *)
  invert : bool;
  resistance_ohm : float;
  v_per_hz : float;
  unwrapped_position_scale : float;
  position_offset : Z;  (* int32_t *)
  offset : list float;  (* per-sector offsets *)
  rotation_current_cutoff_A : float;
  rotation_current_scale : float;
  rotation_torque_scale : float
}.

End Motor.

Module Config.

(** The servo configuration (declared in bldc_servo.h). *)
Record t {E : Extern} := mk {
  i_gain : float;
  v_scale_V : float;
  pwm_min : float;
  pwm_min_blend : float;
  max_voltage : float;
  fault_temperature : float;
  derate_temperature : float;
  derate_current_A : float;
  max_current_A : float;
  feedforward_scale : float;
  velocity_threshold : float;
  position_derate : float;
  flux_brake_min_voltage : float;
  flux_brake_resistance_ohm : float;
  timeout_max_torque_Nm : float;
  default_timeout_s : float;
  velocity_filter_length : Z;  (* size_t *)
  pid_dq : pid_config;
  pid_position : pid_config
}.

End Config.

Module PositionConfig.

(** The position limits (declared in bldc_servo.h). *)
Record t := mk {
  position_min : float;  (* NaN when unset *)
  position_max : float  (* NaN when unset *)
}.

End PositionConfig.
(** The members of [BldcServo::Impl] that the control loop reads and
    writes, with the peripheral registers it drives. *)
Record Impl {E : Extern} := mkImpl {
  motor_ : Motor.t;
  config_ : Config.t;
  position_config_ : PositionConfig.t;
  current_data_ : CommandData.t;  (* the buffer [*current_data_] *)
  next_data_ : CommandData.t;  (* the buffer [*next_data_] *)
  telemetry_data_ : CommandData.t;
  velocity_filter_ : windowed_average;
  status_ : Status.t;
  control_ : Control.t;
  calibrate_adc1_ : Z;  (* uint32_t *)
  calibrate_adc2_ : Z;  (* uint32_t *)
  calibrate_adc3_ : Z;  (* uint32_t *)
  calibrate_count_ : Z;  (* uint16_t *)
  clock_ : Z;  (* std::atomic<uint32_t> *)
  startup_count_ : Z;  (* std::atomic<uint32_t> *)
  torque_constant_ : float;
  position_constant_ : Z;  (* int32_t *)
  adc_scale_ : float;
  pwm_counts_ : Z;  (* uint32_t *)
  phase_ : Z;  (* int32_t *)
  pwm1_ccr : Z;  (* the register [*pwm1_ccr_] *)
  pwm2_ccr : Z;  (* the register [*pwm2_ccr_] *)
  pwm3_ccr : Z;  (* the register [*pwm3_ccr_] *)
  motor_driver_enable : bool;  (* last [motor_driver_->Enable] *)
  motor_driver_power : bool;  (* last [motor_driver_->Power] *)
  dac_dhr12r1 : Z  (* the register [DAC->DHR12R1] *)
}.

Section ImplUpdate.
Context {E : Extern}.

Definition eta_Impl (r : Impl) : Impl :=
  mkImpl _ (motor_ r) (config_ r) (position_config_ r) (current_data_ r) (next_data_ r) (telemetry_data_ r) (velocity_filter_ r) (status_ r) (control_ r) (calibrate_adc1_ r) (calibrate_adc2_ r) (calibrate_adc3_ r) (calibrate_count_ r) (clock_ r) (startup_count_ r) (torque_constant_ r) (position_constant_ r) (adc_scale_ r) (pwm_counts_ r) (phase_ r) (pwm1_ccr r) (pwm2_ccr r) (pwm3_ccr r) (motor_driver_enable r) (motor_driver_power r) (dac_dhr12r1 r).

Definition over_motor_ : (Motor.t -> Motor.t) -> Impl -> Impl :=
  ltac:(field_update eta_Impl (@motor_ E)).
Definition with_motor_ (v : Motor.t) : Impl -> Impl := over_motor_ (fun _ => v).
Definition over_config_ : (Config.t -> Config.t) -> Impl -> Impl :=
  ltac:(field_update eta_Impl (@config_ E)).
Definition with_config_ (v : Config.t) : Impl -> Impl := over_config_ (fun _ => v).
Definition over_position_config_ : (PositionConfig.t -> PositionConfig.t) -> Impl -> Impl :=
  ltac:(field_update eta_Impl (@position_config_ E)).
Definition with_position_config_ (v : PositionConfig.t) : Impl -> Impl := over_position_config_ (fun _ => v).
Definition over_current_data_ : (CommandData.t -> CommandData.t) -> Impl -> Impl :=
  ltac:(field_update eta_Impl (@current_data_ E)).
Definition with_current_data_ (v : CommandData.t) : Impl -> Impl := over_current_data_ (fun _ => v).
Definition over_next_data_ : (CommandData.t -> CommandData.t) -> Impl -> Impl :=
  ltac:(field_update eta_Impl (@next_data_ E)).
Definition with_next_data_ (v : CommandData.t) : Impl -> Impl := over_next_data_ (fun _ => v).
Definition over_telemetry_data_ : (CommandData.t -> CommandData.t) -> Impl -> Impl :=
  ltac:(field_update eta_Impl (@telemetry_data_ E)).
Definition with_telemetry_data_ (v : CommandData.t) : Impl -> Impl := over_telemetry_data_ (fun _ => v).
Definition over_velocity_filter_ : (windowed_average -> windowed_average) -> Impl -> Impl :=
  ltac:(field_update eta_Impl (@velocity_filter_ E)).
Definition with_velocity_filter_ (v : windowed_average) : Impl -> Impl := over_velocity_filter_ (fun _ => v).
Definition over_status_ : (Status.t -> Status.t) -> Impl -> Impl :=
  ltac:(field_update eta_Impl (@status_ E)).
Definition with_status_ (v : Status.t) : Impl -> Impl := over_status_ (fun _ => v).
Definition over_control_ : (Control.t -> Control.t) -> Impl -> Impl :=
  ltac:(field_update eta_Impl (@control_ E)).
Definition with_control_ (v : Control.t) : Impl -> Impl := over_control_ (fun _ => v).
Definition over_calibrate_adc1_ : (Z -> Z) -> Impl -> Impl :=
  ltac:(field_update eta_Impl (@calibrate_adc1_ E)).
Definition with_calibrate_adc1_ (v : Z) : Impl -> Impl := over_calibrate_adc1_ (fun _ => v).
Definition over_calibrate_adc2_ : (Z -> Z) -> Impl -> Impl :=
  ltac:(field_update eta_Impl (@calibrate_adc2_ E)).
Definition with_calibrate_adc2_ (v : Z) : Impl -> Impl := over_calibrate_adc2_ (fun _ => v).
Definition over_calibrate_adc3_ : (Z -> Z) -> Impl -> Impl :=
  ltac:(field_update eta_Impl (@calibrate_adc3_ E)).
Definition with_calibrate_adc3_ (v : Z) : Impl -> Impl := over_calibrate_adc3_ (fun _ => v).
Definition over_calibrate_count_ : (Z -> Z) -> Impl -> Impl :=
  ltac:(field_update eta_Impl (@calibrate_count_ E)).
Definition with_calibrate_count_ (v : Z) : Impl -> Impl := over_calibrate_count_ (fun _ => v).
Definition over_clock_ : (Z -> Z) -> Impl -> Impl :=
  ltac:(field_update eta_Impl (@clock_ E)).
Definition with_clock_ (v : Z) : Impl -> Impl := over_clock_ (fun _ => v).
Definition over_startup_count_ : (Z -> Z) -> Impl -> Impl :=
  ltac:(field_update eta_Impl (@startup_count_ E)).
Definition with_startup_count_ (v : Z) : Impl -> Impl := over_startup_count_ (fun _ => v).
Definition over_torque_constant_ : (float -> float) -> Impl -> Impl :=
  ltac:(field_update eta_Impl (@torque_constant_ E)).
Definition with_torque_constant_ (v : float) : Impl -> Impl := over_torque_constant_ (fun _ => v).
Definition over_position_constant_ : (Z -> Z) -> Impl -> Impl :=
  ltac:(field_update eta_Impl (@position_constant_ E)).
Definition with_position_constant_ (v : Z) : Impl -> Impl := over_position_constant_ (fun _ => v).
Definition over_adc_scale_ : (float -> float) -> Impl -> Impl :=
  ltac:(field_update eta_Impl (@adc_scale_ E)).
Definition with_adc_scale_ (v : float) : Impl -> Impl := over_adc_scale_ (fun _ => v).
Definition over_pwm_counts_ : (Z -> Z) -> Impl -> Impl :=
  ltac:(field_update eta_Impl (@pwm_counts_ E)).
Definition with_pwm_counts_ (v : Z) : Impl -> Impl := over_pwm_counts_ (fun _ => v).
Definition over_phase_ : (Z -> Z) -> Impl -> Impl :=
  ltac:(field_update eta_Impl (@phase_ E)).
Definition with_phase_ (v : Z) : Impl -> Impl := over_phase_ (fun _ => v).
Definition over_pwm1_ccr : (Z -> Z) -> Impl -> Impl :=
  ltac:(field_update eta_Impl (@pwm1_ccr E)).
Definition with_pwm1_ccr (v : Z) : Impl -> Impl := over_pwm1_ccr (fun _ => v).
Definition over_pwm2_ccr : (Z -> Z) -> Impl -> Impl :=
  ltac:(field_update eta_Impl (@pwm2_ccr E)).
Definition with_pwm2_ccr (v : Z) : Impl -> Impl := over_pwm2_ccr (fun _ => v).
Definition over_pwm3_ccr : (Z -> Z) -> Impl -> Impl :=
  ltac:(field_update eta_Impl (@pwm3_ccr E)).
Definition with_pwm3_ccr (v : Z) : Impl -> Impl := over_pwm3_ccr (fun _ => v).
Definition over_motor_driver_enable : (bool -> bool) -> Impl -> Impl :=
  ltac:(field_update eta_Impl (@motor_driver_enable E)).
Definition with_motor_driver_enable (v : bool) : Impl -> Impl := over_motor_driver_enable (fun _ => v).
Definition over_motor_driver_power : (bool -> bool) -> Impl -> Impl :=
  ltac:(field_update eta_Impl (@motor_driver_power E)).
Definition with_motor_driver_power (v : bool) : Impl -> Impl := over_motor_driver_power (fun _ => v).
Definition over_dac_dhr12r1 : (Z -> Z) -> Impl -> Impl :=
  ltac:(field_update eta_Impl (@dac_dhr12r1 E)).
Definition with_dac_dhr12r1 (v : Z) : Impl -> Impl := over_dac_dhr12r1 (fun _ => v).

End ImplUpdate.
(** What one timer interrupt reads from the peripherals: the three
    gate monitors, the data registers of the five converters (ADC5 is
    read twice, the second time for the temperature channel), the
    encoder sample, the fault line of the gate driver and the timer. *)
Module Env.
Record t := mk {
  monitor1 : bool;
  monitor2 : bool;
  monitor3 : bool;
  adc1_dr : Z;
  adc2_dr : Z;
  adc3_dr : Z;
  adc4_dr : Z;
  adc5_dr : Z;
  adc5_dr_temp : Z;
  position_sample : Z;  (* position_sensor_->FinishSample() *)
  motor_driver_fault : bool;  (* motor_driver_->fault() *)
  timer_cnt : Z;
  timer_dir : bool
}.
End Env.

(* ================================================================== *)
(** ** The control loop *)

Notation "x |> f" := (f x)
  (at level 68, left associativity, only parsing).
Notation "x <- e ;; k" := (match e with Some x => k | None => None end)
  (at level 100, e at next level, right associativity, only parsing).

(** Sequencing of state updates: [let! w := e in b] is [b] with [w]
    bound to [e], as a constant that reduction does not expand, so
    that a long sequence of updates stays linear in size. *)
Definition letS {A B : Type} (x : A) (k : A -> B) : B := k x.
#[global] Arguments letS : simpl never.
Notation "'let!' x ':=' e 'in' b" := (letS e (fun x => b))
  (at level 10, x name, e at level 200, b at level 200,
   format "'[v' 'let!'  x  ':='  e  'in' '/' b ']'").

(** [float] literals. *)
Definition f1_0 : float := F32.of_Z 1.
Definition f0_5 : float := F32.dec 5 1.

Definition Threshold (value lower upper : float) : float :=
  if (value > lower)%f32 && (value < upper)%f32 then F32.zero else value.

Definition Offset (minval blend val : float) : float :=
  if (val == F32.zero)%f32 then F32.zero
  else if (F32.abs val >= blend)%f32 then
    if (val < F32.zero)%f32 then (- minval + val)%f32 else (minval + val)%f32
  else
    let ratio := (val / blend)%f32 in
    (ratio * (blend + minval))%f32.

(** Modelled from the spec: [mjlib::base::Limit] of mjlib/base/limit.h,
    which is not among the sources; the specification calls it a clamp
    of the value to the interval, and a bound that is NaN ("unset")
    does not clamp. *)
Definition Limit (a min max : float) : float :=
  if (a < min)%f32 then min
  else if (a > max)%f32 then max
  else a.

(** From make_thermistor_table.py *)
Definition g_thermistor_lookup : list float :=
  [ F32.dec (-7417) 2;  (* 0 *)
    F32.dec (-1136) 2;  (* 128 *)
    F32.dec 153 2;  (* 256 *)
    F32.dec 997 2;  (* 384 *)
    F32.dec 1651 2;  (* 512 *)
    F32.dec 2198 2;  (* 640 *)
    F32.dec 2679 2;  (* 768 *)
    F32.dec 3115 2;  (* 896 *)
    F32.dec 3519 2;  (* 1024 *)
    F32.dec 3900 2;  (* 1152 *)
    F32.dec 4265 2;  (* 1280 *)
    F32.dec 4618 2;  (* 1408 *)
    F32.dec 4964 2;  (* 1536 *)
    F32.dec 5305 2;  (* 1664 *)
    F32.dec 5645 2;  (* 1792 *)
    F32.dec 5987 2;  (* 1920 *)
    F32.dec 6333 2;  (* 2048 *)
    F32.dec 6687 2;  (* 2176 *)
    F32.dec 7051 2;  (* 2304 *)
    F32.dec 7429 2;  (* 2432 *)
    F32.dec 7825 2;  (* 2560 *)
    F32.dec 8244 2;  (* 2688 *)
    F32.dec 8692 2;  (* 2816 *)
    F32.dec 9178 2;  (* 2944 *)
    F32.dec 9713 2;  (* 3072 *)
    F32.dec 10313 2;  (* 3200 *)
    F32.dec 11001 2;  (* 3328 *)
    F32.dec 11816 2;  (* 3456 *)
    F32.dec 12823 2;  (* 3584 *)
    F32.dec 14149 2;  (* 3712 *)
    F32.dec 16102 2;  (* 3840 *)
    F32.dec 19766 2  (* 3968 *) ].

Definition kCalibrateCount : Z := 256.
Definition kDefaultTorqueConstant : float := F32.dec 1 1.
Definition kMaxUnconfiguredCurrent : float := F32.of_Z 5.
Definition kMaxVelocityFilter : Z := 256.

(** This is used to determine the maximum allowable PWM value so that
    the current sampling is guaranteed to occur while the FETs are
    still low. *)
Definition kCurrentSampleTime : float := F32.dec 185 8.

(** The state after a sequence of events, each handled by [step];
    [None] when one of them fails. *)
Fixpoint run {S Ev : Type} (step : Ev -> S -> option S) (evs : list Ev)
  (w : S) : option S :=
  match evs with
  | [] => Some w
  | ev :: evs' =>
      match step ev w with
      | Some w' => run step evs' w'
      | None => None
      end
  end.

Inductive ClearMode : Type :=
| kClearIfMode
| kAlwaysClear.

Section Servo.

Context {E : Extern}.

(** r4.1 and above run at the slower 40kHz PWM frequency. *)
Definition kIntRateHz : Z := if 3 <=? MOTEUS_HW_REV then 40000 else 30000.
Definition kPwmRateHz : Z := if 3 <=? MOTEUS_HW_REV then 40000 else 60000.
Definition kInterruptDivisor : Z := kPwmRateHz / kIntRateHz.

Definition kMinPwm : float :=
  (kCurrentSampleTime / (f0_5 / F32.of_Z kPwmRateHz))%f32.
Definition kMaxPwm : float := (f1_0 - kMinPwm)%f32.

Definition kRateHz : float := F32.of_Z kIntRateHz.
Definition kPeriodS : float := (f1_0 / kRateHz)%f32.

(** The maximum amount the absolute encoder can change in one cycle
    without triggering a fault. *)
Definition kMaxPositionDelta : Z := Int.i16 (28000 / 60 * 65536 / kIntRateHz).

(** Modelled from the spec: [Control::Clear] of bldc_servo.h, which is
    not among the sources; the control record is reset each cycle. *)
Definition Control_Clear (_ : Control.t) : Control.t :=
  Control.mk (Vec3.mk F32.zero F32.zero F32.zero)
             (Vec3.mk F32.zero F32.zero F32.zero)
             F32.zero F32.zero F32.zero F32.zero F32.zero.

(** *** The main context *)

Definition Command (data : CommandData.t) (w : Impl) : option Impl :=
  if Mode_eqb (CommandData.mode data) kFault
     || Mode_eqb (CommandData.mode data) kEnabling
     || Mode_eqb (CommandData.mode data) kCalibrating
     || Mode_eqb (CommandData.mode data) kCalibrationComplete
  then None  (* MJ_ASSERT *)
  else
    let next := data in
    (* If the position is left unspecified, but we have a velocity and
       stop condition, pick the sign of the velocity so that we move. *)
    let next :=
      if F32.isnan (CommandData.position next)
         && negb (F32.isnan (CommandData.stop_position next))
         && negb (F32.isnan (CommandData.velocity next))
         && (CommandData.velocity next != F32.zero)%f32
      then
        CommandData.with_velocity
          (F32.abs (CommandData.velocity next) *
           (if (CommandData.stop_position next >
                Status.unwrapped_position (status_ w))%f32
            then f1_0 else F32.neg f1_0))%f32
          next
      else next in
    let next :=
      if (CommandData.timeout_s next == F32.zero)%f32
      then CommandData.with_timeout_s
             (Config.default_timeout_s (config_ w)) next
      else next in
    Some (w |> with_telemetry_data_ next
            |> with_next_data_ (current_data_ w)
            |> with_current_data_ next).

Definition is_torque_constant_configured (w : Impl) : bool :=
  (Motor.v_per_hz (motor_ w) != F32.zero)%f32.

Definition current_to_torque (w : Impl) (current : float) : float :=
  TorqueModel_current_to_torque
    (torque_constant_ w)
    (Motor.rotation_current_cutoff_A (motor_ w))
    (Motor.rotation_current_scale (motor_ w))
    (Motor.rotation_torque_scale (motor_ w))
    current.

Definition torque_to_current (w : Impl) (torque : float) : float :=
  TorqueModel_torque_to_current
    (torque_constant_ w)
    (Motor.rotation_current_cutoff_A (motor_ w))
    (Motor.rotation_current_scale (motor_ w))
    (Motor.rotation_torque_scale (motor_ w))
    torque.

Definition UpdateConfig (w : Impl) : Impl :=
  let kv := (f0_5 * F32.of_Z 60 / Motor.v_per_hz (motor_ w))%f32 in
  let kFudge := F32.dec 78 2 in
  w |> with_torque_constant_
         (if is_torque_constant_configured w
          then (kFudge * F32.of_Z 60 / (F32.of_Z 2 * kPi * kv))%f32
          else kDefaultTorqueConstant)
    |> with_position_constant_ (Z.quot (Motor.poles (motor_ w)) 2)
    |> with_adc_scale_
         (F32.dec 33 1 /
          (F32.of_Z 4096 * MOTEUS_CURRENT_SENSE_OHM
           * Config.i_gain (config_ w)))%f32
    |> with_velocity_filter_
         (WindowedAverage_make
            (Int.min kMaxVelocityFilter
                     (Config.velocity_filter_length (config_ w)))).

Definition PollMillisecond (w : Impl) : Impl :=
  let! w :=
    if Mode_eqb (Status.mode (status_ w)) kEnabling
    then w |> with_motor_driver_enable true
           |> over_status_ (Status.with_mode kCalibrating)
    else w in
  over_startup_count_ (fun n => Int.u32 (n + 1)) w.

(** The timer is set up to count [pwm_counts_] per half period. *)
Definition ConfigurePwmTimer (w : Impl) : Impl :=
  with_pwm_counts_
    (Int.u32 (Z.quot (Int.u32 (HAL_RCC_GetPCLK1Freq * 2)) (2 * kPwmRateHz))) w.

(** *** Controllers *)

(** We can't go full duty cycle or we wouldn't have time to sample
    the current. *)
Definition LimitPwm (in_ : float) : float := Limit in_ kMinPwm kMaxPwm.

Definition ISR_DoPwmControl (pwm : Vec3.t) (w : Impl) : Impl :=
  let! w :=
    over_control_
      (Control.with_pwm
         (Vec3.mk (LimitPwm (Vec3.a pwm))
                  (LimitPwm (Vec3.b pwm))
                  (LimitPwm (Vec3.c pwm)))) w in
  let counts := F32.of_Z (pwm_counts_ w) in
  let pwm1 := F32.to_u16 (Vec3.a (Control.pwm (control_ w)) * counts)%f32 in
  let pwm2 := F32.to_u16 (Vec3.b (Control.pwm (control_ w)) * counts)%f32 in
  let pwm3 := F32.to_u16 (Vec3.c (Control.pwm (control_ w)) * counts)%f32 in
  (* NOTE(jpieper): We flip pwm2 and pwm3 here, which changes the
     order of stepping. *)
  w |> with_pwm1_ccr pwm1
    |> with_pwm2_ccr pwm3
    |> with_pwm3_ccr pwm2
    |> with_motor_driver_power true.

Definition ISR_VoltageToPwm (w : Impl) (v : float) : float :=
  (f0_5 + Offset (Config.pwm_min (config_ w))
                 (Config.pwm_min_blend (config_ w))
                 (v / Status.filt_bus_V (status_ w)))%f32.

Definition ISR_DoVoltageControl (voltage : Vec3.t) (w : Impl) : Impl :=
  let! w := over_control_ (Control.with_voltage voltage) w in
  ISR_DoPwmControl
    (Vec3.mk (ISR_VoltageToPwm w (Vec3.a voltage))
             (ISR_VoltageToPwm w (Vec3.b voltage))
             (ISR_VoltageToPwm w (Vec3.c voltage))) w.

Definition ISR_DoVoltageFOC (theta voltage : float) (w : Impl) : Impl :=
  let sc := cordic_ (RadiansToQ31 theta) in
  let max_voltage :=
    ((f0_5 - kMinPwm) * Status.filt_bus_V (status_ w))%f32 in
  let idt :=
    InverseDqTransform
      sc (Limit voltage (F32.neg max_voltage) max_voltage) (F32.of_Z 0) in
  ISR_DoVoltageControl idt w.

Definition ISR_DoVoltageDQ (sin_cos : SinCos.t) (d_V q_V : float) (w : Impl)
  : Impl :=
  if Motor.poles (motor_ w) =? 0 then
    (* We aren't configured yet. *)
    over_status_
      (fun s => s |> Status.with_mode kFault
                  |> Status.with_fault kMotorNotConfigured) w
  else
    let! w :=
      over_control_
        (fun c => c |> Control.with_d_V d_V |> Control.with_q_V q_V) w in
    let max_voltage :=
      ((f0_5 - kMinPwm) * Status.filt_bus_V (status_ w))%f32 in
    let limit_v := fun in_ => Limit in_ (F32.neg max_voltage) max_voltage in
    let idt :=
      InverseDqTransform sin_cos
                         (limit_v (Control.d_V (control_ w)))
                         (limit_v (Control.q_V (control_ w))) in
    ISR_DoVoltageControl idt w.

(** The lambda [limit_q_current] of [ISR_DoCurrent]: the request is
    derated in the direction that moves it further outside the
    position limits. *)
Definition limit_q_current (w : Impl) (in_ : float) : float :=
  let position_max := PositionConfig.position_max (position_config_ w) in
  let position_min := PositionConfig.position_min (position_config_ w) in
  let unwrapped_position := Status.unwrapped_position (status_ w) in
  if negb (F32.isnan position_max)
     && (unwrapped_position > position_max)%f32
     && (in_ > F32.zero)%f32
  then
    (in_ * F32.max F32.zero
             (f1_0 - (unwrapped_position - position_max)
                     / Config.position_derate (config_ w)))%f32
  else if negb (F32.isnan position_min)
          && (unwrapped_position < position_min)%f32
          && (in_ < F32.zero)%f32
  then
    (in_ * F32.max F32.zero
             (f1_0 - (position_min - unwrapped_position)
                     / Config.position_derate (config_ w)))%f32
  else in_.

(** The locals [derate_fraction] and [temp_limit_A] of the lambda
    [limit_either_current] of [ISR_DoCurrent]. *)
Definition derate_fraction (w : Impl) : float :=
  ((Status.fet_temp_C (status_ w) - Config.derate_temperature (config_ w))
   / (Config.fault_temperature (config_ w)
      - Config.derate_temperature (config_ w)))%f32.

Definition temp_limit_A (w : Impl) : float :=
  F32.min
    (Config.max_current_A (config_ w))
    (F32.max
       F32.zero
       (derate_fraction w
        * (Config.derate_current_A (config_ w)
           - Config.max_current_A (config_ w))
        + Config.max_current_A (config_ w))%f32).

Definition limit_either_current (w : Impl) (in_ : float) : float :=
  Limit in_ (F32.neg (temp_limit_A w)) (temp_limit_A w).

Definition ISR_DoCurrent (sin_cos : SinCos.t) (i_d_A_in i_q_A_in : float)
  (w : Impl) : Impl :=
  let i_q_A := limit_either_current w (limit_q_current w i_q_A_in) in
  let i_d_A := limit_either_current w i_d_A_in in
  let! w :=
    over_control_
      (fun c => c |> Control.with_i_d_A i_d_A |> Control.with_i_q_A i_q_A) w in
  let r_d :=
    PID_Apply (Config.pid_dq (config_ w)) (Status.pid_d (status_ w))
              (Status.d_A (status_ w)) i_d_A f1_0 F32.zero kRateHz None in
  let! w := over_status_ (Status.with_pid_d (fst r_d)) w in
  let d_V :=
    (Config.feedforward_scale (config_ w) * i_d_A
     * Motor.resistance_ohm (motor_ w)
     + snd r_d)%f32 in
  let r_q :=
    PID_Apply (Config.pid_dq (config_ w)) (Status.pid_q (status_ w))
              (Status.q_A (status_ w)) i_q_A F32.zero F32.zero kRateHz None in
  let! w := over_status_ (Status.with_pid_q (fst r_q)) w in
  let q_V :=
    (Config.feedforward_scale (config_ w)
     * (i_q_A * Motor.resistance_ohm (motor_ w)
        - Status.velocity (status_ w) * Motor.v_per_hz (motor_ w)
          / Motor.unwrapped_position_scale (motor_ w))
     + snd r_q)%f32 in
  ISR_DoVoltageDQ sin_cos d_V q_V w.

(** The lambda that computes [d_A] in [ISR_DoPositionCommon]: the
    flux braking current. *)
Definition flux_brake_d_A (w : Impl) : float :=
  if (Config.flux_brake_min_voltage (config_ w) <= F32.zero)%f32 then
    F32.zero
  else
    let error :=
      (Status.filt_1ms_bus_V (status_ w)
       - Config.flux_brake_min_voltage (config_ w))%f32 in
    if (error <= F32.zero)%f32 then F32.zero
    else (error / Config.flux_brake_resistance_ohm (config_ w))%f32.

Definition ISR_DoPositionCommon
  (sin_cos : SinCos.t) (pid_options : ApplyOptions.t)
  (max_torque_Nm feedforward_Nm velocity : float) (w : Impl) : Impl :=
  let! w :=
    if negb (F32.isnan (CommandData.position (current_data_ w))) then
      w |> over_status_
             (Status.with_control_position
                (CommandData.position (current_data_ w)))
        |> over_current_data_ (CommandData.with_position F32.nan)
    else if F32.isnan (Status.control_position (status_ w)) then
      over_status_
        (Status.with_control_position
           (Status.unwrapped_position (status_ w))) w
    else w in
  let velocity_command := velocity in
  let old_position := Status.control_position (status_ w) in
  let! w :=
    over_status_
      (Status.with_control_position
         (Limit (Status.control_position (status_ w)
                 + velocity_command / kRateHz)%f32
                (PositionConfig.position_min (position_config_ w))
                (PositionConfig.position_max (position_config_ w)))) w in
  let! w :=
    if negb (F32.isnan (CommandData.stop_position (current_data_ w)))
       && ((Status.control_position (status_ w)
            - CommandData.stop_position (current_data_ w))
           * velocity_command > F32.zero)%f32
    then
      (* We are moving away from the stop position.  Force it to be
         there. *)
      over_status_
        (Status.with_control_position
           (CommandData.stop_position (current_data_ w))) w
    else w in
  let velocity_command :=
    if (Status.control_position (status_ w) == old_position)%f32
    then F32.zero  (* We have hit a limit.  Assume a velocity of 0. *)
    else velocity_command in
  let measured_velocity :=
    Threshold (Status.velocity (status_ w))
              (F32.neg (Config.velocity_threshold (config_ w)))
              (Config.velocity_threshold (config_ w)) in
  let r :=
    PID_Apply (Config.pid_position (config_ w))
              (Status.pid_position (status_ w))
              (Status.unwrapped_position (status_ w))
              (Status.control_position (status_ w))
              measured_velocity velocity_command
              kRateHz (Some pid_options) in
  let! w := over_status_ (Status.with_pid_position (fst r)) w in
  let unlimited_torque_Nm := (snd r + feedforward_Nm)%f32 in
  let limited_torque_Nm :=
    Limit unlimited_torque_Nm (F32.neg max_torque_Nm) max_torque_Nm in
  let! w := over_control_ (Control.with_torque_Nm limited_torque_Nm) w in
  let limited_q_A :=
    torque_to_current
      w (limited_torque_Nm * Motor.unwrapped_position_scale (motor_ w))%f32 in
  let q_A :=
    if is_torque_constant_configured w then limited_q_A
    else Limit limited_q_A
               (F32.neg kMaxUnconfiguredCurrent) kMaxUnconfiguredCurrent in
  let d_A := flux_brake_d_A w in
  ISR_DoCurrent sin_cos d_A q_A w.

Definition ISR_DoZeroVelocity (sin_cos : SinCos.t) (w : Impl) : Impl :=
  let apply_options := ApplyOptions.mk (F32.of_Z 0) (F32.of_Z 1) in
  ISR_DoPositionCommon sin_cos apply_options
                       (Config.timeout_max_torque_Nm (config_ w))
                       F32.zero F32.zero w.

Definition ISR_DoPosition (sin_cos : SinCos.t) (w : Impl) : Impl :=
  let data := current_data_ w in
  let apply_options :=
    ApplyOptions.mk (CommandData.kp_scale data) (CommandData.kd_scale data) in
  ISR_DoPositionCommon sin_cos apply_options
                       (CommandData.max_torque_Nm data)
                       (CommandData.feedforward_Nm data)
                       (CommandData.velocity data) w.

Definition ISR_DoStayWithinBounds (sin_cos : SinCos.t) (w : Impl) : Impl :=
  let data := current_data_ w in
  let target_position : option float :=
    if negb (F32.isnan (CommandData.bounds_min data))
       && (Status.unwrapped_position (status_ w)
           < CommandData.bounds_min data)%f32
    then Some (CommandData.bounds_min data)
    else if negb (F32.isnan (CommandData.bounds_max data))
            && (Status.unwrapped_position (status_ w)
                > CommandData.bounds_max data)%f32
    then Some (CommandData.bounds_max data)
    else None in
  match target_position with
  | None =>
      let! w :=
        over_status_
          (fun s => s |> Status.over_pid_position PID_State_Clear
                      |> Status.with_control_position F32.nan) w in
      (* In this region, we still apply feedforward torques if they
         are present. *)
      let limited_torque_Nm :=
        Limit (CommandData.feedforward_Nm data)
              (F32.neg (CommandData.max_torque_Nm data))
              (CommandData.max_torque_Nm data) in
      let! w := over_control_ (Control.with_torque_Nm limited_torque_Nm) w in
      let limited_q_A :=
        torque_to_current
          w (limited_torque_Nm
             * Motor.unwrapped_position_scale (motor_ w))%f32 in
      ISR_DoCurrent sin_cos F32.zero limited_q_A w
  | Some target =>
      (* Control position to whichever bound we are currently
         violating. *)
      let apply_options :=
        ApplyOptions.mk (CommandData.kp_scale data)
                        (CommandData.kd_scale data) in
      let! w :=
        over_current_data_
          (fun d => d |> CommandData.with_position target
                      |> CommandData.with_velocity F32.zero) w in
      ISR_DoPositionCommon sin_cos apply_options
                           (CommandData.max_torque_Nm data)
                           (CommandData.feedforward_Nm data)
                           F32.zero w
  end.

(** *** Mode machine *)

Definition ISR_DoStopped (w : Impl) : Impl :=
  w |> with_motor_driver_enable false
    |> with_motor_driver_power false
    |> with_pwm1_ccr 0
    |> with_pwm2_ccr 0
    |> with_pwm3_ccr 0.

Definition ISR_DoFault (w : Impl) : Impl :=
  w |> with_motor_driver_power false
    |> with_pwm1_ccr 0
    |> with_pwm2_ccr 0
    |> with_pwm3_ccr 0.

Definition ISR_DoCalibrating (w : Impl) : Impl :=
  let! w :=
    w |> over_calibrate_adc1_
           (fun x => Int.u32 (x + Status.adc_cur1_raw (status_ w)))
      |> over_calibrate_adc2_
           (fun x => Int.u32 (x + Status.adc_cur2_raw (status_ w)))
      |> over_calibrate_adc3_
           (fun x => Int.u32 (x + Status.adc_cur3_raw (status_ w)))
      |> over_calibrate_count_ (fun n => Int.u16 (n + 1)) in
  if calibrate_count_ w <? kCalibrateCount then w
  else
    let new_adc1_offset := Int.u16 (Z.quot (calibrate_adc1_ w) kCalibrateCount) in
    let new_adc2_offset := Int.u16 (Z.quot (calibrate_adc2_ w) kCalibrateCount) in
    let new_adc3_offset := Int.u16 (Z.quot (calibrate_adc3_ w) kCalibrateCount) in
    if (Z.abs (new_adc1_offset - 2048) >? 200)
       || (Z.abs (new_adc2_offset - 2048) >? 200)
       || (Z.abs (new_adc3_offset - 2048) >? 200)
    then
      (* Error calibrating.  Just fault out. *)
      over_status_
        (fun s => s |> Status.with_mode kFault
                    |> Status.with_fault kCalibrationFault) w
    else
      over_status_
        (fun s => s |> Status.with_adc_cur1_offset new_adc1_offset
                    |> Status.with_adc_cur2_offset new_adc2_offset
                    |> Status.with_adc_cur3_offset new_adc3_offset
                    |> Status.with_mode kCalibrationComplete) w.

Definition ISR_IsOutsideLimits (w : Impl) : bool :=
  let position_min := PositionConfig.position_min (position_config_ w) in
  let position_max := PositionConfig.position_max (position_config_ w) in
  (negb (F32.isnan position_min)
   && (Status.unwrapped_position (status_ w) < position_min)%f32)
  || (negb (F32.isnan position_max)
      && (Status.unwrapped_position (status_ w) > position_max)%f32).

Definition ISR_StartCalibrating (w : Impl) : Impl :=
  w |> over_status_ (Status.with_mode kEnabling)
    (* The main context will set our state to kCalibrating when the
       motor driver is fully enabled. *)
    |> with_pwm1_ccr 0
    |> with_pwm2_ccr 0
    |> with_pwm3_ccr 0
    (* Power should already be false for any state we could possibly
       be in, but lets just be certain. *)
    |> with_motor_driver_power false
    |> with_calibrate_adc1_ 0
    |> with_calibrate_adc2_ 0
    |> with_calibrate_adc3_ 0
    |> with_calibrate_count_ 0.

Definition current_pid_active (m : Mode) : bool :=
  match m with
  | kNumModes | kStopped | kFault | kEnabling | kCalibrating
  | kCalibrationComplete | kPwm | kVoltage | kVoltageFoc | kVoltageDq =>
      false
  | kCurrent | kPosition | kPositionTimeout | kZeroVelocity
  | kStayWithinBounds =>
      true
  end.

Definition position_pid_active (m : Mode) : bool :=
  match m with
  | kNumModes | kStopped | kFault | kEnabling | kCalibrating
  | kCalibrationComplete | kPwm | kVoltage | kVoltageFoc | kVoltageDq
  | kCurrent =>
      false
  | kPosition | kPositionTimeout | kZeroVelocity | kStayWithinBounds =>
      true
  end.

Definition ISR_ClearPid (force_clear : ClearMode) (w : Impl) : Impl :=
  let always :=
    match force_clear with kAlwaysClear => true | kClearIfMode => false end in
  let! w :=
    if negb (current_pid_active (Status.mode (status_ w))) || always then
      over_status_
        (fun s =>
           s |> Status.over_pid_d PID_State_Clear
             |> Status.over_pid_q PID_State_Clear
             (* We always want to start from 0 current when initiating
                current control of some form. *)
             |> Status.over_pid_d (PID_State_set_desired F32.zero)
             |> Status.over_pid_q (PID_State_set_desired F32.zero)) w
    else w in
  if negb (position_pid_active (Status.mode (status_ w))) || always then
    over_status_
      (fun s =>
         s |> Status.over_pid_position PID_State_Clear
           |> Status.with_control_position F32.nan) w
  else w.

(** We are requesting a different mode than we are in now.  Do our
    best to advance if possible.  [None] is a failed [MJ_ASSERT]. *)
Definition ISR_MaybeChangeMode (w : Impl) : option Impl :=
  let data := current_data_ w in
  match CommandData.mode data with
  | kNumModes | kFault | kCalibrating | kCalibrationComplete =>
      (* These should not be possible. *)
      None
  | kStopped =>
      (* It is always valid to enter stopped mode. *)
      Some (over_status_ (Status.with_mode kStopped) w)
  | kEnabling =>
      (* We can never change out from enabling in ISR context. *)
      Some w
  | kPwm | kVoltage | kVoltageFoc | kVoltageDq | kCurrent | kPosition
  | kPositionTimeout | kZeroVelocity | kStayWithinBounds =>
      match Status.mode (status_ w) with
      | kNumModes => None
      | kFault =>
          (* We cannot leave a fault state directly into an active
             state. *)
          Some w
      | kStopped =>
          (* From a stopped state, we first have to enter the
             calibrating state. *)
          Some (ISR_StartCalibrating w)
      | kEnabling | kCalibrating =>
          (* We can only leave this state when calibration is
             complete. *)
          Some w
      | kCalibrationComplete | kPwm | kVoltage | kVoltageFoc | kVoltageDq
      | kCurrent | kPosition | kZeroVelocity | kStayWithinBounds =>
          if (Mode_eqb (CommandData.mode data) kPosition
              || Mode_eqb (CommandData.mode data) kStayWithinBounds)
             && ISR_IsOutsideLimits w
          then
            Some (over_status_
                    (fun s => s |> Status.with_mode kFault
                                |> Status.with_fault kStartOutsideLimit) w)
          else
            (* Yep, we can do this.  Start from scratch if we are in a
               new mode. *)
            Some (w |> over_status_
                         (Status.with_mode (CommandData.mode data))
                    |> ISR_ClearPid kAlwaysClear)
      | kPositionTimeout =>
          (* We cannot leave this mode except through a stop. *)
          Some w
      end
  end.

Definition ISR_DoControl (env : Env.t) (sin_cos : SinCos.t) (w : Impl)
  : option Impl :=
  let! w := over_control_ Control_Clear w in
  let! w :=
    match CommandData.set_position (current_data_ w) with
    | Some p =>
        w |> over_status_
               (Status.with_unwrapped_position_raw
                  (F32.to_i32 (p * F32.of_Z 65536)%f32))
          |> over_current_data_ (CommandData.with_set_position None)
    | None => w
    end in
  let! w :=
    if negb (F32.isnan (Status.timeout_s (status_ w)))
       && (Status.timeout_s (status_ w) > F32.zero)%f32
    then
      over_status_
        (Status.over_timeout_s
           (fun t => F32.max F32.zero (t - kPeriodS)%f32)) w
    else w in
  (* See if we need to update our current mode. *)
  w <- (if negb (Mode_eqb (CommandData.mode (current_data_ w))
                          (Status.mode (status_ w)))
        then ISR_MaybeChangeMode w else Some w) ;;
  (* Handle our persistent fault conditions. *)
  let! w :=
    if negb (Mode_eqb (Status.mode (status_ w)) kStopped)
       && negb (Mode_eqb (Status.mode (status_ w)) kFault)
    then
      let! w :=
        if Env.motor_driver_fault env then
          over_status_
            (fun s => s |> Status.with_mode kFault
                        |> Status.with_fault kMotorDriverFault) w
        else w in
      let! w :=
        if (Status.bus_V (status_ w) > Config.max_voltage (config_ w))%f32
        then
          over_status_
            (fun s => s |> Status.with_mode kFault
                        |> Status.with_fault kOverVoltage) w
        else w in
      if (Status.fet_temp_C (status_ w)
          > Config.fault_temperature (config_ w))%f32
      then
        over_status_
          (fun s => s |> Status.with_mode kFault
                      |> Status.with_fault kOverTemperature) w
      else w
    else w in
  let! w :=
    if (Mode_eqb (Status.mode (status_ w)) kPosition
        || Mode_eqb (Status.mode (status_ w)) kStayWithinBounds)
       && negb (F32.isnan (Status.timeout_s (status_ w)))
       && (Status.timeout_s (status_ w) <= F32.zero)%f32
    then over_status_ (Status.with_mode kPositionTimeout) w
    else w in
  (* Ensure unused PID controllers have zerod state. *)
  let! w := ISR_ClearPid kClearIfMode w in
  let! w :=
    if negb (Mode_eqb (Status.mode (status_ w)) kFault)
    then over_status_ (Status.with_fault kSuccess) w
    else w in
  let data := current_data_ w in
  Some
    match Status.mode (status_ w) with
    | kNumModes | kStopped => ISR_DoStopped w
    | kFault => ISR_DoFault w
    | kEnabling => w
    | kCalibrating => ISR_DoCalibrating w
    | kCalibrationComplete => w
    | kPwm => ISR_DoPwmControl (CommandData.pwm data) w
    | kVoltage => ISR_DoVoltageControl (CommandData.phase_v data) w
    | kVoltageFoc =>
        ISR_DoVoltageFOC (CommandData.theta data) (CommandData.voltage data) w
    | kVoltageDq =>
        ISR_DoVoltageDQ sin_cos (CommandData.d_V data) (CommandData.q_V data) w
    | kCurrent =>
        ISR_DoCurrent sin_cos
                      (CommandData.i_d_A data) (CommandData.i_q_A data) w
    | kPosition => ISR_DoPosition sin_cos w
    | kPositionTimeout | kZeroVelocity => ISR_DoZeroVelocity sin_cos w
    | kStayWithinBounds => ISR_DoStayWithinBounds sin_cos w
    end.

(** *** State estimator *)

Definition torque_on (w : Impl) : option bool :=
  match Status.mode (status_ w) with
  | kNumModes => None  (* MJ_ASSERT *)
  | kFault | kCalibrating | kCalibrationComplete | kEnabling | kStopped =>
      Some false
  | kPwm | kVoltage | kVoltageFoc | kVoltageDq | kCurrent | kPosition
  | kPositionTimeout | kZeroVelocity | kStayWithinBounds =>
      Some true
  end.

Definition ISR_UpdateFilteredBusV (w : Impl) (filtered period_s : float)
  : float :=
  if F32.isnan filtered then Status.bus_V (status_ w)
  else
    let alpha := (f1_0 / (kRateHz * period_s))%f32 in
    (alpha * Status.bus_V (status_ w) + (f1_0 - alpha) * filtered)%f32.

Definition ISR_CalculateCurrentState (sin_cos : SinCos.t) (w : Impl)
  : option Impl :=
  let cur (raw offset : Z) : float :=
    (F32.of_Z (raw - offset) * adc_scale_ w)%f32 in
  let! w :=
    over_status_
      (fun s =>
         s |> Status.with_cur1_A
                (cur (Status.adc_cur1_raw s) (Status.adc_cur1_offset s))
           |> Status.with_cur2_A
                (cur (Status.adc_cur2_raw s) (Status.adc_cur2_offset s))
           |> Status.with_cur3_A
                (cur (Status.adc_cur3_raw s) (Status.adc_cur3_offset s))
           |> Status.with_bus_V
                (F32.of_Z (Status.adc_voltage_sense_raw s)
                 * Config.v_scale_V (config_ w))%f32) w in
  let! w :=
    over_status_
      (Status.over_filt_bus_V
         (fun f => ISR_UpdateFilteredBusV w f f0_5)) w in
  let! w :=
    over_status_
      (Status.over_filt_1ms_bus_V
         (fun f => ISR_UpdateFilteredBusV w f (F32.dec 1 3))) w in
  let dq :=
    DqTransform sin_cos
                (Status.cur1_A (status_ w))
                (Status.cur3_A (status_ w))
                (Status.cur2_A (status_ w)) in
  let! w :=
    over_status_
      (fun s => s |> Status.with_d_A (fst dq) |> Status.with_q_A (snd dq)) w in
  on <- torque_on w ;;
  let! w :=
    over_status_
      (Status.with_torque_Nm
         (if on
          then (current_to_torque w (Status.q_A (status_ w))
                / Motor.unwrapped_position_scale (motor_ w))%f32
          else F32.zero)) w in
  Some
    (with_dac_dhr12r1
       (1024 + Int.max 0
                 (Int.min 2047
                    (F32.to_i32
                       (F32.of_Z 1024 * Status.d_A (status_ w)
                        / F32.of_Z 30)%f32))) w).

(** *** Sampler *)

Definition ISR_DoSense (env : Env.t) (w : Impl) : option Impl :=
  (* Check to see if any motor outputs are now high.  If so, fault,
     because we have exceeded the maximum duty cycle we can achieve
     while still sampling current correctly. *)
  let! w :=
    if negb (Mode_eqb (Status.mode (status_ w)) kFault)
       && (Env.monitor1 env || Env.monitor2 env || Env.monitor3 env)
    then
      over_status_
        (fun s => s |> Status.with_mode kFault
                    |> Status.with_fault kPwmCycleOverrun) w
    else w in
  let! w :=
    match CommandData.rezero_position (current_data_ w) with
    | Some p =>
        w |> over_status_
               (fun s => s |> Status.with_position_to_set p
                           |> Status.with_rezeroed true)
          |> over_current_data_ (CommandData.with_rezero_position None)
    | None => w
    end in
  let! w :=
    let t := CommandData.timeout_s (current_data_ w) in
    if F32.isnan t || (t != F32.zero)%f32 then
      w |> over_status_ (Status.with_timeout_s t)
        |> over_current_data_ (CommandData.with_timeout_s F32.zero)
    else w in
  let! w :=
    over_status_
      (fun s => s |> Status.with_adc_cur1_raw (Int.u16 (Env.adc3_dr env))
                  |> Status.with_adc_cur2_raw (Int.u16 (Env.adc1_dr env))
                  |> Status.with_adc_cur3_raw (Int.u16 (Env.adc2_dr env))) w in
  let! w :=
    if g_measured_hw_rev <=? 4 then
      over_status_
        (fun s =>
           s |> Status.with_adc_motor_temp_raw (Int.u16 (Env.adc4_dr env))
             |> Status.with_adc_voltage_sense_raw (Int.u16 (Env.adc5_dr env)))
        w
    else
      over_status_
        (fun s =>
           s |> Status.with_adc_voltage_sense_raw (Int.u16 (Env.adc4_dr env))
             |> Status.with_adc_fet_temp_raw (Int.u16 (Env.adc5_dr env)))
        w in
  (* Wait for the position sample to finish. *)
  let old_position := Status.position (status_ w) in
  let! w :=
    over_status_
      (Status.with_position_raw (Int.u16 (Env.position_sample env))) w in
  let! w :=
    over_status_
      (fun s =>
         Status.with_position
           (Int.u16 (if Motor.invert (motor_ w)
                     then 65536 - Status.position_raw s
                     else Status.position_raw s)) s) w in
  let position := Status.position (status_ w) in
  let offset_size := Z.of_nat (length (Motor.offset (motor_ w))) in
  let offset_index := Z.quot (position * offset_size) 65536 in
  if negb ((0 <=? offset_index) && (offset_index <? offset_size))
  then None  (* MJ_ASSERT *)
  else
  let kU16ToTheta := (k2Pi / F32.of_Z 65536)%f32 in
  let! w :=
    over_status_
      (Status.with_electrical_theta
         (WrapZeroToTwoPi
            (F32.of_Z
               (Z.rem (Int.i32 (position_constant_ w * position)) 65536)
             * kU16ToTheta
             + nth (Z.to_nat offset_index) (Motor.offset (motor_ w)) F32.nan
            )%f32)) w in
  let delta_position := Int.i16 (position - old_position) in
  let! w :=
    if (negb (Mode_eqb (Status.mode (status_ w)) kStopped)
        && negb (Mode_eqb (Status.mode (status_ w)) kFault))
       && (Z.abs delta_position >? kMaxPositionDelta)
    then
      (* We probably had an error when reading the position.  We must
         fault. *)
      over_status_
        (fun s => s |> Status.with_mode kFault
                    |> Status.with_fault kEncoderFault) w
    else w in
  (* While we are in the first calibrating state, our unwrapped
     position is forced to be within one rotation of 0.  Also, the
     AS5047 isn't guaranteed to be valid until 10ms after startup. *)
  let! w :=
    if negb (F32.isnan (Status.position_to_set (status_ w)))
       && (startup_count_ w >? 10)
    then
      let zero_position :=
        Int.i16
          (Int.i32
             (position
              + Int.i32 (Motor.position_offset (motor_ w)
                         * (if Motor.invert (motor_ w) then -1 else 1)))) in
      let error :=
        (Status.position_to_set (status_ w)
         - F32.of_Z zero_position
           * Motor.unwrapped_position_scale (motor_ w)
           / F32.of_Z 65536)%f32 in
      let integral_offsets :=
        F32.round (error / Motor.unwrapped_position_scale (motor_ w))%f32 in
      over_status_
        (fun s =>
           s |> Status.with_unwrapped_position_raw
                  (F32.to_i32
                     (F32.of_Z zero_position
                      + integral_offsets * F32.of_Z 65536)%f32)
             |> Status.with_position_to_set F32.nan) w
    else
      over_status_
        (Status.over_unwrapped_position_raw
           (fun u => Int.i32 (u + delta_position))) w in
  (* We construct the velocity in a careful way so as to maximize the
     available resolution. *)
  let! w := over_velocity_filter_ (WindowedAverage_Add delta_position) w in
  let velocity_scale := (f1_0 / F32.of_Z 65536)%f32 in
  let! w :=
    over_status_
      (Status.with_velocity
         (F32.of_Z (WindowedAverage_total (velocity_filter_ w))
          * Motor.unwrapped_position_scale (motor_ w)
          * velocity_scale * kRateHz
          / F32.of_Z (WindowedAverage_size (velocity_filter_ w)))%f32) w in
  let! w :=
    over_status_
      (fun s =>
         Status.with_unwrapped_position
           (F32.of_Z (Status.unwrapped_position_raw s)
            * Motor.unwrapped_position_scale (motor_ w)
            * (f1_0 / F32.of_Z 65536))%f32 s) w in
  (* The temperature sensing should be done by now. *)
  let! w :=
    if g_measured_hw_rev <=? 4 then
      over_status_
        (Status.with_adc_fet_temp_raw (Int.u16 (Env.adc5_dr_temp env))) w
    else
      over_status_
        (Status.with_adc_motor_temp_raw (Int.u16 (Env.adc5_dr_temp env))) w in
  let adc_max := 4096 in
  let size_thermistor_table := Z.of_nat (length g_thermistor_lookup) in
  let raw := Status.adc_fet_temp_raw (status_ w) in
  let offset :=
    Int.max 1
      (Int.min (size_thermistor_table - 2)
               (Z.quot (raw * size_thermistor_table) adc_max)) in
  let this_value :=
    Int.i16 (Z.quot (offset * adc_max) size_thermistor_table) in
  let next_value :=
    Int.i16 (Z.quot ((offset + 1) * adc_max) size_thermistor_table) in
  let temp1 := nth (Z.to_nat offset) g_thermistor_lookup F32.nan in
  let temp2 := nth (Z.to_nat (offset + 1)) g_thermistor_lookup F32.nan in
  Some
    (over_status_
       (Status.with_fet_temp_C
          (temp1
           + (temp2 - temp1) * F32.of_Z (raw - this_value)
             / F32.of_Z (next_value - this_value))%f32) w).

(** *** The timer interrupt *)

Definition ISR_DoTimer (env : Env.t) (w : Impl) : option Impl :=
  let! w :=
    if negb (kInterruptDivisor =? 1)
    then over_phase_ (fun p => Z.rem (Int.i32 (p + 1)) kInterruptDivisor) w
    else w in
  if negb (kInterruptDivisor =? 1) && negb (phase_ w =? 0) then Some w
  else
    (* No matter what mode we are in, always sample our ADC and
       position sensors. *)
    w <- ISR_DoSense env w ;;
    let sin_cos :=
      cordic_ (RadiansToQ31 (Status.electrical_theta (status_ w))) in
    let! w :=
      over_status_
        (fun s => s |> Status.with_sin (SinCos.s sin_cos)
                    |> Status.with_cos (SinCos.c sin_cos)) w in
    w <- ISR_CalculateCurrentState sin_cos w ;;
    w <- ISR_DoControl env sin_cos w ;;
    let! w := over_clock_ (fun n => Int.u32 (n + 1)) w in
    Some
      (over_status_
         (fun s =>
            s |> Status.with_final_timer
                   (Int.u32 (if Env.timer_dir env
                             then pwm_counts_ w - Env.timer_cnt env
                             else pwm_counts_ w + Env.timer_cnt env))
              |> Status.with_total_timer (Int.u32 (2 * pwm_counts_ w))) w).

(** *** Interleavings of the two contexts *)

Inductive Event : Type :=
| EvTimer (env : Env.t)        (* the timer interrupt *)
| EvCommand (data : CommandData.t)  (* [BldcServo::Command] *)
| EvPollMillisecond.           (* [BldcServo::PollMillisecond] *)

Definition exec1 (ev : Event) (w : Impl) : option Impl :=
  match ev with
  | EvTimer env => ISR_DoTimer env w
  | EvCommand data => Command data w
  | EvPollMillisecond => Some (PollMillisecond w)
  end.

Definition exec : list Event -> Impl -> option Impl := run exec1.

End Servo.

(* ================================================================== *)
(** ** Reference collaborators

    One implementation of [Extern], used to run the control loop on
    concrete inputs.  The theorems below hold for every
    implementation; this one only supplies closed examples. *)

Module Reference.

(** PID controller with proportional, integral and derivative terms. *)
Record PidConfig := mkPidConfig {
  kp : float; ki : float; kd : float; ilimit : float; sign : float
}.

Record PidState := mkPidState {
  integral : float; desired : float
}.

Definition pid_apply (cfg : PidConfig) (st : PidState)
  (measured input_desired measured_rate input_desired_rate rate_hz : float)
  (options : option ApplyOptions.t) : PidState * float :=
  let kp_scale := match options with
                  | Some o => ApplyOptions.kp_scale o | None => F32.of_Z 1
                  end in
  let kd_scale := match options with
                  | Some o => ApplyOptions.kd_scale o | None => F32.of_Z 1
                  end in
  let error := (measured - input_desired)%f32 in
  let error_rate := (measured_rate - input_desired_rate)%f32 in
  let integral' :=
    Limit (integral st + error * ki cfg / rate_hz)%f32
          (F32.neg (ilimit cfg)) (ilimit cfg) in
  let p := (kp_scale * kp cfg * error)%f32 in
  let d := (kd_scale * kd cfg * error_rate)%f32 in
  (mkPidState integral' input_desired,
   (sign cfg * (p + d + integral'))%f32).

(** Modelled from the spec: the torque model of moteus/torque_model.h,
    which is not among the sources, in its linear region, where the
    torque is the torque constant times the current. *)
Definition current_to_torque_linear
  (torque_constant cutoff current_scale torque_scale current : float)
  : float := (current * torque_constant)%f32.

Definition torque_to_current_linear
  (torque_constant cutoff current_scale torque_scale torque : float)
  : float := (torque / torque_constant)%f32.

Definition kPi_ : float := F32.dec 314159265359 11.
Definition k2Pi_ : float := (F32.of_Z 2 * kPi_)%f32.

Definition wrap_zero_to_two_pi (x : float) : float :=
  let turns := F32.of_Z (F32.to_i32 (x / k2Pi_)%f32) in
  let r := (x - turns * k2Pi_)%f32 in
  if (r >= F32.zero)%f32 then r else (r + k2Pi_)%f32.

Definition radians_to_q31 (x : float) : Z :=
  Int.i32 (F32.to_i32 ((x / k2Pi_) * F32.of_Z (2 ^ 16))%f32 * 2 ^ 16).

(** Sine and cosine of the angle [q * 2 pi / 2^32] by their Taylor
    polynomials around the nearest quarter turn. *)
Definition sin_cos_q31 (q : Z) : SinCos.t :=
  let quadrant := Z.land (Z.shiftr (Int.u32 q + 2 ^ 29) 30) 3 in
  let residue := Int.i32 (Int.u32 q - quadrant * 2 ^ 30) in
  let x := (F32.of_Z residue * k2Pi_ / F32.of_Z (2 ^ 32))%f32 in
  let x2 := (x * x)%f32 in
  let s :=
    (x * (F32.of_Z 1 - x2 / F32.of_Z 6 * (F32.of_Z 1 - x2 / F32.of_Z 20)))%f32
  in
  let c :=
    (F32.of_Z 1 - x2 / F32.of_Z 2 * (F32.of_Z 1 - x2 / F32.of_Z 12))%f32 in
  match quadrant with
  | 0 => SinCos.mk s c
  | 1 => SinCos.mk c (F32.neg s)
  | 2 => SinCos.mk (F32.neg s) (F32.neg c)
  | _ => SinCos.mk (F32.neg c) s
  end.

Definition kSqrt3_4 : float := F32.dec 8660254 7.

Definition dq_transform (sc : SinCos.t) (a b c : float) : float * float :=
  let s := SinCos.s sc in
  let co := SinCos.c sc in
  let two_thirds := (F32.of_Z 2 / F32.of_Z 3)%f32 in
  ((two_thirds
    * (a * co + (kSqrt3_4 * s - f0_5 * co) * b
       + (- kSqrt3_4 * s - f0_5 * co) * c))%f32,
   (two_thirds
    * (- s * a - (- kSqrt3_4 * co - f0_5 * s) * b
       - (kSqrt3_4 * co - f0_5 * s) * c))%f32).

Definition inverse_dq_transform (sc : SinCos.t) (d q : float) : Vec3.t :=
  let s := SinCos.s sc in
  let co := SinCos.c sc in
  Vec3.mk
    (co * d - s * q)%f32
    ((kSqrt3_4 * s - f0_5 * co) * d - (- kSqrt3_4 * co - f0_5 * s) * q)%f32
    ((- kSqrt3_4 * s - f0_5 * co) * d - (kSqrt3_4 * co - f0_5 * s) * q)%f32.

(** A window of the most recent samples, newest first. *)
Record Window := mkWindow { capacity : Z; samples : list Z }.

Definition window_add (v : Z) (f : Window) : Window :=
  mkWindow (capacity f) (firstn (Z.to_nat (capacity f)) (v :: samples f)).

Definition window_total (f : Window) : Z := fold_right Z.add 0 (samples f).

Definition window_size (f : Window) : Z := Z.of_nat (length (samples f)).

#[export] Instance extern : Extern := {
  MOTEUS_HW_REV := 7;
  MOTEUS_CURRENT_SENSE_OHM := F32.dec 5 4;
  g_measured_hw_rev := 7;
  HAL_RCC_GetPCLK1Freq := 170000000;
  kPi := kPi_;
  k2Pi := k2Pi_;
  WrapZeroToTwoPi := wrap_zero_to_two_pi;
  RadiansToQ31 := radians_to_q31;
  cordic_ := sin_cos_q31;
  DqTransform := dq_transform;
  InverseDqTransform := inverse_dq_transform;
  pid_config := PidConfig;
  pid_state := PidState;
  PID_State_Clear := fun _ => mkPidState F32.zero F32.nan;
  PID_State_set_desired := fun v st => mkPidState (integral st) v;
  PID_Apply := pid_apply;
  TorqueModel_current_to_torque := current_to_torque_linear;
  TorqueModel_torque_to_current := torque_to_current_linear;
  windowed_average := Window;
  WindowedAverage_make := fun n => mkWindow n [];
  WindowedAverage_Add := window_add;
  WindowedAverage_total := window_total;
  WindowedAverage_size := window_size
}.

(** A servo for a 14 pole motor right after construction: stopped,
    with the default configuration. *)
Definition motor0 : Motor.t :=
  Motor.mk 14 false (F32.dec 5 2) (F32.dec 1 1) (F32.of_Z 1) 0
           (repeat F32.zero 64)
           (F32.of_Z 10000) (F32.dec 5 2) (F32.dec 5 2).

Definition config0 : Config.t :=
  Config.mk _
    (F32.of_Z 20)        (* i_gain *)
    (F32.dec 8008 6)     (* v_scale_V *)
    (F32.dec 1 2)        (* pwm_min *)
    (F32.dec 16 3)       (* pwm_min_blend *)
    (F32.of_Z 37)        (* max_voltage *)
    (F32.of_Z 75)        (* fault_temperature *)
    (F32.of_Z 50)        (* derate_temperature *)
    (F32.of_Z 20)        (* derate_current_A *)
    (F32.of_Z 100)       (* max_current_A *)
    (F32.of_Z 1)         (* feedforward_scale *)
    (F32.dec 9 2)        (* velocity_threshold *)
    (F32.dec 2 2)        (* position_derate *)
    F32.zero             (* flux_brake_min_voltage *)
    (F32.dec 1 1)        (* flux_brake_resistance_ohm *)
    (F32.of_Z 5)         (* timeout_max_torque_Nm *)
    (F32.dec 1 1)        (* default_timeout_s *)
    256                  (* velocity_filter_length *)
    (mkPidConfig (F32.dec 5 3) (F32.of_Z 30) F32.zero (F32.of_Z 20)
                 (F32.of_Z (-1)))
    (mkPidConfig (F32.of_Z 450) (F32.of_Z 100) (F32.of_Z 9) F32.zero
                 (F32.of_Z (-1))).

Definition command0 : CommandData.t :=
  CommandData.mk
    kStopped F32.nan F32.zero F32.zero (F32.of_Z 100) (F32.of_Z 1)
    (F32.of_Z 1) F32.nan F32.nan F32.nan F32.zero
    (Vec3.mk F32.zero F32.zero F32.zero) (Vec3.mk F32.zero F32.zero F32.zero)
    F32.zero F32.zero F32.zero F32.zero F32.zero F32.zero None None.

Definition pid0 : PidState := mkPidState F32.zero F32.zero.

Definition status0 : Status.t :=
  Status.mk _
    kStopped kSuccess
    0 0 0 0 0 0
    2048 2048 2048
    F32.zero F32.zero F32.zero
    F32.zero F32.nan F32.nan
    F32.zero F32.zero F32.zero
    F32.zero F32.zero
    0 0
    F32.zero
    0 F32.zero
    F32.zero F32.zero
    F32.zero false
    F32.zero F32.nan
    pid0 pid0 pid0
    0 0.

Definition impl0 : Impl :=
  ConfigurePwmTimer
    (UpdateConfig
       (mkImpl _
          motor0 config0 (PositionConfig.mk F32.nan F32.nan)
          command0 command0 command0
          (mkWindow 256 [])
          status0
          (Control.mk (Vec3.mk F32.zero F32.zero F32.zero)
                      (Vec3.mk F32.zero F32.zero F32.zero)
                      F32.zero F32.zero F32.zero F32.zero F32.zero)
          0 0 0 0
          0 0
          F32.zero 0 F32.zero
          0 0
          0 0 0
          false false
          0)).

(** Quiet peripherals: no gate monitor high, mid-scale currents, a
    24 V bus, a cool board and the encoder at [position]. *)
Definition env_at (position : Z) : Env.t :=
  Env.mk false false false 2048 2048 2048 2997 1000 1000 position false
         100 true.

(** The calibration path of the specification: the servo right after
    [ISR_StartCalibrating] and 256 cycles of raw currents. *)
Definition calibrating0 : Impl := ISR_StartCalibrating impl0.

Definition samples0 : list (Z * Z * Z) := repeat (2050, 2045, 2052) 256.

(** The result of a step that succeeds, and whether it does. *)
Definition defined {A : Type} (o : option A) : bool :=
  match o with
  | Some _ => true
  | None => false
  end.

Definition get {A : Type} (o : option A) (d : A) : A :=
  match o with
  | Some x => x
  | None => d
  end.

(** The state after a timer interrupt, and after the control stage
    alone, with the sine and cosine of angle 0. *)
Definition tick (env : Env.t) (w : Impl) : Impl :=
  get (ISR_DoTimer env w) w.

Definition control (env : Env.t) (w : Impl) : Impl :=
  get (ISR_DoControl env (SinCos.mk F32.zero f1_0) w) w.

(** A request for position control, and the servo that has received
    it while stopped. *)
Definition position_command0 : CommandData.t :=
  CommandData.with_mode kPosition command0.

Definition commanded0 : Impl :=
  get (Command position_command0 impl0) impl0.


Definition running0 : Impl :=
  over_status_ (Status.with_mode kPosition) commanded0.

Definition stopping0 : Impl :=
  over_status_ (Status.with_mode kPosition) impl0.

(** The peripherals of [env_at 0] with the driver reporting a fault,
    and position control with 40 V measured on the bus. *)
Definition env_driver_fault : Env.t :=
  Env.mk false false false 2048 2048 2048 2997 1000 1000 0 true 100 true.

(** Position control after its timeout, and a request for a phase
    voltage. *)
Definition timeout0 : Impl :=
  over_status_ (Status.with_mode kPositionTimeout) commanded0.

Definition voltage_command0 : CommandData.t :=
  CommandData.with_mode kVoltage command0.

(** Position control of a motor without poles, at 60 degrees, with
    24 V on the filtered bus, and with 1.5 turns to set. *)
Definition unconfigured0 : Impl :=
  with_motor_
    (Motor.mk 0 false (F32.dec 5 2) (F32.dec 1 1) (F32.of_Z 1) 0
              (repeat F32.zero 64)
              (F32.of_Z 10000) (F32.dec 5 2) (F32.dec 5 2))
    running0.

Definition warm0 : Impl :=
  over_status_ (Status.with_fet_temp_C (F32.of_Z 60)) running0.

Definition powered0 : Impl :=
  over_status_ (Status.with_filt_bus_V (F32.of_Z 24)) running0.


Definition setting0 : Impl :=
  over_current_data_
    (CommandData.with_set_position (Some (F32.dec 15 1))) running0.

(** The peripherals of [env_at 0] with 3000 counts on the thermistor
    of the power stage. *)
Definition env_hot : Env.t :=
  Env.mk false false false 2048 2048 2048 2997 3000 3000 0 false 100 true.

(** The peripherals of [env_at 0] with a gate monitor high. *)
Definition env_overrun : Env.t :=
  Env.mk true false false 2048 2048 2048 2997 1000 1000 0 false 100 true.

Definition overvoltage0 : Impl :=
  over_status_ (Status.with_bus_V (F32.of_Z 40)) running0.






End Reference.
(* ================================================================== *)
(** ** Auxiliary definitions for the statements *)

(** The order of the floats that are not NaN, as the lexicographic
    order of three integers: the class and the sign, the exponent and
    the mantissa. *)
Definition float_key (f : float) : Z * Z * Z :=
  match f with
  | S754_zero _ => (0, 0, 0)
  | S754_infinity s => (if s then -2 else 2, 0, 0)
  | S754_nan => (0, 0, 0)
  | S754_finite s m e => if s then (-1, - e, - Z.pos m) else (1, e, Z.pos m)
  end.

Definition key_lt (x y : Z * Z * Z) : Prop :=
  fst (fst x) < fst (fst y)
  \/ (fst (fst x) = fst (fst y)
      /\ (snd (fst x) < snd (fst y)
          \/ (snd (fst x) = snd (fst y) /\ snd x < snd y))).

(** The state after a sequence of inputs, each consumed by [step]. *)
Fixpoint iterate {S A : Type} (step : A -> S -> S) (xs : list A) (w : S) : S :=
  match xs with
  | [] => w
  | x :: rest => iterate step rest (step x w)
  end.

(** [ok ev w] holds of every event of the sequence and of the state
    in which it is handled. *)
Fixpoint always_at {S Ev : Type} (step : Ev -> S -> option S)
  (ok : Ev -> S -> Prop) (evs : list Ev) (w : S) : Prop :=
  match evs with
  | [] => True
  | ev :: evs' =>
      ok ev w /\ (forall w', step ev w = Some w' -> always_at step ok evs' w')
  end.

Section Aux.

Context {E : Extern}.

(** [mask x r] is [x] with the fields that the controllers write (the
    control record, the compare registers, the power line, the PID
    states, the control position and the position and velocity of the
    command) replaced by those of [r].  Two states with the same mask
    agree everywhere else. *)
Definition mask (x r : Impl) : Impl :=
  x |> with_control_ (control_ r)
    |> with_pwm1_ccr (pwm1_ccr r)
    |> with_pwm2_ccr (pwm2_ccr r)
    |> with_pwm3_ccr (pwm3_ccr r)
    |> with_motor_driver_power (motor_driver_power r)
    |> over_status_
         (fun s =>
            s |> Status.with_pid_d (Status.pid_d (status_ r))
              |> Status.with_pid_q (Status.pid_q (status_ r))
              |> Status.with_pid_position (Status.pid_position (status_ r))
              |> Status.with_control_position
                   (Status.control_position (status_ r)))
    |> over_current_data_
         (fun d =>
            d |> CommandData.with_position
                   (CommandData.position (current_data_ r))
              |> CommandData.with_velocity
                   (CommandData.velocity (current_data_ r))).

(** What [ISR_DoVoltageDQ] does to the mode: a motor without poles is
    not configured. *)
Definition not_configured (w : Impl) : Impl :=
  if Motor.poles (motor_ w) =? 0 then
    over_status_
      (fun s => s |> Status.with_mode kFault
                  |> Status.with_fault kMotorNotConfigured) w
  else w.

(** [control_mask x r] is [x] with everything that the control stage
    writes replaced by what [r] has there: the fields of [mask], the
    mode and the fault, the timeout, the raw unwrapped position, the
    offsets and the sums of the calibration, the position to set of
    the command and the enable line of the driver. *)
Definition status_mask (s rs : Status.t) : Status.t :=
  s |> Status.with_mode (Status.mode rs)
    |> Status.with_fault (Status.fault rs)
    |> Status.with_timeout_s (Status.timeout_s rs)
    |> Status.with_unwrapped_position_raw (Status.unwrapped_position_raw rs)
    |> Status.with_adc_cur1_offset (Status.adc_cur1_offset rs)
    |> Status.with_adc_cur2_offset (Status.adc_cur2_offset rs)
    |> Status.with_adc_cur3_offset (Status.adc_cur3_offset rs)
    |> Status.with_pid_d (Status.pid_d rs)
    |> Status.with_pid_q (Status.pid_q rs)
    |> Status.with_pid_position (Status.pid_position rs)
    |> Status.with_control_position (Status.control_position rs).

Definition control_mask (x r : Impl) : Impl :=
  x |> with_control_ (control_ r)
    |> with_pwm1_ccr (pwm1_ccr r)
    |> with_pwm2_ccr (pwm2_ccr r)
    |> with_pwm3_ccr (pwm3_ccr r)
    |> with_motor_driver_power (motor_driver_power r)
    |> with_motor_driver_enable (motor_driver_enable r)
    |> with_calibrate_adc1_ (calibrate_adc1_ r)
    |> with_calibrate_adc2_ (calibrate_adc2_ r)
    |> with_calibrate_adc3_ (calibrate_adc3_ r)
    |> with_calibrate_count_ (calibrate_count_ r)
    |> over_status_ (fun s => status_mask s (status_ r))
    |> over_current_data_
         (fun d =>
            d |> CommandData.with_position
                   (CommandData.position (current_data_ r))
              |> CommandData.with_velocity
                   (CommandData.velocity (current_data_ r))
              |> CommandData.with_set_position
                   (CommandData.set_position (current_data_ r))).

(** *** Timer interrupts *)

(** The interrupt runs the control cycle: with an interrupt divisor,
    only every [kInterruptDivisor]-th interrupt does. *)
Definition timer_due (w : Impl) : bool :=
  (kInterruptDivisor =? 1)
  || (Z.rem (Int.i32 (phase_ w + 1)) kInterruptDivisor =? 0).

(** The requests that [ISR_MaybeChangeMode] accepts without a failed
    assertion; it ignores a request for [kEnabling], which [Command]
    refuses. *)
Definition command_ok (m : Mode) : bool :=
  match m with
  | kNumModes | kFault | kCalibrating | kCalibrationComplete => false
  | _ => true
  end.

(** No timer interrupt of the sequence finds a stop command. *)
Definition stop_free : list Event -> Impl -> Prop :=
  always_at exec1
    (fun ev w =>
       match ev with
       | EvTimer _ => CommandData.mode (current_data_ w) <> kStopped
       | _ => True
       end).

(** *** The mode machine *)

(** The modes that a command may ask the interrupt to drive in. *)
Definition active_mode (m : Mode) : bool :=
  match m with
  | kPwm | kVoltage | kVoltageFoc | kVoltageDq | kCurrent | kPosition
  | kPositionTimeout | kZeroVelocity | kStayWithinBounds => true
  | _ => false
  end.

(** The modes from which [ISR_MaybeChangeMode] enters an active
    mode. *)
Definition ready_mode (m : Mode) : bool :=
  match m with
  | kCalibrationComplete | kPwm | kVoltage | kVoltageFoc | kVoltageDq
  | kCurrent | kPosition | kZeroVelocity | kStayWithinBounds => true
  | _ => false
  end.

(** The transitions of the mode that the request [cmd] allows
    [ISR_MaybeChangeMode] to make. *)
Definition request_allowed (cmd m m' : Mode) : bool :=
  (Mode_eqb m' m
   && (Mode_eqb cmd m || Mode_eqb cmd kEnabling
       || (active_mode cmd && negb (ready_mode m)
           && negb (Mode_eqb m kStopped))))
  || (Mode_eqb cmd kStopped && Mode_eqb m' kStopped)
  || (Mode_eqb m kStopped && active_mode cmd && Mode_eqb m' kEnabling)
  || (ready_mode m && active_mode cmd
      && (Mode_eqb m' cmd
          || ((Mode_eqb cmd kPosition || Mode_eqb cmd kStayWithinBounds)
              && Mode_eqb m' kFault))).

(** The transitions that the rest of the control stage can make: a
    fault, the end of the calibration and the expiry of the timeout. *)
Definition tail_allowed (m m' : Mode) : bool :=
  Mode_eqb m' m
  || (negb (Mode_eqb m kStopped) && Mode_eqb m' kFault)
  || (Mode_eqb m kCalibrating && Mode_eqb m' kCalibrationComplete)
  || ((Mode_eqb m kPosition || Mode_eqb m kStayWithinBounds)
      && Mode_eqb m' kPositionTimeout).

(** The modes whose controller runs the d/q voltage stage. *)
Definition dq_mode (m : Mode) : bool :=
  match m with
  | kVoltageDq | kCurrent | kPosition | kPositionTimeout | kZeroVelocity
  | kStayWithinBounds => true
  | _ => false
  end.

(** The modes whose controller sets the phase outputs directly. *)
Definition phase_mode (m : Mode) : bool :=
  match m with
  | kPwm | kVoltage | kVoltageFoc => true
  | _ => false
  end.

(** The steps of [tail_allowed]: the persistent fault checks, the
    expiry of the timeout and the controller of the mode. *)
Definition check_allowed (m m' : Mode) : bool :=
  Mode_eqb m' m
  || (negb (Mode_eqb m kStopped) && negb (Mode_eqb m kFault)
      && Mode_eqb m' kFault).

Definition expiry_allowed (m m' : Mode) : bool :=
  Mode_eqb m' m
  || ((Mode_eqb m kPosition || Mode_eqb m kStayWithinBounds)
      && Mode_eqb m' kPositionTimeout).

Definition dispatch_allowed (m m' : Mode) : bool :=
  Mode_eqb m' m
  || (Mode_eqb m kCalibrating
      && (Mode_eqb m' kCalibrationComplete || Mode_eqb m' kFault))
  || (dq_mode m && Mode_eqb m' kFault).

(** The transitions of the mode that one event can make, when the
    request in force is [cmd]. *)
Definition step_allowed (cmd m m' : Mode) : bool :=
  Mode_eqb m' m
  || Mode_eqb m' kFault
  || (Mode_eqb cmd kStopped && Mode_eqb m' kStopped)
  || (Mode_eqb m kStopped && active_mode cmd && Mode_eqb m' kEnabling)
  || (Mode_eqb m kEnabling && Mode_eqb m' kCalibrating)
  || (Mode_eqb m kCalibrating && Mode_eqb m' kCalibrationComplete)
  || (ready_mode m && active_mode cmd
      && (Mode_eqb m' cmd
          || ((Mode_eqb cmd kPosition || Mode_eqb cmd kStayWithinBounds)
              && Mode_eqb m' kPositionTimeout)))
  || ((Mode_eqb m kPosition || Mode_eqb m kStayWithinBounds)
      && Mode_eqb m' kPositionTimeout).

(** What the mode machine does with the request, on the state [w] in
    which it finds it. *)
Inductive Request (w : Impl) : Impl -> Prop :=
| Request_keep :
    Mode_eqb (CommandData.mode (current_data_ w)) (Status.mode (status_ w))
    || Mode_eqb (CommandData.mode (current_data_ w)) kEnabling
    || (active_mode (CommandData.mode (current_data_ w))
        && negb (ready_mode (Status.mode (status_ w)))
        && negb (Mode_eqb (Status.mode (status_ w)) kStopped)) = true ->
    Request w w
| Request_stop :
    CommandData.mode (current_data_ w) = kStopped ->
    Request w (over_status_ (Status.with_mode kStopped) w)
| Request_start :
    Status.mode (status_ w) = kStopped ->
    active_mode (CommandData.mode (current_data_ w)) = true ->
    Request w (ISR_StartCalibrating w)
| Request_outside :
    ready_mode (Status.mode (status_ w)) = true ->
    CommandData.mode (current_data_ w) <> Status.mode (status_ w) ->
    Mode_eqb (CommandData.mode (current_data_ w)) kPosition
    || Mode_eqb (CommandData.mode (current_data_ w)) kStayWithinBounds
    = true ->
    ISR_IsOutsideLimits w = true ->
    Request w
      (over_status_
         (fun s => s |> Status.with_mode kFault
                     |> Status.with_fault kStartOutsideLimit) w)
| Request_enter :
    ready_mode (Status.mode (status_ w)) = true ->
    active_mode (CommandData.mode (current_data_ w)) = true ->
    CommandData.mode (current_data_ w) <> Status.mode (status_ w) ->
    (Mode_eqb (CommandData.mode (current_data_ w)) kPosition
     || Mode_eqb (CommandData.mode (current_data_ w)) kStayWithinBounds)
    && ISR_IsOutsideLimits w = false ->
    Request w
      (w |> over_status_
              (Status.with_mode (CommandData.mode (current_data_ w)))
         |> ISR_ClearPid kAlwaysClear).

(** What the control stage does in the mode that it has settled on:
    the outputs off, nothing, a calibration step, or a controller, of
    which only its frame is kept. *)
Inductive Dispatch (w : Impl) : Impl -> Prop :=
| Dispatch_stopped :
    Mode_eqb (Status.mode (status_ w)) kStopped
    || Mode_eqb (Status.mode (status_ w)) kNumModes = true ->
    Dispatch w (ISR_DoStopped w)
| Dispatch_fault :
    Status.mode (status_ w) = kFault ->
    Dispatch w (ISR_DoFault w)
| Dispatch_idle :
    Mode_eqb (Status.mode (status_ w)) kEnabling
    || Mode_eqb (Status.mode (status_ w)) kCalibrationComplete = true ->
    Dispatch w w
| Dispatch_calibrating :
    Status.mode (status_ w) = kCalibrating ->
    Dispatch w (ISR_DoCalibrating w)
| Dispatch_phase w' :
    phase_mode (Status.mode (status_ w)) = true ->
    (forall r, mask w' r = mask w r) ->
    Dispatch w w'
| Dispatch_dq w' :
    dq_mode (Status.mode (status_ w)) = true ->
    (forall r, mask w' r = mask (not_configured w) r) ->
    Dispatch w w'.

(** *** Faults *)

(** The encoder reading of the cycle, with the inversion applied. *)
Definition encoder_position (env : Env.t) (w : Impl) : Z :=
  Int.u16 (if Motor.invert (motor_ w)
           then 65536 - Int.u16 (Env.position_sample env)
           else Int.u16 (Env.position_sample env)).

Definition delta_position (env : Env.t) (w : Impl) : Z :=
  Int.i16 (encoder_position env w - Status.position (status_ w)).

(** A phase output is still high when the sampler starts. *)
Definition cycle_overrun (env : Env.t) (w : Impl) : bool :=
  negb (Mode_eqb (Status.mode (status_ w)) kFault)
  && (Env.monitor1 env || Env.monitor2 env || Env.monitor3 env).

(** The encoder moved further than it can in one cycle. *)
Definition encoder_jump (env : Env.t) (w : Impl) : bool :=
  negb (Mode_eqb (Status.mode (status_ w)) kStopped)
  && negb (Mode_eqb (Status.mode (status_ w)) kFault)
  && (Z.abs (delta_position env w) >? kMaxPositionDelta).

(** The fault that the sampler raises, if any: the overrun is checked
    first, and the encoder is not checked in the fault mode. *)
Definition sampler_fault (env : Env.t) (w : Impl) : option errc :=
  if cycle_overrun env w then Some kPwmCycleOverrun
  else if encoder_jump env w then Some kEncoderFault
  else None.

(** The mode in which the state estimator and the mode machine find
    the servo. *)
Definition sampled_mode (env : Env.t) (w : Impl) : Mode :=
  match sampler_fault env w with
  | Some _ => kFault
  | None => Status.mode (status_ w)
  end.

Definition sampled_fault (env : Env.t) (w : Impl) : errc :=
  match sampler_fault env w with
  | Some c => c
  | None => Status.fault (status_ w)
  end.

(** The persistent fault that the control stage finds: the checks
    run in the order driver, bus voltage, temperature, and each one
    that fires overwrites the code of the one before. *)
Definition persistent_fault (env : Env.t) (w : Impl) : option errc :=
  if (Status.fet_temp_C (status_ w) > Config.fault_temperature (config_ w))%f32
  then Some kOverTemperature
  else if (Status.bus_V (status_ w) > Config.max_voltage (config_ w))%f32
  then Some kOverVoltage
  else if Env.motor_driver_fault env then Some kMotorDriverFault
  else None.

(** The request for position control that the mode machine refuses
    because the position is outside of the limits. *)
Definition refused (w : Impl) : bool :=
  ready_mode (Status.mode (status_ w))
  && (Mode_eqb (CommandData.mode (current_data_ w)) kPosition
      || Mode_eqb (CommandData.mode (current_data_ w)) kStayWithinBounds)
  && negb (Mode_eqb (CommandData.mode (current_data_ w))
                    (Status.mode (status_ w)))
  && ISR_IsOutsideLimits w.

(** The modes in which the servo does not drive the motor. *)
Definition quiet_mode (m : Mode) : bool :=
  match m with
  | kStopped | kEnabling | kCalibrating | kCalibrationComplete => true
  | _ => false
  end.

(** *** Position *)


(** The lambda of [ISR_DoStayWithinBounds] finds a target: the
    position is below a lower bound or above an upper bound that is
    not NaN. *)
Definition bound_violated (w : Impl) : bool :=
  negb (F32.isnan (CommandData.bounds_min (current_data_ w)))
  && (Status.unwrapped_position (status_ w)
      < CommandData.bounds_min (current_data_ w))%f32
  || negb (F32.isnan (CommandData.bounds_max (current_data_ w)))
     && (Status.unwrapped_position (status_ w)
         > CommandData.bounds_max (current_data_ w))%f32.

(** *** Temperature *)

(** The interpolation of the thermistor table by the sampler, for the
    raw reading [raw] of the converter. *)
Definition thermistor_C (raw : Z) : float :=
  let adc_max := 4096 in
  let size_thermistor_table := Z.of_nat (length g_thermistor_lookup) in
  let offset :=
    Int.max 1
      (Int.min (size_thermistor_table - 2)
               (Z.quot (raw * size_thermistor_table) adc_max)) in
  let this_value :=
    Int.i16 (Z.quot (offset * adc_max) size_thermistor_table) in
  let next_value :=
    Int.i16 (Z.quot ((offset + 1) * adc_max) size_thermistor_table) in
  let temp1 := nth (Z.to_nat offset) g_thermistor_lookup F32.nan in
  let temp2 := nth (Z.to_nat (offset + 1)) g_thermistor_lookup F32.nan in
  (temp1
   + (temp2 - temp1) * F32.of_Z (raw - this_value)
     / F32.of_Z (next_value - this_value))%f32.

(** The readings of a 12 bit converter but the last, in order. *)
Definition readings : list Z := map Z.of_nat (seq 0 4095).

(** *** Outputs *)

(** The three compare registers at zero and the power stage off. *)
Definition outputs_off (w : Impl) : Prop :=
  pwm1_ccr w = 0 /\ pwm2_ccr w = 0 /\ pwm3_ccr w = 0
  /\ motor_driver_power w = false.

Definition outputs (w : Impl) : Z * Z * Z * bool :=
  (pwm1_ccr w, pwm2_ccr w, pwm3_ccr w, motor_driver_power w).

(** What a controller makes of [w] when the motor is not configured:
    a fault, and the outputs as they were. *)
Definition refuses_to_drive (w w' : Impl) : Prop :=
  Status.mode (status_ w') = kFault
  /\ Status.fault (status_ w') = kMotorNotConfigured
  /\ outputs w' = outputs w.


(** The end of a control cycle: the cycle is counted and timed. *)
Definition cycle_end (a b : Z) (w : Impl) : Impl :=
  w |> over_clock_ (fun n => Int.u32 (n + 1))
    |> over_status_
         (fun s => s |> Status.with_final_timer a
                     |> Status.with_total_timer b).

(** *** Calibration runs *)

(** The three raw current readings that the sampler stores before the
    mode machine runs. *)
Definition with_raw (s : Z * Z * Z) (w : Impl) : Impl :=
  over_status_
    (fun st => st |> Status.with_adc_cur1_raw (fst (fst s))
                  |> Status.with_adc_cur2_raw (snd (fst s))
                  |> Status.with_adc_cur3_raw (snd s)) w.

(** [ISR_DoCalibrating] on a sequence of readings, one per cycle. *)
Definition calibrate_run : list (Z * Z * Z) -> Impl -> Impl :=
  iterate (fun s w => ISR_DoCalibrating (with_raw s w)).

Definition total (f : Z * Z * Z -> Z) (samples : list (Z * Z * Z)) : Z :=
  fold_right (fun s acc => f s + acc) 0 samples.

Definition average (f : Z * Z * Z -> Z) (samples : list (Z * Z * Z)) : Z :=
  total f samples / 256.

Definition chan1 (s : Z * Z * Z) : Z := fst (fst s).
Definition chan2 (s : Z * Z * Z) : Z := snd (fst s).
Definition chan3 (s : Z * Z * Z) : Z := snd s.

(** A raw reading is a [uint16_t]. *)
Definition raw_ok (s : Z * Z * Z) : Prop :=
  0 <= chan1 s < 65536 /\ 0 <= chan2 s < 65536 /\ 0 <= chan3 s < 65536.

(** Within 200 counts of mid-scale. *)
Definition near_midscale (x : Z) : bool := Z.abs (x - 2048) <=? 200.

Definition offsets (w : Impl) : Z * Z * Z :=
  (Status.adc_cur1_offset (status_ w),
   Status.adc_cur2_offset (status_ w),
   Status.adc_cur3_offset (status_ w)).

End Aux.

(* ================================================================== *)
(** ** Reasoning about sequences of updates *)

Lemma app_if {A B : Type} (f : A -> B) (c : bool) (x y : A) :
  f (if c then x else y) = if c then f x else f y.
Proof. destruct c; reflexivity. Qed.

Lemma app_opt {A B C : Type} (f : B -> C) (o : option A) (x : A -> B) (y : B) :
  f (match o with Some a => x a | None => y end)
  = match o with Some a => f (x a) | None => f y end.
Proof. destruct o; reflexivity. Qed.

Lemma if_same {A : Type} (c : bool) (x : A) : (if c then x else x) = x.
Proof. destruct c; reflexivity. Qed.

Lemma opt_same {A B : Type} (o : option A) (x : B) :
  match o with Some _ => x | None => x end = x.
Proof. destruct o; reflexivity. Qed.

Lemma get_defined {A : Type} (o : option A) (d : A) :
  Reference.defined o = true -> o = Some (Reference.get o d).
Proof. destruct o; [reflexivity | discriminate]. Qed.

Lemma letS_elim {A B : Type} (x : A) (k : A -> B) (P : B -> Prop) :
  (forall w, w = x -> P (k w)) -> P (letS x k).
Proof. intros H. exact (H x eq_refl). Qed.

(** Names every intermediate state of a sequence of updates. *)
Ltac seq_intro :=
  repeat match goal with
  | |- context [letS ?e ?k] =>
      pattern (letS e k); apply letS_elim;
      let w := fresh "w" in
      let Hw := fresh "Hw" in
      intros w Hw; cbv beta zeta
  end.

(** The same, innermost sequences first, so that no equation keeps a
    sequence inside. *)
Ltac seq_intro_deep :=
  repeat match goal with
  | |- context [letS ?e ?k] =>
      lazymatch e with
      | context [letS _ _] => fail
      | _ => idtac
      end;
      pattern (letS e k); apply letS_elim;
      let w := fresh "w" in
      let Hw := fresh "Hw" in
      intros w Hw; cbv beta zeta
  end.

Ltac is_record_type T :=
  lazymatch T with
  | @Impl _ => idtac
  | @Status.t _ => idtac
  | CommandData.t => idtac
  | Control.t => idtac
  end.

(** [p] reads a record: it takes one and returns something else. *)
Ltac is_observer p x :=
  let Tx := type of x in
  is_record_type Tx;
  let Tr := type of (p x) in
  lazymatch Tr with
  | _ -> _ => fail
  | context [@Impl] => fail
  | _ => tryif constr_eq Tx Tr then fail else idtac
  end.

(** Reduction of the projections of updated records. *)
Ltac rcbn :=
  cbn [CommandData.mode CommandData.over_mode CommandData.with_mode 
    CommandData.position CommandData.over_position 
    CommandData.with_position CommandData.velocity 
    CommandData.over_velocity CommandData.with_velocity 
    CommandData.feedforward_Nm CommandData.over_feedforward_Nm 
    CommandData.with_feedforward_Nm CommandData.max_torque_Nm 
    CommandData.over_max_torque_Nm CommandData.with_max_torque_Nm 
    CommandData.kp_scale CommandData.over_kp_scale 
    CommandData.with_kp_scale CommandData.kd_scale 
    CommandData.over_kd_scale CommandData.with_kd_scale 
    CommandData.stop_position CommandData.over_stop_position 
    CommandData.with_stop_position CommandData.bounds_min 
    CommandData.over_bounds_min CommandData.with_bounds_min 
    CommandData.bounds_max CommandData.over_bounds_max 
    CommandData.with_bounds_max CommandData.timeout_s 
    CommandData.over_timeout_s CommandData.with_timeout_s CommandData.pwm 
    CommandData.over_pwm CommandData.with_pwm CommandData.phase_v 
    CommandData.over_phase_v CommandData.with_phase_v CommandData.theta 
    CommandData.over_theta CommandData.with_theta CommandData.voltage 
    CommandData.over_voltage CommandData.with_voltage CommandData.d_V 
    CommandData.over_d_V CommandData.with_d_V CommandData.q_V 
    CommandData.over_q_V CommandData.with_q_V CommandData.i_d_A 
    CommandData.over_i_d_A CommandData.with_i_d_A CommandData.i_q_A 
    CommandData.over_i_q_A CommandData.with_i_q_A CommandData.set_position 
    CommandData.over_set_position CommandData.with_set_position 
    CommandData.rezero_position CommandData.over_rezero_position 
    CommandData.with_rezero_position Control.pwm Control.over_pwm 
    Control.with_pwm Control.voltage Control.over_voltage 
    Control.with_voltage Control.d_V Control.over_d_V Control.with_d_V 
    Control.q_V Control.over_q_V Control.with_q_V Control.i_d_A 
    Control.over_i_d_A Control.with_i_d_A Control.i_q_A Control.over_i_q_A 
    Control.with_i_q_A Control.torque_Nm Control.over_torque_Nm 
    Control.with_torque_Nm Status.mode Status.over_mode Status.with_mode 
    Status.fault Status.over_fault Status.with_fault Status.adc_cur1_raw 
    Status.over_adc_cur1_raw Status.with_adc_cur1_raw Status.adc_cur2_raw 
    Status.over_adc_cur2_raw Status.with_adc_cur2_raw Status.adc_cur3_raw 
    Status.over_adc_cur3_raw Status.with_adc_cur3_raw 
    Status.adc_motor_temp_raw Status.over_adc_motor_temp_raw 
    Status.with_adc_motor_temp_raw Status.adc_voltage_sense_raw 
    Status.over_adc_voltage_sense_raw Status.with_adc_voltage_sense_raw 
    Status.adc_fet_temp_raw Status.over_adc_fet_temp_raw 
    Status.with_adc_fet_temp_raw Status.adc_cur1_offset 
    Status.over_adc_cur1_offset Status.with_adc_cur1_offset 
    Status.adc_cur2_offset Status.over_adc_cur2_offset 
    Status.with_adc_cur2_offset Status.adc_cur3_offset 
    Status.over_adc_cur3_offset Status.with_adc_cur3_offset Status.cur1_A 
    Status.over_cur1_A Status.with_cur1_A Status.cur2_A Status.over_cur2_A 
    Status.with_cur2_A Status.cur3_A Status.over_cur3_A Status.with_cur3_A 
    Status.bus_V Status.over_bus_V Status.with_bus_V Status.filt_bus_V 
    Status.over_filt_bus_V Status.with_filt_bus_V Status.filt_1ms_bus_V 
    Status.over_filt_1ms_bus_V Status.with_filt_1ms_bus_V Status.d_A 
    Status.over_d_A Status.with_d_A Status.q_A Status.over_q_A 
    Status.with_q_A Status.torque_Nm Status.over_torque_Nm 
    Status.with_torque_Nm Status.sin Status.over_sin Status.with_sin 
    Status.cos Status.over_cos Status.with_cos Status.position_raw 
    Status.over_position_raw Status.with_position_raw Status.position 
    Status.over_position Status.with_position Status.electrical_theta 
    Status.over_electrical_theta Status.with_electrical_theta 
    Status.unwrapped_position_raw Status.over_unwrapped_position_raw 
    Status.with_unwrapped_position_raw Status.unwrapped_position 
    Status.over_unwrapped_position Status.with_unwrapped_position 
    Status.velocity Status.over_velocity Status.with_velocity 
    Status.fet_temp_C Status.over_fet_temp_C Status.with_fet_temp_C 
    Status.position_to_set Status.over_position_to_set 
    Status.with_position_to_set Status.rezeroed Status.over_rezeroed 
    Status.with_rezeroed Status.timeout_s Status.over_timeout_s 
    Status.with_timeout_s Status.control_position 
    Status.over_control_position Status.with_control_position Status.pid_d 
    Status.over_pid_d Status.with_pid_d Status.pid_q Status.over_pid_q 
    Status.with_pid_q Status.pid_position Status.over_pid_position 
    Status.with_pid_position Status.final_timer Status.over_final_timer 
    Status.with_final_timer Status.total_timer Status.over_total_timer 
    Status.with_total_timer Motor.poles Motor.invert Motor.resistance_ohm 
    Motor.v_per_hz Motor.unwrapped_position_scale Motor.position_offset 
    Motor.offset Motor.rotation_current_cutoff_A 
    Motor.rotation_current_scale Motor.rotation_torque_scale Config.i_gain 
    Config.v_scale_V Config.pwm_min Config.pwm_min_blend Config.max_voltage 
    Config.fault_temperature Config.derate_temperature 
    Config.derate_current_A Config.max_current_A Config.feedforward_scale 
    Config.velocity_threshold Config.position_derate 
    Config.flux_brake_min_voltage Config.flux_brake_resistance_ohm 
    Config.timeout_max_torque_Nm Config.default_timeout_s 
    Config.velocity_filter_length Config.pid_dq Config.pid_position 
    PositionConfig.position_min PositionConfig.position_max motor_ 
    over_motor_ with_motor_ config_ over_config_ with_config_ 
    position_config_ over_position_config_ with_position_config_ 
    current_data_ over_current_data_ with_current_data_ next_data_ 
    over_next_data_ with_next_data_ telemetry_data_ over_telemetry_data_ 
    with_telemetry_data_ velocity_filter_ over_velocity_filter_ 
    with_velocity_filter_ status_ over_status_ with_status_ control_ 
    over_control_ with_control_ calibrate_adc1_ over_calibrate_adc1_ 
    with_calibrate_adc1_ calibrate_adc2_ over_calibrate_adc2_ 
    with_calibrate_adc2_ calibrate_adc3_ over_calibrate_adc3_ 
    with_calibrate_adc3_ calibrate_count_ over_calibrate_count_ 
    with_calibrate_count_ clock_ over_clock_ with_clock_ startup_count_ 
    over_startup_count_ with_startup_count_ torque_constant_ 
    over_torque_constant_ with_torque_constant_ position_constant_ 
    over_position_constant_ with_position_constant_ adc_scale_ 
    over_adc_scale_ with_adc_scale_ pwm_counts_ over_pwm_counts_ 
    with_pwm_counts_ phase_ over_phase_ with_phase_ pwm1_ccr over_pwm1_ccr 
    with_pwm1_ccr pwm2_ccr over_pwm2_ccr with_pwm2_ccr pwm3_ccr 
    over_pwm3_ccr with_pwm3_ccr motor_driver_enable 
    over_motor_driver_enable with_motor_driver_enable motor_driver_power 
    over_motor_driver_power with_motor_driver_power dac_dhr12r1 
    over_dac_dhr12r1 with_dac_dhr12r1 Vec3.a Vec3.b Vec3.c SinCos.s 
    SinCos.c ApplyOptions.kp_scale ApplyOptions.kd_scale fst snd].

Ltac rcbn_in H :=
  cbn [CommandData.mode CommandData.over_mode CommandData.with_mode 
    CommandData.position CommandData.over_position 
    CommandData.with_position CommandData.velocity 
    CommandData.over_velocity CommandData.with_velocity 
    CommandData.feedforward_Nm CommandData.over_feedforward_Nm 
    CommandData.with_feedforward_Nm CommandData.max_torque_Nm 
    CommandData.over_max_torque_Nm CommandData.with_max_torque_Nm 
    CommandData.kp_scale CommandData.over_kp_scale 
    CommandData.with_kp_scale CommandData.kd_scale 
    CommandData.over_kd_scale CommandData.with_kd_scale 
    CommandData.stop_position CommandData.over_stop_position 
    CommandData.with_stop_position CommandData.bounds_min 
    CommandData.over_bounds_min CommandData.with_bounds_min 
    CommandData.bounds_max CommandData.over_bounds_max 
    CommandData.with_bounds_max CommandData.timeout_s 
    CommandData.over_timeout_s CommandData.with_timeout_s CommandData.pwm 
    CommandData.over_pwm CommandData.with_pwm CommandData.phase_v 
    CommandData.over_phase_v CommandData.with_phase_v CommandData.theta 
    CommandData.over_theta CommandData.with_theta CommandData.voltage 
    CommandData.over_voltage CommandData.with_voltage CommandData.d_V 
    CommandData.over_d_V CommandData.with_d_V CommandData.q_V 
    CommandData.over_q_V CommandData.with_q_V CommandData.i_d_A 
    CommandData.over_i_d_A CommandData.with_i_d_A CommandData.i_q_A 
    CommandData.over_i_q_A CommandData.with_i_q_A CommandData.set_position 
    CommandData.over_set_position CommandData.with_set_position 
    CommandData.rezero_position CommandData.over_rezero_position 
    CommandData.with_rezero_position Control.pwm Control.over_pwm 
    Control.with_pwm Control.voltage Control.over_voltage 
    Control.with_voltage Control.d_V Control.over_d_V Control.with_d_V 
    Control.q_V Control.over_q_V Control.with_q_V Control.i_d_A 
    Control.over_i_d_A Control.with_i_d_A Control.i_q_A Control.over_i_q_A 
    Control.with_i_q_A Control.torque_Nm Control.over_torque_Nm 
    Control.with_torque_Nm Status.mode Status.over_mode Status.with_mode 
    Status.fault Status.over_fault Status.with_fault Status.adc_cur1_raw 
    Status.over_adc_cur1_raw Status.with_adc_cur1_raw Status.adc_cur2_raw 
    Status.over_adc_cur2_raw Status.with_adc_cur2_raw Status.adc_cur3_raw 
    Status.over_adc_cur3_raw Status.with_adc_cur3_raw 
    Status.adc_motor_temp_raw Status.over_adc_motor_temp_raw 
    Status.with_adc_motor_temp_raw Status.adc_voltage_sense_raw 
    Status.over_adc_voltage_sense_raw Status.with_adc_voltage_sense_raw 
    Status.adc_fet_temp_raw Status.over_adc_fet_temp_raw 
    Status.with_adc_fet_temp_raw Status.adc_cur1_offset 
    Status.over_adc_cur1_offset Status.with_adc_cur1_offset 
    Status.adc_cur2_offset Status.over_adc_cur2_offset 
    Status.with_adc_cur2_offset Status.adc_cur3_offset 
    Status.over_adc_cur3_offset Status.with_adc_cur3_offset Status.cur1_A 
    Status.over_cur1_A Status.with_cur1_A Status.cur2_A Status.over_cur2_A 
    Status.with_cur2_A Status.cur3_A Status.over_cur3_A Status.with_cur3_A 
    Status.bus_V Status.over_bus_V Status.with_bus_V Status.filt_bus_V 
    Status.over_filt_bus_V Status.with_filt_bus_V Status.filt_1ms_bus_V 
    Status.over_filt_1ms_bus_V Status.with_filt_1ms_bus_V Status.d_A 
    Status.over_d_A Status.with_d_A Status.q_A Status.over_q_A 
    Status.with_q_A Status.torque_Nm Status.over_torque_Nm 
    Status.with_torque_Nm Status.sin Status.over_sin Status.with_sin 
    Status.cos Status.over_cos Status.with_cos Status.position_raw 
    Status.over_position_raw Status.with_position_raw Status.position 
    Status.over_position Status.with_position Status.electrical_theta 
    Status.over_electrical_theta Status.with_electrical_theta 
    Status.unwrapped_position_raw Status.over_unwrapped_position_raw 
    Status.with_unwrapped_position_raw Status.unwrapped_position 
    Status.over_unwrapped_position Status.with_unwrapped_position 
    Status.velocity Status.over_velocity Status.with_velocity 
    Status.fet_temp_C Status.over_fet_temp_C Status.with_fet_temp_C 
    Status.position_to_set Status.over_position_to_set 
    Status.with_position_to_set Status.rezeroed Status.over_rezeroed 
    Status.with_rezeroed Status.timeout_s Status.over_timeout_s 
    Status.with_timeout_s Status.control_position 
    Status.over_control_position Status.with_control_position Status.pid_d 
    Status.over_pid_d Status.with_pid_d Status.pid_q Status.over_pid_q 
    Status.with_pid_q Status.pid_position Status.over_pid_position 
    Status.with_pid_position Status.final_timer Status.over_final_timer 
    Status.with_final_timer Status.total_timer Status.over_total_timer 
    Status.with_total_timer Motor.poles Motor.invert Motor.resistance_ohm 
    Motor.v_per_hz Motor.unwrapped_position_scale Motor.position_offset 
    Motor.offset Motor.rotation_current_cutoff_A 
    Motor.rotation_current_scale Motor.rotation_torque_scale Config.i_gain 
    Config.v_scale_V Config.pwm_min Config.pwm_min_blend Config.max_voltage 
    Config.fault_temperature Config.derate_temperature 
    Config.derate_current_A Config.max_current_A Config.feedforward_scale 
    Config.velocity_threshold Config.position_derate 
    Config.flux_brake_min_voltage Config.flux_brake_resistance_ohm 
    Config.timeout_max_torque_Nm Config.default_timeout_s 
    Config.velocity_filter_length Config.pid_dq Config.pid_position 
    PositionConfig.position_min PositionConfig.position_max motor_ 
    over_motor_ with_motor_ config_ over_config_ with_config_ 
    position_config_ over_position_config_ with_position_config_ 
    current_data_ over_current_data_ with_current_data_ next_data_ 
    over_next_data_ with_next_data_ telemetry_data_ over_telemetry_data_ 
    with_telemetry_data_ velocity_filter_ over_velocity_filter_ 
    with_velocity_filter_ status_ over_status_ with_status_ control_ 
    over_control_ with_control_ calibrate_adc1_ over_calibrate_adc1_ 
    with_calibrate_adc1_ calibrate_adc2_ over_calibrate_adc2_ 
    with_calibrate_adc2_ calibrate_adc3_ over_calibrate_adc3_ 
    with_calibrate_adc3_ calibrate_count_ over_calibrate_count_ 
    with_calibrate_count_ clock_ over_clock_ with_clock_ startup_count_ 
    over_startup_count_ with_startup_count_ torque_constant_ 
    over_torque_constant_ with_torque_constant_ position_constant_ 
    over_position_constant_ with_position_constant_ adc_scale_ 
    over_adc_scale_ with_adc_scale_ pwm_counts_ over_pwm_counts_ 
    with_pwm_counts_ phase_ over_phase_ with_phase_ pwm1_ccr over_pwm1_ccr 
    with_pwm1_ccr pwm2_ccr over_pwm2_ccr with_pwm2_ccr pwm3_ccr 
    over_pwm3_ccr with_pwm3_ccr motor_driver_enable 
    over_motor_driver_enable with_motor_driver_enable motor_driver_power 
    over_motor_driver_power with_motor_driver_power dac_dhr12r1 
    over_dac_dhr12r1 with_dac_dhr12r1 Vec3.a Vec3.b Vec3.c SinCos.s 
    SinCos.c ApplyOptions.kp_scale ApplyOptions.kd_scale fst snd] in H.

(** One step of the evaluation of a projection of a state: through a
    conditional, or through the definition of a named state. *)
Ltac psimp1 :=
  match goal with
  | |- context [if ?c then ?x else ?x] => rewrite (if_same c x)
  | |- context [match ?o with Some _ => ?x | None => ?x end] =>
      rewrite (opt_same o x)
  | |- context [?p (if ?c then ?x else ?y)] =>
      is_observer p x; rewrite (app_if p c x y)
  | |- context [?p (match ?o with Some a => @?x a | None => ?y end)] =>
      is_observer p y; rewrite (app_opt p o x y)
  | Hw : ?w = _ |- context [?p ?w] =>
      is_var w; is_observer p w; rewrite (f_equal p Hw)
  end.

Ltac psimpl := repeat progress (rcbn; try psimp1).

(** The same, with the facts at hand applied by [tac]. *)
Ltac psimpl_with tac :=
  repeat progress
    (rcbn; cbn [negb andb orb Mode_eqb]; try psimp1; try tac).

Lemma iterate_snoc {S A : Type} (step : A -> S -> S) xs x : forall w,
  iterate step (xs ++ [x]) w = step x (iterate step xs w).
Proof.
  induction xs as [|y xs IH]; intros w; cbn [app iterate];
    [reflexivity | apply IH].
Qed.

(** An invariant of the steps is an invariant of the run. *)
Lemma run_invariant {S Ev : Type} (step : Ev -> S -> option S)
  (ok : Ev -> S -> Prop) (I : S -> Prop) :
  (forall ev w w', I w -> ok ev w -> step ev w = Some w' -> I w') ->
  forall evs w w',
    I w -> always_at step ok evs w -> run step evs w = Some w' -> I w'.
Proof.
  intros Hstep evs. induction evs as [|ev evs IH]; intros w w' Hi Hok Hrun.
  - cbn [run] in Hrun. injection Hrun as <-. exact Hi.
  - cbn [run] in Hrun. cbn [always_at] in Hok. destruct Hok as [Hev Hrest].
    destruct (step ev w) as [w1|] eqn:Hs; [|discriminate].
    apply (IH w1 w'); [eapply Hstep; eassumption | apply Hrest; reflexivity
                      | exact Hrun].
Qed.

(** Inversion of the stages of a timer interrupt: every intermediate
    state gets a name and its defining equation. *)
Ltac inv_eq :=
  let H := fresh "Hw" in
  intros H; injection H as H; symmetry in H.

Ltac inv_sense Hs :=
  revert Hs; cbv beta zeta delta [ISR_DoSense]; seq_intro;
  match goal with
  | |- (if ?c then None else Some _) = Some _ -> _ =>
      let Hassert := fresh "Hassert" in
      destruct c eqn:Hassert; [discriminate|]; inv_eq
  end.

Ltac inv_calc Hc :=
  revert Hc; cbv beta zeta delta [ISR_CalculateCurrentState]; seq_intro;
  match goal with
  | |- match torque_on ?w with Some _ => _ | None => None end = Some _ -> _ =>
      let Hon := fresh "Hon" in
      let on := fresh "on" in
      destruct (torque_on w) as [on|] eqn:Hon; [|discriminate];
      seq_intro; inv_eq
  end.

Ltac inv_control Hd :=
  revert Hd; cbv beta zeta delta [ISR_DoControl]; seq_intro;
  match goal with
  | |- match ?m with Some _ => _ | None => None end = Some _ -> _ =>
      let Hmc := fresh "Hmc" in
      let wm := fresh "wm" in
      destruct m as [wm|] eqn:Hmc; [|discriminate];
      seq_intro_deep; inv_eq
  end.

(** Inversion of a timer interrupt into its stages. *)
Ltac inv_stages H :=
  revert H; cbv beta zeta delta [ISR_DoTimer]; seq_intro;
  match goal with
  | |- (if ?c then Some _ else _) = Some _ -> _ =>
      let Hskip := fresh "Hskip" in
      destruct c eqn:Hskip;
      [ inv_eq
      | match goal with
        | |- match ISR_DoSense ?env ?w with _ => _ end = _ -> _ =>
            let Hs := fresh "Hs" in
            let w1 := fresh "ws" in
            destruct (ISR_DoSense env w) as [w1|] eqn:Hs; [|discriminate];
            match goal with
            | |- context [cordic_ ?q] =>
                let sc := fresh "sin_cos" in
                generalize (cordic_ q); intros sc
            end;
            seq_intro;
            match goal with
            | |- match ISR_CalculateCurrentState ?sc ?w with _ => _ end = _
                 -> _ =>
                let Hc := fresh "Hc" in
                let w2 := fresh "wc" in
                destruct (ISR_CalculateCurrentState sc w) as [w2|] eqn:Hc;
                [|discriminate];
                match goal with
                | |- match ISR_DoControl ?env ?sc ?w with _ => _ end = _
                     -> _ =>
                    let Hd := fresh "Hd" in
                    let w3 := fresh "wd" in
                    destruct (ISR_DoControl env sc w) as [w3|] eqn:Hd;
                    [|discriminate];
                    seq_intro; inv_eq
                end
            end
        end ]
  end.

Ltac inv_timer H :=
  revert H; cbv beta zeta delta [ISR_DoTimer]; seq_intro;
  match goal with
  | |- (if ?c then Some _ else _) = Some _ -> _ =>
      let Hskip := fresh "Hskip" in
      destruct c eqn:Hskip;
      [ inv_eq
      | match goal with
        | |- match ISR_DoSense ?env ?w with _ => _ end = _ -> _ =>
            let Hs := fresh "Hs" in
            let w1 := fresh "ws" in
            destruct (ISR_DoSense env w) as [w1|] eqn:Hs; [|discriminate];
            match goal with
            | |- context [cordic_ ?q] =>
                let sc := fresh "sin_cos" in
                generalize (cordic_ q); intros sc
            end;
            seq_intro;
            match goal with
            | |- match ISR_CalculateCurrentState ?sc ?w with _ => _ end = _
                 -> _ =>
                let Hc := fresh "Hc" in
                let w2 := fresh "wc" in
                destruct (ISR_CalculateCurrentState sc w) as [w2|] eqn:Hc;
                [|discriminate];
                match goal with
                | |- match ISR_DoControl ?env ?sc ?w with _ => _ end = _
                     -> _ =>
                    let Hd := fresh "Hd" in
                    let w3 := fresh "wd" in
                    destruct (ISR_DoControl env sc w) as [w3|] eqn:Hd;
                    [|discriminate];
                    seq_intro; inv_eq;
                    inv_control Hd; inv_calc Hc; inv_sense Hs
                end
            end
        end ]
  end.

(* ================================================================== *)
(** ** The order of single precision floats *)

Lemma compare_key a b :
  match SFcompare a b with
  | Some Lt => F32.isnan a = false /\ F32.isnan b = false
               /\ key_lt (float_key a) (float_key b)
  | Some Eq => F32.isnan a = false /\ F32.isnan b = false
               /\ float_key a = float_key b
  | Some Gt => F32.isnan a = false /\ F32.isnan b = false
               /\ key_lt (float_key b) (float_key a)
  | None => F32.isnan a = true \/ F32.isnan b = true
  end.
Proof.
  unfold key_lt.
  destruct a as [sa | sa | | sa ma ea], b as [sb | sb | | sb mb eb];
    cbn [SFcompare F32.isnan float_key]; auto;
    try (destruct sa); try (destruct sb); cbn [fst snd];
    try (repeat split; first [reflexivity | lia]).
  all: change (Pos.compare_cont Eq ma mb) with (Pos.compare ma mb).
  all: destruct (Z.compare_spec ea eb) as [He | He | He];
    try (repeat split; first [reflexivity | lia]).
  all: destruct (Pos.compare_spec ma mb) as [Hm | Hm | Hm]; cbn [CompOpp];
    subst; repeat split; first [reflexivity | lia].
Qed.

Lemma key_total x y : key_lt x y \/ x = y \/ key_lt y x.
Proof.
  destruct x as [[x1 x2] x3], y as [[y1 y2] y3]. unfold key_lt. cbn [fst snd].
  destruct (Z.lt_total x1 y1) as [H | [H | H]];
    destruct (Z.lt_total x2 y2) as [H' | [H' | H']];
    destruct (Z.lt_total x3 y3) as [H'' | [H'' | H'']]; subst;
    first [left; lia | right; right; lia | right; left; reflexivity].
Qed.

Lemma F32_le_iff a b :
  F32.le a b = true <->
  F32.isnan a = false /\ F32.isnan b = false
  /\ (key_lt (float_key a) (float_key b) \/ float_key a = float_key b).
Proof.
  unfold F32.le, SFleb. pose proof (compare_key a b) as H.
  destruct (SFcompare a b) as [[| |]|].
  - intuition.
  - intuition.
  - split; [discriminate|]. intros (_ & _ & [Hlt | Heq]).
    + exfalso. destruct H as (_ & _ & H). revert H Hlt.
      generalize (float_key a), (float_key b).
      intros [[x1 x2] x3] [[y1 y2] y3]. unfold key_lt. cbn [fst snd]. lia.
    + exfalso. destruct H as (_ & _ & H). rewrite Heq in H. revert H.
      generalize (float_key b). intros [[y1 y2] y3]. unfold key_lt.
      cbn [fst snd]. lia.
  - split; [discriminate|]. intros (Ha & Hb & _).
    destruct H; congruence.
Qed.

Lemma F32_lt_iff a b :
  F32.lt a b = true <->
  F32.isnan a = false /\ F32.isnan b = false
  /\ key_lt (float_key a) (float_key b).
Proof.
  unfold F32.lt, SFltb. pose proof (compare_key a b) as H.
  destruct (SFcompare a b) as [[| |]|].
  - split; [discriminate|]. intros (_ & _ & Hlt). exfalso.
    destruct H as (_ & _ & H). rewrite H in Hlt. revert Hlt.
    generalize (float_key b). intros [[y1 y2] y3]. unfold key_lt.
    cbn [fst snd]. lia.
  - intuition.
  - split; [discriminate|]. intros (_ & _ & Hlt). exfalso.
    destruct H as (_ & _ & H). revert H Hlt.
    generalize (float_key a), (float_key b).
    intros [[x1 x2] x3] [[y1 y2] y3]. unfold key_lt. cbn [fst snd]. lia.
  - split; [discriminate|]. intros (Ha & Hb & _).
    destruct H; congruence.
Qed.

Lemma F32_lt_le a b : F32.lt a b = true -> F32.le a b = true.
Proof.
  intros H. apply F32_lt_iff in H. apply F32_le_iff. intuition.
Qed.

Lemma F32_le_refl a : F32.isnan a = false -> F32.le a a = true.
Proof. intros H. apply F32_le_iff. auto. Qed.

Lemma F32_le_trans a b c :
  F32.le a b = true -> F32.le b c = true -> F32.le a c = true.
Proof.
  intros H1 H2. apply F32_le_iff in H1, H2. apply F32_le_iff.
  destruct H1 as (Ha & Hb & H1), H2 as (_ & Hc & H2).
  split; [exact Ha|]. split; [exact Hc|].
  revert H1 H2. generalize (float_key a), (float_key b), (float_key c).
  intros [[x1 x2] x3] [[y1 y2] y3] [[z1 z2] z3]. unfold key_lt.
  cbn [fst snd].
  intros [H1 | H1] [H2 | H2];
    try (injection H1 as -> -> ->); try (injection H2 as -> -> ->);
    auto; left; lia.
Qed.

Lemma F32_not_lt_le a b :
  F32.isnan a = false -> F32.isnan b = false ->
  F32.lt a b = false -> F32.le b a = true.
Proof.
  intros Ha Hb H. apply F32_le_iff. split; [exact Hb|]. split; [exact Ha|].
  destruct (key_total (float_key a) (float_key b)) as [Hlt | [Heq | Hgt]];
    auto.
  rewrite (proj2 (F32_lt_iff a b)) in H by auto. discriminate H.
Qed.

Lemma F32_le_not_nan a b :
  F32.le a b = true -> F32.isnan a = false /\ F32.isnan b = false.
Proof. intros H. apply F32_le_iff in H. intuition. Qed.

Lemma F32_lt_not_nan a b :
  F32.lt a b = true -> F32.isnan a = false /\ F32.isnan b = false.
Proof. intros H. apply F32_lt_iff in H. intuition. Qed.
(* ================================================================== *)
(** ** What the controllers leave alone *)

Section MaskLemmas.

Context {E : Extern}.

Lemma mask_eq (r w e : Impl) : w = e -> mask w r = mask e r.
Proof. intros ->; reflexivity. Qed.

(** Two states with the same masks agree on every observation that
    does not read a masked field. *)
Lemma observe {A : Type} (p : Impl -> A) :
  (forall x r, p (mask x r) = p x) ->
  forall w w', (forall r, mask w' r = mask w r) -> p w' = p w.
Proof.
  intros Hp w w' H. rewrite <- (Hp w' w), H, Hp. reflexivity.
Qed.

(** The updates of masked fields disappear under the mask. *)
Lemma mask_over_control_ f x r : mask (over_control_ f x) r = mask x r.
Proof. reflexivity. Qed.

Lemma mask_with_pwm1_ccr v x r : mask (with_pwm1_ccr v x) r = mask x r.
Proof. reflexivity. Qed.

Lemma mask_with_pwm2_ccr v x r : mask (with_pwm2_ccr v x) r = mask x r.
Proof. reflexivity. Qed.

Lemma mask_with_pwm3_ccr v x r : mask (with_pwm3_ccr v x) r = mask x r.
Proof. reflexivity. Qed.

Lemma mask_with_motor_driver_power v x r :
  mask (with_motor_driver_power v x) r = mask x r.
Proof. reflexivity. Qed.

Lemma mask_with_pid_d v x r :
  mask (over_status_ (Status.with_pid_d v) x) r = mask x r.
Proof. reflexivity. Qed.

Lemma mask_with_pid_q v x r :
  mask (over_status_ (Status.with_pid_q v) x) r = mask x r.
Proof. reflexivity. Qed.

Lemma mask_with_pid_position v x r :
  mask (over_status_ (Status.with_pid_position v) x) r = mask x r.
Proof. reflexivity. Qed.

Lemma mask_with_control_position v x r :
  mask (over_status_ (Status.with_control_position v) x) r = mask x r.
Proof. reflexivity. Qed.

Lemma mask_clear_position v g x r :
  mask (over_status_
          (fun s => Status.with_control_position v
                      (Status.over_pid_position g s)) x) r
  = mask x r.
Proof. reflexivity. Qed.

Lemma mask_with_position v x r :
  mask (over_current_data_ (CommandData.with_position v) x) r = mask x r.
Proof. reflexivity. Qed.

Lemma mask_with_position_velocity v v' x r :
  mask (over_current_data_
          (fun d => CommandData.with_velocity v'
                      (CommandData.with_position v d)) x) r
  = mask x r.
Proof. reflexivity. Qed.

(** The update of the mode and of the fault commutes with the mask. *)
Lemma mask_with_mode_fault m f x r :
  mask (over_status_
          (fun s => Status.with_fault f (Status.with_mode m s)) x) r
  = over_status_
      (fun s => Status.with_fault f (Status.with_mode m s)) (mask x r).
Proof. reflexivity. Qed.

End MaskLemmas.

Ltac frame_step :=
  match goal with
  | |- context [if ?c then ?x else ?x] => rewrite (if_same c x)
  | |- context [match ?o with Some _ => ?x | None => ?x end] =>
      rewrite (opt_same o x)
  | |- context [mask (if ?c then ?x else ?y) ?r] =>
      rewrite (app_if (fun z => mask z r) c x y); cbv beta
  | H : ?w = _ |- context [mask ?w ?r] =>
      is_var w; rewrite (mask_eq r _ _ H)
  | |- _ =>
      progress rewrite ?mask_over_control_, ?mask_with_pwm1_ccr,
        ?mask_with_pwm2_ccr, ?mask_with_pwm3_ccr,
        ?mask_with_motor_driver_power, ?mask_with_pid_d, ?mask_with_pid_q,
        ?mask_with_pid_position, ?mask_with_control_position,
        ?mask_clear_position, ?mask_with_position,
        ?mask_with_position_velocity, ?mask_with_mode_fault
  | |- (if ?c then _ else _) = (if ?c then _ else _) => destruct c
  end.

Ltac frame := repeat frame_step; try reflexivity.

(** Reads an observation of the result of a controller off its frame
    lemma [L]. *)
Ltac observe_by p L :=
  let Ho := fresh "Ho" in
  pose proof (observe p (fun _ _ => eq_refl) _ _ L) as Ho;
  cbv beta in Ho; rewrite Ho; clear Ho.

Section Frames.

Context {E : Extern}.

Lemma ISR_DoPwmControl_frame pwm w r :
  mask (ISR_DoPwmControl pwm w) r = mask w r.
Proof.
  cbv beta zeta delta [ISR_DoPwmControl]. seq_intro. frame.
Qed.

Lemma ISR_DoVoltageControl_frame voltage w r :
  mask (ISR_DoVoltageControl voltage w) r = mask w r.
Proof.
  cbv beta zeta delta [ISR_DoVoltageControl]. seq_intro.
  rewrite ISR_DoPwmControl_frame. frame.
Qed.

Lemma ISR_DoVoltageFOC_frame theta voltage w r :
  mask (ISR_DoVoltageFOC theta voltage w) r = mask w r.
Proof.
  cbv beta zeta delta [ISR_DoVoltageFOC].
  apply ISR_DoVoltageControl_frame.
Qed.

Lemma ISR_DoVoltageDQ_frame sin_cos d_V q_V w r :
  mask (ISR_DoVoltageDQ sin_cos d_V q_V w) r = mask (not_configured w) r.
Proof.
  cbv beta zeta delta [ISR_DoVoltageDQ not_configured].
  destruct (Motor.poles (motor_ w) =? 0); [reflexivity|].
  seq_intro. rewrite ISR_DoVoltageControl_frame. frame.
Qed.

Lemma ISR_DoCurrent_frame sin_cos i_d_A_in i_q_A_in w r :
  mask (ISR_DoCurrent sin_cos i_d_A_in i_q_A_in w) r
  = mask (not_configured w) r.
Proof.
  cbv beta zeta delta [ISR_DoCurrent]. seq_intro.
  rewrite ISR_DoVoltageDQ_frame. unfold not_configured.
  psimpl. frame.
Qed.

Lemma ISR_DoPositionCommon_frame sin_cos pid_options a b c w r :
  mask (ISR_DoPositionCommon sin_cos pid_options a b c w) r
  = mask (not_configured w) r.
Proof.
  cbv beta zeta delta [ISR_DoPositionCommon]. seq_intro.
  rewrite ISR_DoCurrent_frame. unfold not_configured.
  psimpl. frame.
Qed.

Lemma ISR_DoZeroVelocity_frame sin_cos w r :
  mask (ISR_DoZeroVelocity sin_cos w) r = mask (not_configured w) r.
Proof.
  cbv beta zeta delta [ISR_DoZeroVelocity].
  apply ISR_DoPositionCommon_frame.
Qed.

Lemma ISR_DoPosition_frame sin_cos w r :
  mask (ISR_DoPosition sin_cos w) r = mask (not_configured w) r.
Proof.
  cbv beta zeta delta [ISR_DoPosition].
  apply ISR_DoPositionCommon_frame.
Qed.

Lemma ISR_DoStayWithinBounds_frame sin_cos w r :
  mask (ISR_DoStayWithinBounds sin_cos w) r = mask (not_configured w) r.
Proof.
  cbv beta zeta delta [ISR_DoStayWithinBounds].
  repeat match goal with
  | |- context [match (if ?c then _ else _) with _ => _ end] => destruct c
  end; seq_intro;
    rewrite ?ISR_DoCurrent_frame, ?ISR_DoPositionCommon_frame;
    unfold not_configured; psimpl; frame.
Qed.

Lemma ISR_ClearPid_frame force_clear w r :
  mask (ISR_ClearPid force_clear w) r = mask w r.
Proof.
  cbv beta zeta delta [ISR_ClearPid]. seq_intro.
  repeat first
    [ frame_step
    | match goal with
      | |- context [mask (over_status_ ?f ?x) ?r] =>
          change (mask (over_status_ f x) r) with (mask x r)
      end ].
  reflexivity.
Qed.

End Frames.

(** The frame lemma of a call. *)
Ltac frame_of t :=
  lazymatch t with
  | ISR_ClearPid ?f ?w => constr:(ISR_ClearPid_frame f w)
  | ISR_DoPwmControl ?a ?w => constr:(ISR_DoPwmControl_frame a w)
  | ISR_DoVoltageControl ?a ?w => constr:(ISR_DoVoltageControl_frame a w)
  | ISR_DoVoltageFOC ?a ?b ?w => constr:(ISR_DoVoltageFOC_frame a b w)
  | ISR_DoVoltageDQ ?a ?b ?c ?w => constr:(ISR_DoVoltageDQ_frame a b c w)
  | ISR_DoCurrent ?a ?b ?c ?w => constr:(ISR_DoCurrent_frame a b c w)
  | ISR_DoPosition ?a ?w => constr:(ISR_DoPosition_frame a w)
  | ISR_DoZeroVelocity ?a ?w => constr:(ISR_DoZeroVelocity_frame a w)
  | ISR_DoStayWithinBounds ?a ?w =>
      constr:(ISR_DoStayWithinBounds_frame a w)
  end.

(** Reads an observation of the result of a call off its frame. *)
Ltac observe_call :=
  match goal with
  | |- context [?q (status_ ?t)] =>
      let L := frame_of t in
      observe_by (fun x => q (status_ x)) L
  | |- context [?q (current_data_ ?t)] =>
      let L := frame_of t in
      observe_by (fun x => q (current_data_ x)) L
  | |- context [?p ?t] =>
      let L := frame_of t in
      observe_by p L
  end.


(** Evaluation of the observations of a state through the named
    intermediate states, the frames of the controllers and the output
    stages. *)
Ltac ssimpl_with tac :=
  repeat progress
    (psimpl_with tac; try observe_call;
     cbv beta delta [ISR_DoStopped ISR_DoFault]).

Ltac ssimpl := ssimpl_with idtac.
(* ================================================================== *)
(** ** When a timer interrupt completes *)

Section Defined.

Context {E : Extern}.

Lemma u16_range z : 0 <= Int.u16 z < 65536.
Proof. unfold Int.u16, Int.wrapu. apply Z.mod_pos_bound. lia. Qed.

(** The index into the table of offsets is in range as soon as the
    table is not empty. *)
Lemma offset_index_in_range (p n : Z) :
  0 <= p < 65536 -> 0 < n ->
  negb ((0 <=? Z.quot (p * n) 65536) && (Z.quot (p * n) 65536 <? n)) = false.
Proof.
  intros Hp Hn. rewrite Z.quot_div_nonneg by nia.
  apply negb_false_iff, andb_true_iff. split.
  - apply Z.leb_le, Z.div_pos; nia.
  - apply Z.ltb_lt, Z.div_lt_upper_bound; nia.
Qed.

Lemma ISR_DoSense_defined env w :
  Motor.offset (motor_ w) <> [] ->
  exists w', ISR_DoSense env w = Some w'.
Proof.
  intros Hne. cbv beta zeta delta [ISR_DoSense]. seq_intro.
  match goal with
  | |- exists w', (if ?c then None else Some ?x) = Some w' =>
      assert (Hc : c = false); [|rewrite Hc; exists x; reflexivity]
  end.
  psimpl.
  apply offset_index_in_range; [apply u16_range|].
  destruct (Motor.offset (motor_ w)); [contradiction|].
  cbn [length]. lia.
Qed.

(** The sampler changes the mode only by raising a fault. *)
Lemma ISR_DoSense_mode env w ws :
  ISR_DoSense env w = Some ws ->
  Status.mode (status_ ws) = sampled_mode env w
  /\ Status.fault (status_ ws) = sampled_fault env w.
Proof.
  intros Hs. inv_sense Hs.
  unfold sampled_mode, sampled_fault, sampler_fault, cycle_overrun,
    encoder_jump, delta_position, encoder_position.
  psimpl.
  match goal with
  | |- context [Z.abs ?d >? ?k] => generalize (Z.abs d >? k); intros j
  end.
  destruct (Env.monitor1 env || Env.monitor2 env || Env.monitor3 env);
    destruct (Status.mode (status_ w)); destruct j; split; reflexivity.
Qed.

(** The sampler leaves the request and the configuration alone. *)
Lemma ISR_DoSense_request env w ws :
  ISR_DoSense env w = Some ws ->
  CommandData.mode (current_data_ ws) = CommandData.mode (current_data_ w)
  /\ motor_ ws = motor_ w /\ config_ ws = config_ w.
Proof.
  intros Hs. inv_sense Hs. psimpl. repeat split; reflexivity.
Qed.

Lemma ISR_CalculateCurrentState_defined sin_cos w :
  Status.mode (status_ w) <> kNumModes ->
  exists w', ISR_CalculateCurrentState sin_cos w = Some w'.
Proof.
  intros Hm. cbv beta zeta delta [ISR_CalculateCurrentState]. seq_intro.
  match goal with
  | |- context [torque_on ?x] =>
      assert (Hon : exists on, torque_on x = Some on)
  end.
  { unfold torque_on. psimpl.
    destruct (Status.mode (status_ w)); eauto. contradiction. }
  destruct Hon as [on ->]. seq_intro. eauto.
Qed.

(** The state estimator leaves the mode, the fault and the request
    alone. *)
Lemma ISR_CalculateCurrentState_mode sin_cos w wc :
  ISR_CalculateCurrentState sin_cos w = Some wc ->
  Status.mode (status_ wc) = Status.mode (status_ w)
  /\ Status.fault (status_ wc) = Status.fault (status_ w)
  /\ CommandData.mode (current_data_ wc) = CommandData.mode (current_data_ w)
  /\ motor_ wc = motor_ w /\ config_ wc = config_ w.
Proof.
  intros Hc. inv_calc Hc. psimpl. repeat split; reflexivity.
Qed.

Lemma ISR_DoControl_defined env sin_cos w :
  Status.mode (status_ w) <> kNumModes ->
  command_ok (CommandData.mode (current_data_ w)) = true ->
  exists w', ISR_DoControl env sin_cos w = Some w'.
Proof.
  intros Hm Hok. cbv beta zeta delta [ISR_DoControl]. seq_intro.
  match goal with
  | |- context [match ?o with Some _ => _ | None => None end] =>
      assert (Hmc : exists wm, o = Some wm)
  end.
  { psimpl. unfold ISR_MaybeChangeMode. psimpl.
    destruct (CommandData.mode (current_data_ w));
      try discriminate Hok;
      destruct (Status.mode (status_ w)); try contradiction;
      cbn [Mode_eqb negb orb andb]; eauto;
      match goal with |- context [if ?c then _ else _] => destruct c end;
      eauto. }
  destruct Hmc as [wm ->]. seq_intro. eauto.
Qed.

(** The sampler and the state estimator leave the outputs alone. *)
Lemma ISR_DoSense_outputs env w ws :
  ISR_DoSense env w = Some ws ->
  outputs ws = outputs w /\ motor_driver_enable ws = motor_driver_enable w.
Proof.
  intros Hs. inv_sense Hs. unfold outputs. psimpl. split; reflexivity.
Qed.

Lemma ISR_CalculateCurrentState_outputs sin_cos w wc :
  ISR_CalculateCurrentState sin_cos w = Some wc ->
  outputs wc = outputs w /\ motor_driver_enable wc = motor_driver_enable w.
Proof.
  intros Hc. inv_calc Hc. unfold outputs. psimpl. split; reflexivity.
Qed.

End Defined.
(* ================================================================== *)
(** ** Timer interrupts *)

Section Ticks.

Context {E : Extern}.

(** A skipped interrupt only counts the phase. *)
Lemma skipped_not_due w w0 :
  w0 = (if negb (kInterruptDivisor =? 1)
        then over_phase_
               (fun p => Z.rem (Int.i32 (p + 1)) kInterruptDivisor) w
        else w) ->
  negb (kInterruptDivisor =? 1) && negb (phase_ w0 =? 0) = true ->
  timer_due w = false.
Proof.
  intros -> H. unfold timer_due.
  destruct (kInterruptDivisor =? 1); [discriminate H|].
  cbn [negb andb orb] in *. rcbn_in H.
  apply negb_true_iff in H. exact H.
Qed.

Lemma run_not_skipped w w0 :
  w0 = (if negb (kInterruptDivisor =? 1)
        then over_phase_
               (fun p => Z.rem (Int.i32 (p + 1)) kInterruptDivisor) w
        else w) ->
  negb (kInterruptDivisor =? 1) && negb (phase_ w0 =? 0) = false ->
  timer_due w = true.
Proof.
  intros -> H. unfold timer_due.
  destruct (kInterruptDivisor =? 1); [reflexivity|].
  cbn [negb andb orb] in *. rcbn_in H.
  apply negb_false_iff in H. exact H.
Qed.

(** A timer interrupt runs to its end, without a failed assertion, as
    soon as the table of offsets of the motor is not empty, the mode
    is a mode and the request is one that the mode machine accepts:
    any but [kNumModes], [kFault], [kCalibrating] and
    [kCalibrationComplete]. *)
Theorem timer_interrupt_completes env w :
  Motor.offset (motor_ w) <> [] ->
  Status.mode (status_ w) <> kNumModes ->
  command_ok (CommandData.mode (current_data_ w)) = true ->
  exists w', ISR_DoTimer env w = Some w'.
Proof.
  intros Hoff Hm Hok. cbv beta zeta delta [ISR_DoTimer]. seq_intro.
  match goal with
  | |- exists _, (if ?c then _ else _) = _ => destruct c; [eauto|]
  end.
  assert (Hoff0 : Motor.offset (motor_ w0) <> []) by (psimpl; exact Hoff).
  assert (Hm0 : Status.mode (status_ w0) = Status.mode (status_ w))
    by (psimpl; reflexivity).
  assert (Hc0 : CommandData.mode (current_data_ w0)
                = CommandData.mode (current_data_ w))
    by (psimpl; reflexivity).
  destruct (ISR_DoSense_defined env w0 Hoff0) as [ws Hs]. rewrite Hs.
  destruct (ISR_DoSense_mode _ _ _ Hs) as [Hsm _].
  destruct (ISR_DoSense_request _ _ _ Hs) as (Hsc & _ & _).
  match goal with
  | |- context [cordic_ ?q] => generalize (cordic_ q); intros sin_cos
  end.
  seq_intro.
  assert (Hm1 : Status.mode (status_ w1) <> kNumModes).
  { psimpl. rewrite Hsm. unfold sampled_mode.
    destruct (sampler_fault env w0); [discriminate|]. rewrite Hm0. exact Hm. }
  destruct (ISR_CalculateCurrentState_defined sin_cos w1 Hm1) as [wc Hc].
  rewrite Hc.
  destruct (ISR_CalculateCurrentState_mode _ _ _ Hc) as (Hcm & _ & Hcc & _).
  assert (Hm2 : Status.mode (status_ wc) <> kNumModes)
    by (rewrite Hcm; exact Hm1).
  assert (Hok2 : command_ok (CommandData.mode (current_data_ wc)) = true).
  { rewrite Hcc. psimpl. rewrite Hsc, Hc0. exact Hok. }
  destruct (ISR_DoControl_defined env sin_cos wc Hm2 Hok2) as [wd Hd].
  rewrite Hd. seq_intro. eauto.
Qed.

End Ticks.

(** The stopped servo right after construction completes its
    interrupt. *)
Lemma timer_interrupt_completes_witness :
  exists w', ISR_DoTimer (Reference.env_at 0) Reference.impl0 = Some w'.
Proof.
  apply (timer_interrupt_completes (E := Reference.extern)).
  - vm_compute. discriminate.
  - vm_compute. discriminate.
  - vm_compute. reflexivity.
Defined.
(* ================================================================== *)
(** ** Calibration of the current sense offsets *)

Section Calibration.

Context {E : Extern}.

Lemma calibrating_step s w w' :
  w' = ISR_DoCalibrating (with_raw s w) ->
  0 <= calibrate_count_ w < 255 ->
  calibrate_count_ w' = calibrate_count_ w + 1
  /\ calibrate_adc1_ w' = Int.u32 (calibrate_adc1_ w + chan1 s)
  /\ calibrate_adc2_ w' = Int.u32 (calibrate_adc2_ w + chan2 s)
  /\ calibrate_adc3_ w' = Int.u32 (calibrate_adc3_ w + chan3 s)
  /\ Status.mode (status_ w') = Status.mode (status_ w)
  /\ Status.fault (status_ w') = Status.fault (status_ w)
  /\ offsets w' = offsets w.
Proof.
  intros -> Hc.
  cbv beta zeta delta [ISR_DoCalibrating with_raw]. seq_intro.
  assert (Hn : calibrate_count_ w0 = calibrate_count_ w + 1).
  { psimpl. unfold Int.u16, Int.wrapu. apply Z.mod_small. lia. }
  assert (Hlt : (calibrate_count_ w0 <? kCalibrateCount) = true).
  { rewrite Hn. unfold kCalibrateCount. apply Z.ltb_lt. lia. }
  rewrite Hlt. unfold offsets, chan1, chan2, chan3.
  repeat split; psimpl; try reflexivity.
  unfold Int.u16, Int.wrapu. apply Z.mod_small. lia.
Qed.

Lemma calibrating_last s w w' a1 a2 a3 :
  w' = ISR_DoCalibrating (with_raw s w) ->
  a1 = Int.u16 (Z.quot (Int.u32 (calibrate_adc1_ w + chan1 s)) 256) ->
  a2 = Int.u16 (Z.quot (Int.u32 (calibrate_adc2_ w + chan2 s)) 256) ->
  a3 = Int.u16 (Z.quot (Int.u32 (calibrate_adc3_ w + chan3 s)) 256) ->
  calibrate_count_ w = 255 ->
  if near_midscale a1 && near_midscale a2 && near_midscale a3 then
    Status.mode (status_ w') = kCalibrationComplete
    /\ Status.fault (status_ w') = Status.fault (status_ w)
    /\ offsets w' = (a1, a2, a3)
  else
    Status.mode (status_ w') = kFault
    /\ Status.fault (status_ w') = kCalibrationFault
    /\ offsets w' = offsets w.
Proof.
  intros -> Ha1 Ha2 Ha3 Hc.
  cbv beta zeta delta [ISR_DoCalibrating with_raw]. seq_intro.
  assert (Hn : calibrate_count_ w0 = 256).
  { psimpl. rewrite Hc. reflexivity. }
  assert (H1 : calibrate_adc1_ w0 = Int.u32 (calibrate_adc1_ w + chan1 s))
    by (unfold chan1; psimpl; reflexivity).
  assert (H2 : calibrate_adc2_ w0 = Int.u32 (calibrate_adc2_ w + chan2 s))
    by (unfold chan2; psimpl; reflexivity).
  assert (H3 : calibrate_adc3_ w0 = Int.u32 (calibrate_adc3_ w + chan3 s))
    by (unfold chan3; psimpl; reflexivity).
  rewrite Hn, H1, H2, H3.
  change (256 <? kCalibrateCount) with false. cbv iota.
  unfold kCalibrateCount. rewrite <- Ha1, <- Ha2, <- Ha3.
  unfold near_midscale, offsets.
  assert (Hgt : forall x, (Z.abs (x - 2048) >? 200)
                          = negb (Z.abs (x - 2048) <=? 200)).
  { intros x. rewrite Z.gtb_ltb, Z.leb_antisym, negb_involutive.
    reflexivity. }
  rewrite !Hgt.
  destruct (Z.abs (a1 - 2048) <=? 200), (Z.abs (a2 - 2048) <=? 200),
    (Z.abs (a3 - 2048) <=? 200); cbn [negb orb andb];
    repeat split; psimpl; reflexivity.
Qed.

Lemma total_app f xs ys : total f (xs ++ ys) = total f xs + total f ys.
Proof.
  unfold total. induction xs as [|x xs IH]; cbn [app fold_right]; lia.
Qed.

Lemma total_snoc f xs x : total f (xs ++ [x]) = total f xs + f x.
Proof.
  rewrite total_app. unfold total. cbn [fold_right]. lia.
Qed.

Lemma total_bounds f xs :
  Forall (fun s => 0 <= f s < 65536) xs ->
  0 <= total f xs <= 65535 * Z.of_nat (length xs).
Proof.
  unfold total. induction 1 as [|x xs Hx _ IH];
    cbn [fold_right length]; lia.
Qed.

Lemma calibrate_run_snoc s xs w :
  calibrate_run (xs ++ [s]) w
  = ISR_DoCalibrating (with_raw s (calibrate_run xs w)).
Proof. exact (iterate_snoc _ xs s w). Qed.

(** The state of the accumulation after fewer than 256 readings. *)
Lemma calibrate_run_prefix samples : forall w,
  calibrate_count_ w = 0 ->
  calibrate_adc1_ w = 0 -> calibrate_adc2_ w = 0 -> calibrate_adc3_ w = 0 ->
  Forall raw_ok samples ->
  (length samples < 256)%nat ->
  forall w', w' = calibrate_run samples w ->
  calibrate_count_ w' = Z.of_nat (length samples)
  /\ calibrate_adc1_ w' = total chan1 samples
  /\ calibrate_adc2_ w' = total chan2 samples
  /\ calibrate_adc3_ w' = total chan3 samples
  /\ Status.mode (status_ w') = Status.mode (status_ w)
  /\ Status.fault (status_ w') = Status.fault (status_ w)
  /\ offsets w' = offsets w.
Proof.
  induction samples as [|s samples IH] using rev_ind; intros w Hc H1 H2 H3 Hok Hlen.
  - intros w' ->. change (calibrate_run [] w) with w.
    repeat split; assumption.
  - rewrite length_app in Hlen. cbn [length] in Hlen.
    apply Forall_app in Hok. destruct Hok as [Hok Hs].
    apply Forall_inv in Hs.
    intros w' ->. rewrite calibrate_run_snoc.
    destruct (IH w Hc H1 H2 H3 Hok ltac:(lia) _ eq_refl)
      as (Ic & I1 & I2 & I3 & Im & If & Io).
    destruct (calibrating_step s (calibrate_run samples w) _ eq_refl
                               ltac:(lia))
      as (Sc & S1 & S2 & S3 & Sm & Sf & So).
    destruct Hs as (R1 & R2 & R3).
    pose proof (total_bounds chan1 samples) as B1.
    pose proof (total_bounds chan2 samples) as B2.
    pose proof (total_bounds chan3 samples) as B3.
    assert (F1 : Forall (fun s => 0 <= chan1 s < 65536) samples)
      by (eapply Forall_impl; [|exact Hok]; intros ? (? & ? & ?); assumption).
    assert (F2 : Forall (fun s => 0 <= chan2 s < 65536) samples)
      by (eapply Forall_impl; [|exact Hok]; intros ? (? & ? & ?); assumption).
    assert (F3 : Forall (fun s => 0 <= chan3 s < 65536) samples)
      by (eapply Forall_impl; [|exact Hok]; intros ? (? & ? & ?); assumption).
    specialize (B1 F1). specialize (B2 F2). specialize (B3 F3).
    rewrite Sc, S1, S2, S3, Sm, Sf, So, Ic, I1, I2, I3, Im, If, Io.
    rewrite !total_snoc, length_app. cbn [length].
    unfold Int.u32, Int.wrapu.
    rewrite !Z.mod_small by lia.
    repeat split; try reflexivity; lia.
Qed.

Lemma Forall_firstn {A : Type} (P : A -> Prop) n : forall l,
  Forall P l -> Forall P (firstn n l).
Proof.
  induction n as [|n IH]; intros l H; [constructor|].
  destruct H as [|x l Hx Hl]; cbn [firstn]; constructor; auto.
Qed.

Lemma Forall_chan samples (f : Z * Z * Z -> Z) :
  (forall s, raw_ok s -> 0 <= f s < 65536) ->
  Forall raw_ok samples -> Forall (fun s => 0 <= f s < 65536) samples.
Proof.
  intros Hf H. eapply Forall_impl; [|exact H]. exact Hf.
Qed.

(** C4.  In mode kCalibrating the controller accumulates exactly
    kCalibrateCount = 256 raw samples per current channel and then
    averages each channel: during the first 255 cycles the mode, the
    fault code and the offsets are untouched; on the 256th, if every
    average lies within 200 counts of 2048 the three averages become
    the current offsets and the mode becomes kCalibrationComplete,
    otherwise the mode becomes kFault with fault code
    kCalibrationFault and the offsets are left unchanged. *)
Theorem calibration_averages_256_samples
  (samples : list (Z * Z * Z)) (w w' : Impl) :
  calibrate_count_ w = 0 ->
  calibrate_adc1_ w = 0 -> calibrate_adc2_ w = 0 -> calibrate_adc3_ w = 0 ->
  Forall raw_ok samples ->
  length samples = 256%nat ->
  w' = calibrate_run samples w ->
  (forall n w_n,
      (n < 256)%nat -> w_n = calibrate_run (firstn n samples) w ->
      calibrate_count_ w_n = Z.of_nat n
      /\ Status.mode (status_ w_n) = Status.mode (status_ w)
      /\ Status.fault (status_ w_n) = Status.fault (status_ w)
      /\ offsets w_n = offsets w)
  /\ (if near_midscale (average chan1 samples)
         && near_midscale (average chan2 samples)
         && near_midscale (average chan3 samples)
      then
        Status.mode (status_ w') = kCalibrationComplete
        /\ offsets w'
           = (average chan1 samples, average chan2 samples,
              average chan3 samples)
      else
        Status.mode (status_ w') = kFault
        /\ Status.fault (status_ w') = kCalibrationFault
        /\ offsets w' = offsets w).
Proof.
  intros Hc H1 H2 H3 Hok Hlen ->. split.
  - intros n w_n Hn ->.
    assert (Hl : length (firstn n samples) = n)
      by (rewrite length_firstn; lia).
    destruct (calibrate_run_prefix (firstn n samples) w Hc H1 H2 H3
                (Forall_firstn _ n _ Hok) ltac:(lia) _ eq_refl)
      as (Ic & _ & _ & _ & Im & If & Io).
    rewrite Hl in Ic. repeat split; assumption.
  - destruct (exists_last (l := samples)) as (init & s & ->).
    { intros ->. discriminate Hlen. }
    rewrite length_app in Hlen. cbn [length] in Hlen.
    apply Forall_app in Hok. destruct Hok as [Hok Hs].
    apply Forall_inv in Hs. destruct Hs as (R1 & R2 & R3).
    destruct (calibrate_run_prefix init w Hc H1 H2 H3 Hok ltac:(lia)
                _ eq_refl)
      as (Ic & I1 & I2 & I3 & Im & If & Io).
    pose proof (total_bounds chan1 init
                  (Forall_chan init chan1 ltac:(intros ? (? & ? & ?); assumption) Hok)) as B1.
    pose proof (total_bounds chan2 init
                  (Forall_chan init chan2 ltac:(intros ? (? & ? & ?); assumption) Hok)) as B2.
    pose proof (total_bounds chan3 init
                  (Forall_chan init chan3 ltac:(intros ? (? & ? & ?); assumption) Hok)) as B3.
    assert (Havg : forall f,
               0 <= total f init <= 65535 * Z.of_nat (length init) ->
               0 <= f s < 65536 ->
               Int.u16 (Z.quot (Int.u32 (total f init + f s)) 256)
               = average f (init ++ [s])).
    { intros f B R. unfold average. rewrite total_snoc.
      unfold Int.u32, Int.u16, Int.wrapu.
      rewrite (Z.mod_small (total f init + f s)) by lia.
      rewrite Z.quot_div_nonneg by lia.
      apply Z.mod_small. split.
      - apply Z.div_pos; lia.
      - apply Z.div_lt_upper_bound; lia. }
    rewrite calibrate_run_snoc.
    pose proof (calibrating_last s (calibrate_run init w) _ _ _ _
                  eq_refl eq_refl eq_refl eq_refl ltac:(lia)) as L.
    rewrite I1, I2, I3 in L.
    rewrite !Havg in L by assumption.
    rewrite Io in L. destruct (_ && _).
    + destruct L as (Lm & _ & Lo). split; assumption.
    + exact L.
Qed.

End Calibration.

(** The calibration path of the specification: 256 cycles of raw
    currents (2050, 2045, 2052). *)
Lemma calibration_averages_256_samples_witness :
  Status.mode
    (status_ (calibrate_run (E := Reference.extern)
                Reference.samples0 Reference.calibrating0))
  = kCalibrationComplete
  /\ offsets (calibrate_run (E := Reference.extern)
                Reference.samples0 Reference.calibrating0)
     = (2050, 2045, 2052).
Proof.
  assert (Hok : Forall raw_ok Reference.samples0).
  { apply Forall_forall. intros x Hx.
    apply repeat_spec in Hx. subst x.
    unfold raw_ok, chan1, chan2, chan3. cbn [fst snd]. lia. }
  destruct (calibration_averages_256_samples
              (E := Reference.extern)
              Reference.samples0 Reference.calibrating0 _
              eq_refl eq_refl eq_refl eq_refl Hok eq_refl eq_refl)
    as [_ H].
  assert (Hc : near_midscale (average chan1 Reference.samples0)
               && near_midscale (average chan2 Reference.samples0)
               && near_midscale (average chan3 Reference.samples0)
               = true) by (vm_compute; reflexivity).
  rewrite Hc in H. destruct H as [Hm Ho]. split; [exact Hm|].
  rewrite Ho. vm_compute. reflexivity.
Defined.

(* ================================================================== *)
(** ** The control stage *)

Section ControlStage.

Context {E : Extern}.

Lemma request_cases w wm :
  (if negb (Mode_eqb (CommandData.mode (current_data_ w))
                     (Status.mode (status_ w)))
   then ISR_MaybeChangeMode w else Some w) = Some wm ->
  Request w wm.
Proof.
  unfold ISR_MaybeChangeMode.
  destruct (CommandData.mode (current_data_ w)) eqn:Hc;
    destruct (Status.mode (status_ w)) eqn:Hm;
    cbn [Mode_eqb negb orb andb]; intros H; try discriminate H;
    try match type of H with
        | (if ?c then _ else _) = _ => destruct c eqn:Hout
        end;
    injection H as <-;
    lazymatch goal with
    | |- Request ?x ?x =>
        apply Request_keep; rewrite Hc, Hm; reflexivity
    | |- Request _ (over_status_ (Status.with_mode kStopped) _) =>
        apply Request_stop; exact Hc
    | |- Request _ (ISR_StartCalibrating _) =>
        apply Request_start; rewrite ?Hc; first [exact Hm | reflexivity]
    | |- Request _ (ISR_ClearPid _ _) =>
        rewrite <- Hc; apply Request_enter; rewrite ?Hc, ?Hm;
        first [reflexivity | discriminate | exact Hout]
    | |- Request _ (over_status_ _ _) =>
        apply Request_outside; rewrite ?Hc, ?Hm;
        first [reflexivity | discriminate | exact Hout]
    end.
Qed.

(** The calibration step changes the mode only to end the
    calibration, and leaves the outputs alone. *)
Lemma ISR_DoCalibrating_mode w :
  tail_allowed kCalibrating (Status.mode (status_ (ISR_DoCalibrating w)))
  = true
  \/ Status.mode (status_ (ISR_DoCalibrating w)) = Status.mode (status_ w).
Proof.
  cbv beta zeta delta [ISR_DoCalibrating]. seq_intro. psimpl.
  repeat match goal with
  | |- context [if ?c then _ else _] => destruct c
  end; auto.
Qed.

Lemma request_mode w wm :
  Request w wm ->
  request_allowed (CommandData.mode (current_data_ w))
                  (Status.mode (status_ w)) (Status.mode (status_ wm))
  = true.
Proof.
  intros [H | H | Hm H | Hm _ H _ | Hm H Hne _];
    try observe_call; unfold ISR_StartCalibrating; rcbn; revert H;
    try rewrite Hm; try revert Hm;
    destruct (CommandData.mode (current_data_ w));
    destruct (Status.mode (status_ w));
    cbn; congruence.
Qed.

Lemma dispatch_cases sin_cos w w' :
  w' = match Status.mode (status_ w) with
       | kNumModes | kStopped => ISR_DoStopped w
       | kFault => ISR_DoFault w
       | kEnabling => w
       | kCalibrating => ISR_DoCalibrating w
       | kCalibrationComplete => w
       | kPwm => ISR_DoPwmControl (CommandData.pwm (current_data_ w)) w
       | kVoltage =>
           ISR_DoVoltageControl (CommandData.phase_v (current_data_ w)) w
       | kVoltageFoc =>
           ISR_DoVoltageFOC (CommandData.theta (current_data_ w))
                            (CommandData.voltage (current_data_ w)) w
       | kVoltageDq =>
           ISR_DoVoltageDQ sin_cos (CommandData.d_V (current_data_ w))
                           (CommandData.q_V (current_data_ w)) w
       | kCurrent =>
           ISR_DoCurrent sin_cos (CommandData.i_d_A (current_data_ w))
                         (CommandData.i_q_A (current_data_ w)) w
       | kPosition => ISR_DoPosition sin_cos w
       | kPositionTimeout | kZeroVelocity => ISR_DoZeroVelocity sin_cos w
       | kStayWithinBounds => ISR_DoStayWithinBounds sin_cos w
       end ->
  Dispatch w w'.
Proof.
  intros ->. destruct (Status.mode (status_ w)) eqn:Hm.
  1, 15: apply Dispatch_stopped; rewrite Hm; reflexivity.
  1: apply Dispatch_fault; exact Hm.
  1, 3: apply Dispatch_idle; rewrite Hm; reflexivity.
  1: apply Dispatch_calibrating; exact Hm.
  1-3: apply Dispatch_phase; [rewrite Hm; reflexivity | intros r].
  4-9: apply Dispatch_dq; [rewrite Hm; reflexivity | intros r].
  - apply ISR_DoPwmControl_frame.
  - apply ISR_DoVoltageControl_frame.
  - apply ISR_DoVoltageFOC_frame.
  - apply ISR_DoVoltageDQ_frame.
  - apply ISR_DoCurrent_frame.
  - apply ISR_DoPosition_frame.
  - apply ISR_DoZeroVelocity_frame.
  - apply ISR_DoZeroVelocity_frame.
  - apply ISR_DoStayWithinBounds_frame.
Qed.

End ControlStage.

(** Inversion of the control stage: the prologue, the request, the
    fault checks and the controller of the mode. *)
Ltac control_cases Hd :=
  inv_control Hd;
  match goal with
  | H : _ = Some _ |- _ => apply request_cases in H
  end;
  match goal with
  | H : _ = ?rhs |- _ =>
      lazymatch rhs with context [ISR_DoStopped] => idtac end;
      apply dispatch_cases in H
  end.

(** Case analysis on the conditions that are not comparisons of
    modes. *)
Ltac case_conditions :=
  repeat match goal with
  | |- context [if ?c then _ else _] =>
      lazymatch c with
      | context [Mode_eqb] => fail
      | _ => destruct c
      end
  end.

Section ControlMode.

Context {E : Extern}.

Lemma Mode_eqb_refl m : Mode_eqb m m = true.
Proof. destruct m; reflexivity. Qed.

Lemma Mode_eqb_neq m m' : m <> m' -> Mode_eqb m m' = false.
Proof.
  destruct m, m'; intros H; try reflexivity; contradiction H; reflexivity.
Qed.

Lemma tail_compose mm m5 m6 m' :
  check_allowed mm m5 = true ->
  expiry_allowed m5 m6 = true ->
  dispatch_allowed m6 m' = true ->
  tail_allowed mm m' = true.
Proof.
  destruct mm, m5; intros H1; try discriminate H1;
    destruct m6; intros H2; try discriminate H2;
    destruct m'; intros H3; try discriminate H3; reflexivity.
Qed.

Lemma step_compose cmd m mm m' :
  request_allowed cmd m mm = true ->
  tail_allowed mm m' = true ->
  step_allowed cmd m m' = true.
Proof.
  destruct cmd, m, mm; intros H1; try discriminate H1;
    destruct m'; intros H2; try discriminate H2; reflexivity.
Qed.

(** The mode and the fault after the request, case by case. *)
Lemma request_result w wm :
  Request w wm ->
  let cmd := CommandData.mode (current_data_ w) in
  let m := Status.mode (status_ w) in
  (Mode_eqb cmd m || Mode_eqb cmd kEnabling
   || (active_mode cmd && negb (ready_mode m) && negb (Mode_eqb m kStopped))
   = true
   /\ Status.mode (status_ wm) = m
   /\ Status.fault (status_ wm) = Status.fault (status_ w))
  \/ (cmd = kStopped
      /\ Status.mode (status_ wm) = kStopped
      /\ Status.fault (status_ wm) = Status.fault (status_ w))
  \/ (m = kStopped /\ active_mode cmd = true
      /\ Status.mode (status_ wm) = kEnabling
      /\ Status.fault (status_ wm) = Status.fault (status_ w))
  \/ (ready_mode m = true /\ cmd <> m
      /\ Mode_eqb cmd kPosition || Mode_eqb cmd kStayWithinBounds = true
      /\ ISR_IsOutsideLimits w = true
      /\ Status.mode (status_ wm) = kFault
      /\ Status.fault (status_ wm) = kStartOutsideLimit)
  \/ (ready_mode m = true /\ active_mode cmd = true /\ cmd <> m
      /\ (Mode_eqb cmd kPosition || Mode_eqb cmd kStayWithinBounds)
         && ISR_IsOutsideLimits w = false
      /\ Status.mode (status_ wm) = cmd
      /\ Status.fault (status_ wm) = Status.fault (status_ w)).
Proof.
  intros [Hk | Hs | Hs Ha | Hr Hd Ha Ho | Hr Ha Hd Ho]; cbv zeta.
  - left. repeat split. exact Hk.
  - right; left. rcbn. repeat split. exact Hs.
  - right; right; left. unfold ISR_StartCalibrating. rcbn.
    repeat split; assumption.
  - right; right; right; left. rcbn. repeat split; assumption.
  - right; right; right; right.
    rewrite (observe (fun x => Status.mode (status_ x))
               (fun _ _ => eq_refl) _ _ (ISR_ClearPid_frame _ _)).
    rewrite (observe (fun x => Status.fault (status_ x))
               (fun _ _ => eq_refl) _ _ (ISR_ClearPid_frame _ _)).
    rcbn. repeat split; assumption.
Qed.

(** The mode after the controller of the mode has run. *)
Lemma dispatch_mode w w' :
  Dispatch w w' ->
  dispatch_allowed (Status.mode (status_ w)) (Status.mode (status_ w'))
  = true.
Proof.
  intros Hd. destruct Hd as [H | H | H | H | w'' H Hf | w'' H Hf].
  - unfold ISR_DoStopped. rcbn. unfold dispatch_allowed.
    rewrite Mode_eqb_refl. reflexivity.
  - unfold ISR_DoFault. rcbn. unfold dispatch_allowed.
    rewrite Mode_eqb_refl. reflexivity.
  - unfold dispatch_allowed. rewrite Mode_eqb_refl. reflexivity.
  - destruct (ISR_DoCalibrating_mode w) as [Hc | Hc].
    + rewrite H. revert Hc.
      destruct (Status.mode (status_ (ISR_DoCalibrating w)));
        intros Hc; try discriminate Hc; reflexivity.
    + rewrite Hc. unfold dispatch_allowed. rewrite Mode_eqb_refl.
      reflexivity.
  - rewrite (observe (fun x => Status.mode (status_ x))
               (fun _ _ => eq_refl) _ _ Hf).
    unfold dispatch_allowed. rewrite Mode_eqb_refl. reflexivity.
  - rewrite (observe (fun x => Status.mode (status_ x))
               (fun _ _ => eq_refl) _ _ Hf).
    unfold not_configured. psimpl. case_conditions.
    + revert H. destruct (Status.mode (status_ w)); intros H;
        try discriminate H; reflexivity.
    + unfold dispatch_allowed. rewrite Mode_eqb_refl. reflexivity.
Qed.

(** The transitions of the mode in the control stage. *)
Lemma ISR_DoControl_mode env sin_cos w w' :
  ISR_DoControl env sin_cos w = Some w' ->
  step_allowed (CommandData.mode (current_data_ w))
               (Status.mode (status_ w)) (Status.mode (status_ w'))
  = true.
Proof.
  intros Hd. control_cases Hd.
  apply request_mode in Hmc.
  assert (Hc2 : CommandData.mode (current_data_ w2)
                = CommandData.mode (current_data_ w))
    by (psimpl; reflexivity).
  assert (Hm2 : Status.mode (status_ w2) = Status.mode (status_ w))
    by (psimpl; reflexivity).
  rewrite Hc2, Hm2 in Hmc.
  assert (H5 : check_allowed (Status.mode (status_ wm))
                             (Status.mode (status_ w5)) = true).
  { clear - Hw2 Hw3 Hw4. psimpl. case_conditions;
      destruct (Status.mode (status_ wm)); reflexivity. }
  assert (H6 : expiry_allowed (Status.mode (status_ w5))
                              (Status.mode (status_ w6)) = true).
  { clear - Hw5. psimpl.
    generalize (negb (F32.isnan (Status.timeout_s (status_ w5)))),
      (Status.timeout_s (status_ w5) <= F32.zero)%f32.
    intros b c. destruct (Status.mode (status_ w5)), b, c; reflexivity. }
  assert (H8 : Status.mode (status_ w8) = Status.mode (status_ w6)).
  { clear - Hw6 Hw7. psimpl. observe_call. reflexivity. }
  apply dispatch_mode in Hw8. rewrite H8 in Hw8.
  exact (step_compose _ _ _ _ Hmc (tail_compose _ _ _ _ H5 H6 Hw8)).
Qed.

End ControlMode.
(* ================================================================== *)
(** ** The mode machine *)

Section Modes.

Context {E : Extern}.

Lemma step_after_fault cmd m m' :
  step_allowed cmd kFault m' = true -> step_allowed cmd m m' = true.
Proof.
  destruct cmd, m'; intros H; try discriminate H; destruct m; reflexivity.
Qed.

Lemma step_same cmd m : step_allowed cmd m m = true.
Proof. unfold step_allowed. rewrite Mode_eqb_refl. reflexivity. Qed.

(** The control stage of a timer interrupt that is due, and the
    state in which it starts. *)
Lemma ISR_DoTimer_control env w w' :
  ISR_DoTimer env w = Some w' ->
  timer_due w = true ->
  exists sin_cos wc wd a b,
    ISR_DoControl env sin_cos wc = Some wd
    /\ w' = cycle_end a b wd
    /\ Status.mode (status_ wc) = sampled_mode env w
    /\ Status.fault (status_ wc) = sampled_fault env w
    /\ CommandData.mode (current_data_ wc)
       = CommandData.mode (current_data_ w)
    /\ motor_ wc = motor_ w
    /\ config_ wc = config_ w
    /\ outputs wc = outputs w
    /\ motor_driver_enable wc = motor_driver_enable w.
Proof.
  intros H Hdue. inv_stages H.
  - rewrite (skipped_not_due _ _ Hw Hskip) in Hdue. discriminate Hdue.
  - destruct (ISR_DoSense_mode _ _ _ Hs) as [Hsm Hsf].
    destruct (ISR_DoSense_request _ _ _ Hs) as (Hsc & Hsmo & Hsco).
    destruct (ISR_DoSense_outputs _ _ _ Hs) as (Hso & Hse).
    destruct (ISR_CalculateCurrentState_mode _ _ _ Hc)
      as (Hcm & Hcf & Hcc & Hcmo & Hcco).
    destruct (ISR_CalculateCurrentState_outputs _ _ _ Hc) as (Hco & Hce).
    exists sin_cos, wc, wd. eexists. eexists.
    split; [exact Hd|]. split; [rewrite Hw2, Hw1; reflexivity|].
    rewrite Hcm, Hcf, Hcc, Hcmo, Hcco, Hco, Hce. clear Hd Hc Hw1 Hw2.
    unfold outputs in *.
    psimpl. rewrite Hsm, Hsf, Hsc, Hsmo, Hsco, Hso, Hse.
    unfold sampled_mode, sampled_fault, sampler_fault, cycle_overrun,
      encoder_jump, delta_position, encoder_position.
    psimpl. repeat split; reflexivity.
Qed.

(** What a timer interrupt does to the mode, and that it leaves the
    request in force. *)
Lemma ISR_DoTimer_mode env w w' :
  ISR_DoTimer env w = Some w' ->
  step_allowed (CommandData.mode (current_data_ w))
               (Status.mode (status_ w)) (Status.mode (status_ w'))
  = true.
Proof.
  intros H. inv_stages H.
  - assert (Hm : Status.mode (status_ w') = Status.mode (status_ w))
      by (psimpl; reflexivity).
    rewrite Hm. apply step_same.
  - destruct (ISR_DoSense_mode _ _ _ Hs) as [Hsm _].
    destruct (ISR_DoSense_request _ _ _ Hs) as (Hsc & _ & _).
    destruct (ISR_CalculateCurrentState_mode _ _ _ Hc) as (Hcm & _ & Hcc & _).
    apply ISR_DoControl_mode in Hd.
    assert (Hm : Status.mode (status_ w') = Status.mode (status_ wd))
      by (clear - Hw1 Hw2; psimpl; reflexivity).
    assert (Hm1 : Status.mode (status_ w1) = Status.mode (status_ ws))
      by (clear - Hw0; psimpl; reflexivity).
    assert (Hc1 : CommandData.mode (current_data_ w1)
                  = CommandData.mode (current_data_ ws))
      by (clear - Hw0; psimpl; reflexivity).
    assert (Hm0 : Status.mode (status_ w0) = Status.mode (status_ w))
      by (clear - Hw; psimpl; reflexivity).
    assert (Hc0 : CommandData.mode (current_data_ w0)
                  = CommandData.mode (current_data_ w))
      by (clear - Hw; psimpl; reflexivity).
    rewrite Hm. rewrite Hcc, Hc1, Hsc, Hc0, Hcm, Hm1, Hsm in Hd.
    unfold sampled_mode in Hd.
    destruct (sampler_fault env w0).
    + apply step_after_fault. exact Hd.
    + rewrite Hm0 in Hd. exact Hd.
Qed.



End Modes.

(* ================================================================== *)
(** ** Stops and faults *)

Section Stop.

Context {E : Extern}.

(** The end of the cycle leaves the mode, the fault and the outputs
    alone. *)
Lemma cycle_end_outputs a b w :
  Status.mode (status_ (cycle_end a b w)) = Status.mode (status_ w)
  /\ Status.fault (status_ (cycle_end a b w)) = Status.fault (status_ w)
  /\ (outputs_off (cycle_end a b w) <-> outputs_off w)
  /\ motor_driver_enable (cycle_end a b w) = motor_driver_enable w.
Proof.
  unfold cycle_end, outputs_off. rcbn. repeat split; tauto.
Qed.

(** A requested stop is carried out by the control stage, whatever
    the mode. *)
Lemma ISR_DoControl_stop env sin_cos w w' :
  ISR_DoControl env sin_cos w = Some w' ->
  CommandData.mode (current_data_ w) = kStopped ->
  Status.mode (status_ w') = kStopped
  /\ Status.fault (status_ w') = kSuccess
  /\ outputs_off w'
  /\ motor_driver_enable w' = false.
Proof.
  intros Hd Hstop. control_cases Hd.
  assert (Hc2 : CommandData.mode (current_data_ w2) = kStopped)
    by (psimpl; exact Hstop).
  assert (Hmm : Status.mode (status_ wm) = kStopped).
  { apply request_mode in Hmc. rewrite Hc2 in Hmc. revert Hmc.
    destruct (Status.mode (status_ w2)), (Status.mode (status_ wm));
      intros Hmc; try discriminate Hmc; reflexivity. }
  assert (H8 : Status.mode (status_ w8) = kStopped
               /\ Status.fault (status_ w8) = kSuccess).
  { clear - Hw2 Hw3 Hw4 Hw5 Hw6 Hw7 Hmm.
    split; ssimpl_with ltac:(rewrite ?Hmm); reflexivity. }
  destruct H8 as [H8 H8f].
  destruct Hw8 as [H | H | H | H | w'' H Hf | w'' H Hf];
    try (rewrite H8 in H; discriminate H).
  unfold ISR_DoStopped, outputs_off. rcbn. repeat split; assumption.
Qed.

(** A stop command always stops: the control cycle that finds it
    ends stopped, with the fault cleared, the compare registers at
    zero, and the power stage and the driver off, whatever the mode,
    the fault and the measurements. *)
Theorem stop_command_stops env w w' :
  ISR_DoTimer env w = Some w' ->
  timer_due w = true ->
  CommandData.mode (current_data_ w) = kStopped ->
  Status.mode (status_ w') = kStopped
  /\ Status.fault (status_ w') = kSuccess
  /\ outputs_off w'
  /\ motor_driver_enable w' = false.
Proof.
  intros H Hdue Hstop.
  destruct (ISR_DoTimer_control _ _ _ H Hdue)
    as (sin_cos & wc & wd & a & b & Hd & -> & _ & _ & Hc & _).
  rewrite <- Hc in Hstop.
  destruct (ISR_DoControl_stop _ _ _ _ Hd Hstop) as (Hm & Hf & Ho & He).
  destruct (cycle_end_outputs a b wd) as (Em & Ef & Eo & Ee).
  rewrite Em, Ef, Ee.
  split; [exact Hm|]. split; [exact Hf|]. split; [|exact He].
  apply Eo. exact Ho.
Qed.

(** An interrupt that is not due only counts the phase. *)
Lemma ISR_DoTimer_skipped env w w' :
  ISR_DoTimer env w = Some w' ->
  timer_due w = false ->
  w' = over_phase_ (fun p => Z.rem (Int.i32 (p + 1)) kInterruptDivisor) w.
Proof.
  intros H Hdue. inv_stages H.
  - rewrite Hw0, Hw. unfold timer_due in Hdue.
    destruct (kInterruptDivisor =? 1); [discriminate Hdue | reflexivity].
  - rewrite (run_not_skipped _ _ Hw Hskip) in Hdue. discriminate Hdue.
Qed.

(** In the fault mode the sampler raises no fault. *)
Lemma sampled_in_fault env w :
  Status.mode (status_ w) = kFault ->
  sampled_mode env w = kFault
  /\ sampled_fault env w = Status.fault (status_ w).
Proof.
  intros Hm.
  unfold sampled_mode, sampled_fault, sampler_fault, cycle_overrun,
    encoder_jump.
  rewrite Hm. cbn [Mode_eqb negb andb]. split; reflexivity.
Qed.




(** One event in the timeout mode or in the fault mode. *)
Lemma timeout_step ev w w' :
  exec1 ev w = Some w' ->
  Status.mode (status_ w) = kPositionTimeout
  \/ Status.mode (status_ w) = kFault ->
  match ev with
  | EvTimer _ => CommandData.mode (current_data_ w) <> kStopped
  | _ => True
  end ->
  Status.mode (status_ w') = kPositionTimeout
  \/ Status.mode (status_ w') = kFault.
Proof.
  destruct ev as [env | data |]; cbn [exec1]; intros H Hm Hok.
  - apply ISR_DoTimer_mode in H. revert H Hok.
    destruct Hm as [-> | ->];
      destruct (CommandData.mode (current_data_ w));
      destruct (Status.mode (status_ w')); intros H Hok;
      try discriminate H; auto; contradiction Hok; reflexivity.
  - unfold Command in H.
    destruct (_ || _) in H; [discriminate H|].
    injection H as <-. rcbn. exact Hm.
  - injection H as <-. cbv beta zeta delta [PollMillisecond]. seq_intro.
    psimpl. destruct Hm as [Hm | Hm]; rewrite Hm; cbn [Mode_eqb]; auto.
Qed.

(** The timeout of position control is left only by a stop or by a
    fault: along every sequence of timer interrupts, commands and
    millisecond polls in which no interrupt finds a stop request, a
    servo in [kPositionTimeout] stays there or goes to the fault
    mode, whatever is requested. *)
Theorem position_timeout_is_left_only_by_a_stop evs w w' :
  exec evs w = Some w' ->
  Status.mode (status_ w) = kPositionTimeout ->
  stop_free evs w ->
  Status.mode (status_ w') = kPositionTimeout
  \/ Status.mode (status_ w') = kFault.
Proof.
  intros Hrun Hm Hfree.
  exact (run_invariant exec1
           (fun ev w =>
              match ev with
              | EvTimer _ => CommandData.mode (current_data_ w) <> kStopped
              | _ => True
              end)
           (fun x => Status.mode (status_ x) = kPositionTimeout
                     \/ Status.mode (status_ x) = kFault)
           ltac:(intros ev x x' Hx Hok Hs;
                 exact (timeout_step ev x x' Hs Hx Hok))
           evs w w' (or_introl Hm) Hfree Hrun).
Qed.

End Stop.

(** Position control with a stop requested. *)
Lemma stop_command_stops_witness :
  Status.mode
    (status_ (Reference.tick (Reference.env_at 0) Reference.stopping0))
  = kStopped
  /\ outputs_off (Reference.tick (Reference.env_at 0) Reference.stopping0).
Proof.
  destruct (stop_command_stops (E := Reference.extern)
              (Reference.env_at 0) Reference.stopping0
              (Reference.tick (Reference.env_at 0) Reference.stopping0))
    as (Hm & _ & Ho & _).
  - apply get_defined. vm_compute. reflexivity.
  - vm_compute. reflexivity.
  - vm_compute. reflexivity.
  - split; assumption.
Defined.


(** A timeout, then a request for a voltage and an interrupt. *)
Lemma position_timeout_is_left_only_by_a_stop_witness :
  Status.mode
    (status_
       (Reference.get
          (exec [EvCommand Reference.voltage_command0;
                 EvTimer (Reference.env_at 0)] Reference.timeout0)
          Reference.timeout0))
  = kPositionTimeout.
Proof.
  destruct (position_timeout_is_left_only_by_a_stop (E := Reference.extern)
              [EvCommand Reference.voltage_command0;
               EvTimer (Reference.env_at 0)] Reference.timeout0
              (Reference.get
                 (exec [EvCommand Reference.voltage_command0;
                        EvTimer (Reference.env_at 0)] Reference.timeout0)
                 Reference.timeout0))
    as [Hm | Hm].
  - apply get_defined. vm_compute. reflexivity.
  - vm_compute. reflexivity.
  - unfold stop_free. cbn [always_at]. split; [exact I|].
    intros w1 H1. split; [|intros; exact I].
    rewrite (get_defined (exec1 (EvCommand Reference.voltage_command0)
                                Reference.timeout0) Reference.timeout0)
      in H1 by (vm_compute; reflexivity).
    injection H1 as <-. vm_compute. discriminate.
  - exact Hm.
  - vm_compute in Hm. discriminate Hm.
Defined.
(* ================================================================== *)
(** ** What the control stage leaves alone *)

Section ControlMask.

Context {E : Extern}.

Lemma cm_eq (r w e : Impl) : w = e -> control_mask w r = control_mask e r.
Proof. intros ->; reflexivity. Qed.

Lemma cm_observe {A : Type} (p : Impl -> A) :
  (forall x r, p (control_mask x r) = p x) ->
  forall w w', (forall r, control_mask w' r = control_mask w r) -> p w' = p w.
Proof.
  intros Hp w w' H. rewrite <- (Hp w' w), H, Hp. reflexivity.
Qed.

(** The control mask hides what the mask of the controllers hides. *)
Lemma cm_mask x r' r : control_mask (mask x r') r = control_mask x r.
Proof. reflexivity. Qed.

Lemma cm_of_mask w w' :
  (forall r, mask w' r = mask w r) ->
  forall r, control_mask w' r = control_mask w r.
Proof.
  intros H r. rewrite <- (cm_mask w' w r), H. apply cm_mask.
Qed.

Lemma cm_status f x r :
  (forall s rs, status_mask (f s) rs = status_mask s rs) ->
  control_mask (over_status_ f x) r = control_mask x r.
Proof.
  intros H. destruct x.
  cbv beta iota delta [control_mask over_current_data_ over_status_
    with_calibrate_count_ over_calibrate_count_
    with_calibrate_adc3_ over_calibrate_adc3_
    with_calibrate_adc2_ over_calibrate_adc2_
    with_calibrate_adc1_ over_calibrate_adc1_
    with_motor_driver_enable over_motor_driver_enable
    with_motor_driver_power over_motor_driver_power
    with_pwm3_ccr over_pwm3_ccr with_pwm2_ccr over_pwm2_ccr
    with_pwm1_ccr over_pwm1_ccr with_control_ over_control_
    motor_ config_ position_config_ current_data_ next_data_
    telemetry_data_ velocity_filter_ status_ control_ calibrate_adc1_
    calibrate_adc2_ calibrate_adc3_ calibrate_count_ clock_
    startup_count_ torque_constant_ position_constant_ adc_scale_
    pwm_counts_ phase_ pwm1_ccr pwm2_ccr pwm3_ccr motor_driver_enable
    motor_driver_power dac_dhr12r1].
  rewrite H. reflexivity.
Qed.

Lemma cm_over_control_ f x r :
  control_mask (over_control_ f x) r = control_mask x r.
Proof. reflexivity. Qed.

Lemma cm_with_pwm1_ccr v x r :
  control_mask (with_pwm1_ccr v x) r = control_mask x r.
Proof. reflexivity. Qed.

Lemma cm_with_pwm2_ccr v x r :
  control_mask (with_pwm2_ccr v x) r = control_mask x r.
Proof. reflexivity. Qed.

Lemma cm_with_pwm3_ccr v x r :
  control_mask (with_pwm3_ccr v x) r = control_mask x r.
Proof. reflexivity. Qed.

Lemma cm_with_motor_driver_power v x r :
  control_mask (with_motor_driver_power v x) r = control_mask x r.
Proof. reflexivity. Qed.

Lemma cm_with_motor_driver_enable v x r :
  control_mask (with_motor_driver_enable v x) r = control_mask x r.
Proof. reflexivity. Qed.

Lemma cm_over_calibrate_adc1_ f x r :
  control_mask (over_calibrate_adc1_ f x) r = control_mask x r.
Proof. reflexivity. Qed.

Lemma cm_over_calibrate_adc2_ f x r :
  control_mask (over_calibrate_adc2_ f x) r = control_mask x r.
Proof. reflexivity. Qed.

Lemma cm_over_calibrate_adc3_ f x r :
  control_mask (over_calibrate_adc3_ f x) r = control_mask x r.
Proof. reflexivity. Qed.

Lemma cm_over_calibrate_count_ f x r :
  control_mask (over_calibrate_count_ f x) r = control_mask x r.
Proof. reflexivity. Qed.

Lemma cm_with_set_position v x r :
  control_mask (over_current_data_ (CommandData.with_set_position v) x) r
  = control_mask x r.
Proof. reflexivity. Qed.

End ControlMask.

Ltac cframe_step :=
  match goal with
  | |- context [if ?c then ?x else ?x] => rewrite (if_same c x)
  | |- context [match ?o with Some _ => ?x | None => ?x end] =>
      rewrite (opt_same o x)
  | |- context [control_mask (if ?c then ?x else ?y) ?r] =>
      rewrite (app_if (fun z => control_mask z r) c x y); cbv beta
  | |- context [control_mask (match ?o with Some a => @?x a | None => ?y end)
                             ?r] =>
      rewrite (app_opt (fun z => control_mask z r) o x y); cbv beta
  | H : ?w = _ |- context [control_mask ?w ?r] =>
      is_var w; rewrite (cm_eq r _ _ H)
  | |- _ =>
      progress rewrite ?cm_over_control_, ?cm_with_pwm1_ccr,
        ?cm_with_pwm2_ccr, ?cm_with_pwm3_ccr, ?cm_with_motor_driver_power,
        ?cm_with_motor_driver_enable, ?cm_over_calibrate_adc1_,
        ?cm_over_calibrate_adc2_, ?cm_over_calibrate_adc3_,
        ?cm_over_calibrate_count_, ?cm_with_set_position
  | |- context [control_mask (over_status_ ?f ?x) ?r] =>
      rewrite (cm_status f x r) by (intros; reflexivity)
  | |- context [control_mask (ISR_ClearPid ?f ?x) ?r] =>
      rewrite (cm_of_mask _ _ (ISR_ClearPid_frame f x) r)
  | |- context [match ?o with Some _ => _ | None => _ end] => destruct o
  end.

Ltac cframe := repeat cframe_step; try reflexivity.

Section ControlFrame.

Context {E : Extern}.

Lemma ISR_DoCalibrating_cm w r :
  control_mask (ISR_DoCalibrating w) r = control_mask w r.
Proof.
  cbv beta zeta delta [ISR_DoCalibrating]. seq_intro. cframe.
Qed.

Lemma request_frame w wm :
  Request w wm -> forall r, control_mask wm r = control_mask w r.
Proof.
  intros Hmc r. destruct Hmc; unfold ISR_StartCalibrating; cframe.
Qed.

Lemma ISR_DoControl_cm env sin_cos w w' :
  ISR_DoControl env sin_cos w = Some w' ->
  forall r, control_mask w' r = control_mask w r.
Proof.
  intros Hd r. control_cases Hd.
  assert (H2 : control_mask w2 r = control_mask w r)
    by (clear - Hw Hw0 Hw1; cframe).
  assert (Hm : control_mask wm r = control_mask w2 r)
    by exact (request_frame _ _ Hmc r).
  assert (H8 : control_mask w8 r = control_mask wm r)
    by (clear - Hw2 Hw3 Hw4 Hw5 Hw6 Hw7; cframe).
  rewrite <- H2, <- Hm, <- H8. clear - Hw8.
  destruct Hw8 as [H | H | H | H | w'' H Hf | w'' H Hf];
    unfold ISR_DoStopped, ISR_DoFault; cframe.
  - apply ISR_DoCalibrating_cm.
  - apply cm_of_mask. exact Hf.
  - rewrite (cm_of_mask _ _ Hf r). unfold not_configured. cframe.
Qed.

(** The control stage writes only the control record, the outputs,
    the mode and the fault, the timeout, the raw unwrapped position,
    the calibration, the states of the controllers and the one-shot
    fields of the command: the state is otherwise the one that the
    sampler and the state estimator left, and in particular the
    configuration, the measurements of the cycle and the torque
    estimate are. *)
Theorem control_stage_frame env sin_cos w w' :
  ISR_DoControl env sin_cos w = Some w' ->
  (forall r, control_mask w' r = control_mask w r)
  /\ motor_ w' = motor_ w
  /\ config_ w' = config_ w
  /\ position_config_ w' = position_config_ w
  /\ Status.bus_V (status_ w') = Status.bus_V (status_ w)
  /\ Status.fet_temp_C (status_ w') = Status.fet_temp_C (status_ w)
  /\ Status.position (status_ w') = Status.position (status_ w)
  /\ Status.unwrapped_position (status_ w')
     = Status.unwrapped_position (status_ w)
  /\ Status.velocity (status_ w') = Status.velocity (status_ w)
  /\ Status.d_A (status_ w') = Status.d_A (status_ w)
  /\ Status.q_A (status_ w') = Status.q_A (status_ w)
  /\ Status.torque_Nm (status_ w') = Status.torque_Nm (status_ w).
Proof.
  intros Hd. pose proof (ISR_DoControl_cm _ _ _ _ Hd) as Hf.
  split; [exact Hf|].
  repeat split;
    match goal with
    | |- ?p w' = _ =>
        exact (cm_observe p (fun _ _ => eq_refl) _ _ Hf)
    | |- ?p (status_ w') = _ =>
        exact (cm_observe (fun x => p (status_ x)) (fun _ _ => eq_refl)
                 _ _ Hf)
    end.
Qed.

End ControlFrame.

(** Position control with 40 V on the bus: the fault that the stage
    raises leaves the measured voltage and the configuration alone. *)
Lemma control_stage_frame_witness :
  Status.bus_V
    (status_ (Reference.control Reference.env_driver_fault
                                Reference.overvoltage0))
  = F32.of_Z 40
  /\ config_ (Reference.control Reference.env_driver_fault
                                Reference.overvoltage0)
     = Reference.config0.
Proof.
  destruct (control_stage_frame (E := Reference.extern)
              Reference.env_driver_fault (SinCos.mk F32.zero f1_0)
              Reference.overvoltage0
              (Reference.control Reference.env_driver_fault
                                 Reference.overvoltage0))
    as (_ & _ & Hg & _ & Hb & _).
  - apply get_defined. vm_compute. reflexivity.
  - rewrite Hb, Hg. split; reflexivity.
Defined.
(* ================================================================== *)
(** ** Fault codes *)

Section FaultCodes.

Context {E : Extern}.

Lemma ISR_DoCalibrating_fault w :
  Status.mode (status_ (ISR_DoCalibrating w)) <> kFault ->
  Status.fault (status_ (ISR_DoCalibrating w)) = Status.fault (status_ w).
Proof.
  cbv beta zeta delta [ISR_DoCalibrating]. seq_intro. psimpl.
  case_conditions; intros H; try reflexivity. contradiction.
Qed.

(** The control stage leaves a fault code only in the fault mode. *)
Lemma ISR_DoControl_fault_code env sin_cos w w' :
  ISR_DoControl env sin_cos w = Some w' ->
  Status.mode (status_ w') <> kFault ->
  Status.fault (status_ w') = kSuccess.
Proof.
  intros Hd. control_cases Hd.
  assert (H8 : Status.mode (status_ w8) <> kFault ->
               Status.fault (status_ w8) = kSuccess).
  { clear - Hw7. psimpl.
    destruct (Status.mode (status_ w7)); cbn [Mode_eqb negb];
      intros H; try reflexivity. contradiction. }
  clear - H8 Hw8.
  destruct Hw8 as [H | H | H | H | w'' H Hf | w'' H Hf].
  - unfold ISR_DoStopped. rcbn. exact H8.
  - unfold ISR_DoFault. rcbn. exact H8.
  - exact H8.
  - intros Hm. rewrite (ISR_DoCalibrating_fault _ Hm).
    apply H8. rewrite H. discriminate.
  - rewrite (observe (fun x => Status.mode (status_ x))
               (fun _ _ => eq_refl) _ _ Hf).
    rewrite (observe (fun x => Status.fault (status_ x))
               (fun _ _ => eq_refl) _ _ Hf).
    exact H8.
  - rewrite (observe (fun x => Status.mode (status_ x))
               (fun _ _ => eq_refl) _ _ Hf).
    rewrite (observe (fun x => Status.fault (status_ x))
               (fun _ _ => eq_refl) _ _ Hf).
    unfold not_configured.
    destruct (Motor.poles (motor_ w8) =? 0); rcbn;
      [intros Hm; contradiction | exact H8].
Qed.



(** A control cycle establishes it by itself. *)
Theorem control_cycle_clears_the_fault_code env w w' :
  ISR_DoTimer env w = Some w' ->
  timer_due w = true ->
  Status.mode (status_ w') <> kFault ->
  Status.fault (status_ w') = kSuccess.
Proof.
  intros H Hdue.
  destruct (ISR_DoTimer_control _ _ _ H Hdue)
    as (sin_cos & wc & wd & a & b & Hd & -> & _).
  destruct (cycle_end_outputs a b wd) as (Em & Ef & _).
  rewrite Em, Ef. exact (ISR_DoControl_fault_code _ _ _ _ Hd).
Qed.

Lemma keep_not_refused cmd m (o : bool) :
  Mode_eqb cmd m || Mode_eqb cmd kEnabling
  || (active_mode cmd && negb (ready_mode m) && negb (Mode_eqb m kStopped))
  = true ->
  ready_mode m
  && (Mode_eqb cmd kPosition || Mode_eqb cmd kStayWithinBounds)
  && negb (Mode_eqb cmd m) && o = false.
Proof.
  destruct cmd, m; intros H; try discriminate H; reflexivity.
Qed.

Lemma enter_not_refused (r p n o : bool) :
  p && o = false -> r && p && n && o = false.
Proof. destruct r, p, n, o; intros H; try discriminate H; reflexivity. Qed.

(** The persistent fault checks.  In a mode other than stopped and
    fault, and unless a stop is requested, a driver fault, a bus
    voltage above [max_voltage] or a temperature above
    [fault_temperature] ends the cycle in the fault mode with the
    outputs off.  The code is that of the last check that fires, in
    the order driver, voltage, temperature; only a request for
    position control refused in the same cycle, which has put the
    servo in the fault mode before the checks, keeps its own code. *)
Theorem persistent_fault_checks env sin_cos w w' c :
  ISR_DoControl env sin_cos w = Some w' ->
  Status.mode (status_ w) <> kStopped ->
  Status.mode (status_ w) <> kFault ->
  CommandData.mode (current_data_ w) <> kStopped ->
  persistent_fault env w = Some c ->
  Status.mode (status_ w') = kFault
  /\ Status.fault (status_ w')
     = (if refused w then kStartOutsideLimit else c)
  /\ outputs_off w'.
Proof.
  intros Hd Hns Hnf Hne Hp. control_cases Hd.
  assert (Hc2 : CommandData.mode (current_data_ w2)
                = CommandData.mode (current_data_ w))
    by (psimpl; reflexivity).
  assert (Hm2 : Status.mode (status_ w2) = Status.mode (status_ w))
    by (psimpl; reflexivity).
  assert (Ho2 : ISR_IsOutsideLimits w2 = ISR_IsOutsideLimits w)
    by (unfold ISR_IsOutsideLimits; psimpl; reflexivity).
  assert (Hb : Status.bus_V (status_ wm) = Status.bus_V (status_ w)).
  { rewrite (cm_observe (fun x => Status.bus_V (status_ x))
               (fun _ _ => eq_refl) _ _ (request_frame _ _ Hmc)).
    clear - Hw Hw0 Hw1. psimpl. reflexivity. }
  assert (Ht : Status.fet_temp_C (status_ wm)
               = Status.fet_temp_C (status_ w)).
  { rewrite (cm_observe (fun x => Status.fet_temp_C (status_ x))
               (fun _ _ => eq_refl) _ _ (request_frame _ _ Hmc)).
    clear - Hw Hw0 Hw1. psimpl. reflexivity. }
  assert (Hg : config_ wm = config_ w).
  { rewrite (cm_observe config_ (fun _ _ => eq_refl) _ _
               (request_frame _ _ Hmc)).
    clear - Hw Hw0 Hw1. psimpl. reflexivity. }
  assert (H8 : Status.mode (status_ w8) = kFault
               /\ Status.fault (status_ w8)
                  = (if refused w then kStartOutsideLimit else c)).
  { unfold refused. rewrite <- Hc2, <- Hm2, <- Ho2.
    unfold persistent_fault in Hp. revert Hp.
    rewrite <- Hb, <- Ht, <- Hg. rewrite <- Hm2 in Hns, Hnf.
    rewrite <- Hc2 in Hne.
    apply request_result in Hmc. cbv zeta in Hmc.
    clear - Hmc Hw2 Hw3 Hw4 Hw5 Hw6 Hw7 Hns Hnf Hne.
    destruct Hmc as [(Hk & Hmm & Hmf) | [(Hs & _) | [(Hs & _)
                    | [(Hr & Hd & Ha & Ho & Hmm & Hmf)
                      | (Hr & Ha & Hd & Ho & Hmm & Hmf)]]]];
      [ | contradiction | contradiction | | ].
    - rewrite (keep_not_refused _ _ _ Hk).
      destruct (Status.mode (status_ w2)) eqn:Hm; try contradiction;
        ssimpl_with ltac:(rewrite ?Hmm, ?Hmf); case_conditions; intros Hp;
        try discriminate Hp; injection Hp as <-; split; reflexivity.
    - rewrite Hr, Ha, Ho, (Mode_eqb_neq _ _ Hd). cbn [negb andb].
      intros _. split; ssimpl_with ltac:(rewrite ?Hmm, ?Hmf); reflexivity.
    - rewrite (enter_not_refused _ _ _ _ Ho).
      destruct (CommandData.mode (current_data_ w2)) eqn:Hm;
        try discriminate Ha;
        ssimpl_with ltac:(rewrite ?Hmm, ?Hmf); case_conditions; intros Hp;
        try discriminate Hp; injection Hp as <-; split; reflexivity. }
  destruct H8 as [H8 H8f]. clear - H8 H8f Hw8.
  destruct Hw8 as [H | H | H | H | w'' H Hf | w'' H Hf];
    try (rewrite H8 in H; discriminate H).
  unfold ISR_DoFault, outputs_off. rcbn.
  split; [exact H8|]. split; [exact H8f|]. repeat split.
Qed.

End FaultCodes.

(** A stopped servo asked for position control, after one cycle. *)
Lemma control_cycle_clears_the_fault_code_witness :
  Status.fault
    (status_ (Reference.tick (Reference.env_at 0) Reference.commanded0))
  = kSuccess.
Proof.
  apply (control_cycle_clears_the_fault_code (E := Reference.extern)
           (Reference.env_at 0) Reference.commanded0).
  - apply get_defined. vm_compute. reflexivity.
  - vm_compute. reflexivity.
  - vm_compute. discriminate.
Defined.


(** Position control with 40 V on the bus and a fault of the driver:
    the code is that of the voltage. *)
Lemma persistent_fault_checks_witness :
  Status.mode
    (status_ (Reference.control Reference.env_driver_fault
                                Reference.overvoltage0))
  = kFault
  /\ Status.fault
      (status_ (Reference.control Reference.env_driver_fault
                                  Reference.overvoltage0))
    = kOverVoltage.
Proof.
  destruct (persistent_fault_checks (E := Reference.extern)
              Reference.env_driver_fault (SinCos.mk F32.zero f1_0)
              Reference.overvoltage0
              (Reference.control Reference.env_driver_fault
                                 Reference.overvoltage0)
              kOverVoltage)
    as (Hm & Hf & _).
  - apply get_defined. vm_compute. reflexivity.
  - vm_compute. discriminate.
  - vm_compute. discriminate.
  - vm_compute. discriminate.
  - vm_compute. reflexivity.
  - split; [exact Hm|]. rewrite Hf. vm_compute. reflexivity.
Defined.
(* ================================================================== *)
(** ** The outputs outside of the driving modes *)

Section Outputs.

Context {E : Extern}.

Lemma outputs_off_iff w : outputs_off w <-> outputs w = (0, 0, 0, false).
Proof.
  unfold outputs_off, outputs. split.
  - intros (-> & -> & -> & ->). reflexivity.
  - intros H. injection H as -> -> -> ->. repeat split.
Qed.

Lemma ISR_ClearPid_outputs f w :
  outputs (ISR_ClearPid f w) = outputs w
  /\ motor_driver_enable (ISR_ClearPid f w) = motor_driver_enable w.
Proof.
  cbv beta zeta delta [ISR_ClearPid]. seq_intro. unfold outputs. psimpl.
  split; reflexivity.
Qed.

Lemma ISR_DoCalibrating_outputs w :
  outputs (ISR_DoCalibrating w) = outputs w.
Proof.
  cbv beta zeta delta [ISR_DoCalibrating]. seq_intro. unfold outputs.
  psimpl. reflexivity.
Qed.

Lemma request_outputs w wm :
  Request w wm ->
  outputs wm = (0, 0, 0, false) \/ outputs wm = outputs w.
Proof.
  intros [Hk | Hs | Hs Ha | Hr Hd Ha Ho | Hr Ha Hd Ho].
  - right. reflexivity.
  - right. reflexivity.
  - left. reflexivity.
  - right. reflexivity.
  - right. rewrite (proj1 (ISR_ClearPid_outputs _ _)). reflexivity.
Qed.

(** The modes of the control stage, after the request. *)
Lemma control_tail_modes env wm w3 w4 w5 w6 w7 w8 :
  w3 = (if Env.motor_driver_fault env
        then over_status_
               (fun s => Status.with_fault kMotorDriverFault
                           (Status.with_mode kFault s)) wm
        else wm) ->
  w4 = (if (Status.bus_V (status_ w3) > Config.max_voltage (config_ w3))%f32
        then over_status_
               (fun s => Status.with_fault kOverVoltage
                           (Status.with_mode kFault s)) w3
        else w3) ->
  w5 = (if negb (Mode_eqb (Status.mode (status_ wm)) kStopped)
           && negb (Mode_eqb (Status.mode (status_ wm)) kFault)
        then
          if (Status.fet_temp_C (status_ w4)
              > Config.fault_temperature (config_ w4))%f32
          then over_status_
                 (fun s => Status.with_fault kOverTemperature
                             (Status.with_mode kFault s)) w4
          else w4
        else wm) ->
  w6 = (if (Mode_eqb (Status.mode (status_ w5)) kPosition
            || Mode_eqb (Status.mode (status_ w5)) kStayWithinBounds)
           && negb (F32.isnan (Status.timeout_s (status_ w5)))
           && (Status.timeout_s (status_ w5) <= F32.zero)%f32
        then over_status_ (Status.with_mode kPositionTimeout) w5
        else w5) ->
  w7 = ISR_ClearPid kClearIfMode w6 ->
  w8 = (if negb (Mode_eqb (Status.mode (status_ w7)) kFault)
        then over_status_ (Status.with_fault kSuccess) w7
        else w7) ->
  (exists m6,
     check_allowed (Status.mode (status_ wm)) m6 = true
     /\ expiry_allowed m6 (Status.mode (status_ w8)) = true)
  /\ outputs w8 = outputs wm
  /\ motor_driver_enable w8 = motor_driver_enable wm.
Proof.
  intros Hw2 Hw3 Hw4 Hw5 Hw6 Hw7.
  assert (H5 : check_allowed (Status.mode (status_ wm))
                             (Status.mode (status_ w5)) = true).
  { clear - Hw2 Hw3 Hw4. psimpl. case_conditions;
      destruct (Status.mode (status_ wm)); reflexivity. }
  assert (H6 : expiry_allowed (Status.mode (status_ w5))
                              (Status.mode (status_ w6)) = true).
  { clear - Hw5. psimpl.
    generalize (negb (F32.isnan (Status.timeout_s (status_ w5)))),
      (Status.timeout_s (status_ w5) <= F32.zero)%f32.
    intros b c. destruct (Status.mode (status_ w5)), b, c; reflexivity. }
  assert (H8 : Status.mode (status_ w8) = Status.mode (status_ w6)).
  { clear - Hw6 Hw7. psimpl. observe_call. reflexivity. }
  split; [exists (Status.mode (status_ w5)); rewrite H8; auto|].
  assert (Ho6 : outputs w6 = outputs wm
                /\ motor_driver_enable w6 = motor_driver_enable wm).
  { clear - Hw2 Hw3 Hw4 Hw5. unfold outputs. psimpl. split; reflexivity. }
  destruct Ho6 as [Ho6 He6]. rewrite <- Ho6, <- He6.
  clear - Hw6 Hw7. rewrite <- (proj1 (ISR_ClearPid_outputs kClearIfMode w6)).
  rewrite <- (proj2 (ISR_ClearPid_outputs kClearIfMode w6)).
  rewrite <- Hw6. clear Hw6. unfold outputs. psimpl. split; reflexivity.
Qed.

Lemma quiet_tail mm m6 m8 :
  check_allowed mm m6 = true ->
  expiry_allowed m6 m8 = true ->
  quiet_mode m8 = true ->
  mm = m8.
Proof.
  destruct mm, m6; intros H1; try discriminate H1;
    destruct m8; intros H2; try discriminate H2;
    intros H3; try discriminate H3; reflexivity.
Qed.

(** After the request, a quiet mode other than stopped has its
    outputs off if the quiet modes had before. *)
Lemma request_quiet w wm :
  Request w wm ->
  (quiet_mode (Status.mode (status_ w)) = true -> outputs_off w) ->
  quiet_mode (Status.mode (status_ wm)) = true ->
  Status.mode (status_ wm) <> kStopped ->
  outputs_off wm.
Proof.
  intros Hmc Hi Hq Hns.
  pose proof (request_outputs _ _ Hmc) as Hout.
  apply request_result in Hmc. cbv zeta in Hmc.
  assert (Hw : quiet_mode (Status.mode (status_ w)) = true).
  { destruct Hmc as [(Hk & Hmm & _) | [(Hs & Hmm & _) | [(Hs & _)
                    | [(_ & _ & _ & _ & Hmm & _)
                      | (_ & Ha & _ & _ & Hmm & _)]]]].
    - rewrite <- Hmm. exact Hq.
    - contradiction.
    - rewrite Hs. reflexivity.
    - rewrite Hmm in Hq. discriminate Hq.
    - rewrite Hmm in Hq. revert Ha Hq.
      destruct (CommandData.mode (current_data_ w)); intros Ha Hq;
        try discriminate Ha; discriminate Hq. }
  apply outputs_off_iff. destruct Hout as [Hout | Hout]; [exact Hout|].
  rewrite Hout. apply outputs_off_iff. exact (Hi Hw).
Qed.

(** The control stage keeps the outputs off in the quiet modes. *)
Lemma ISR_DoControl_quiet env sin_cos w w' :
  ISR_DoControl env sin_cos w = Some w' ->
  (quiet_mode (Status.mode (status_ w)) = true -> outputs_off w) ->
  quiet_mode (Status.mode (status_ w')) = true ->
  outputs_off w'.
Proof.
  intros Hd Hi. control_cases Hd.
  destruct (control_tail_modes _ _ _ _ _ _ _ _ Hw2 Hw3 Hw4 Hw5 Hw6 Hw7)
    as ((m6 & H5 & H6) & Ho8 & _).
  assert (Hi2 : quiet_mode (Status.mode (status_ w2)) = true ->
                outputs_off w2).
  { clear - Hw Hw0 Hw1 Hi. unfold outputs_off in *. psimpl. exact Hi. }
  pose proof (request_quiet _ _ Hmc Hi2) as Hwm.
  assert (H8 : quiet_mode (Status.mode (status_ w8)) = true ->
               Status.mode (status_ w8) <> kStopped ->
               outputs_off w8).
  { intros Hq Hns. pose proof (quiet_tail _ _ _ H5 H6 Hq) as Hmm.
    apply outputs_off_iff. rewrite Ho8. apply outputs_off_iff.
    apply Hwm; rewrite Hmm; assumption. }
  clear - H8 Hw8.
  destruct Hw8 as [H | H | H | H | w'' H Hf | w'' H Hf].
  - intros _. unfold ISR_DoStopped, outputs_off. rcbn. repeat split.
  - unfold ISR_DoFault. rcbn. rewrite H. intros Hq. discriminate Hq.
  - intros Hq. apply H8; [exact Hq|].
    intros Hs. rewrite Hs in H. discriminate H.
  - intros Hq. apply outputs_off_iff. rewrite ISR_DoCalibrating_outputs.
    apply outputs_off_iff. apply H8; rewrite H; [reflexivity | discriminate].
  - rewrite (observe (fun x => Status.mode (status_ x))
               (fun _ _ => eq_refl) _ _ Hf).
    revert H. destruct (Status.mode (status_ w8)); intros H Hq;
      try discriminate H; discriminate Hq.
  - rewrite (observe (fun x => Status.mode (status_ x))
               (fun _ _ => eq_refl) _ _ Hf).
    unfold not_configured. psimpl. revert H.
    destruct (Motor.poles (motor_ w8) =? 0);
      destruct (Status.mode (status_ w8)); intros H Hq;
      try discriminate H; discriminate Hq.
Qed.

(** One event and the outputs of the quiet modes. *)
Lemma quiet_step ev w w' :
  exec1 ev w = Some w' ->
  (quiet_mode (Status.mode (status_ w)) = true -> outputs_off w) ->
  quiet_mode (Status.mode (status_ w')) = true ->
  outputs_off w'.
Proof.
  destruct ev as [env | data |]; cbn [exec1]; intros H Hi.
  - destruct (timer_due w) eqn:Hdue.
    + destruct (ISR_DoTimer_control _ _ _ H Hdue)
        as (sin_cos & wc & wd & a & b & Hd & -> & Hcm & _ & _ & _ & _
            & Hco & _).
      destruct (cycle_end_outputs a b wd) as (Em & _ & Eo & _).
      rewrite Em. intros Hq. apply Eo.
      apply (ISR_DoControl_quiet _ _ _ _ Hd); [|exact Hq].
      rewrite Hcm. intros Hqc. apply outputs_off_iff. rewrite Hco.
      apply outputs_off_iff. apply Hi. revert Hqc. unfold sampled_mode.
      destruct (sampler_fault env w); [intros Hqc; discriminate Hqc|].
      exact (fun h => h).
    + rewrite (ISR_DoTimer_skipped _ _ _ H Hdue).
      unfold outputs_off in *. rcbn. exact Hi.
  - unfold Command in H.
    destruct (_ || _) in H; [discriminate H|].
    injection H as <-. unfold outputs_off in *. rcbn. exact Hi.
  - injection H as <-. cbv beta zeta delta [PollMillisecond]. seq_intro.
    unfold outputs_off in *. psimpl. intros Hq. apply Hi. revert Hq.
    destruct (Status.mode (status_ w)); cbn [Mode_eqb]; intros Hq;
      first [reflexivity | exact Hq].
Qed.

(** The motor is not driven while the servo is stopped, enabling or
    calibrating: if the compare registers are zero and the power
    stage is off in these modes to begin with, they are after every
    sequence of timer interrupts, commands and millisecond polls. *)
Theorem outputs_off_in_quiet_modes evs w w' :
  exec evs w = Some w' ->
  (quiet_mode (Status.mode (status_ w)) = true -> outputs_off w) ->
  quiet_mode (Status.mode (status_ w')) = true ->
  outputs_off w'.
Proof.
  intros Hrun Hi.
  exact (run_invariant exec1 (fun _ _ => True)
           (fun x => quiet_mode (Status.mode (status_ x)) = true ->
                     outputs_off x)
           ltac:(intros ev x x' Hx _ Hs; exact (quiet_step ev x x' Hs Hx))
           evs w w' Hi
           ltac:(clear; revert w; induction evs as [|ev evs IH]; intros w;
                 cbn [always_at]; auto)
           Hrun).
Qed.

End Outputs.

(** The start of the calibration: a command, a cycle, a millisecond
    poll and a cycle. *)
Lemma outputs_off_in_quiet_modes_witness :
  outputs_off
    (Reference.get
       (exec [EvCommand Reference.position_command0;
              EvTimer (Reference.env_at 0); EvPollMillisecond;
              EvTimer (Reference.env_at 0)]
             Reference.impl0)
       Reference.impl0).
Proof.
  apply (outputs_off_in_quiet_modes (E := Reference.extern)
           [EvCommand Reference.position_command0;
            EvTimer (Reference.env_at 0); EvPollMillisecond;
            EvTimer (Reference.env_at 0)]
           Reference.impl0).
  - apply get_defined. vm_compute. reflexivity.
  - intros _. vm_compute. repeat split.
  - vm_compute. reflexivity.
Defined.
(* ================================================================== *)
(** ** The sampler and the state estimator *)

Section Sampler.

Context {E : Extern}.

(** The faults of the sampler.  A gate monitor that is high raises
    [kPwmCycleOverrun] in every mode but the fault mode; otherwise an
    encoder that moved by more than [kMaxPositionDelta] raises
    [kEncoderFault], but not in the stopped and fault modes.  The
    sampler changes the mode and the fault in no other way: a fault
    already there is never overwritten. *)
Theorem sampler_faults env w ws :
  ISR_DoSense env w = Some ws ->
  Status.mode (status_ ws) = sampled_mode env w
  /\ Status.fault (status_ ws) = sampled_fault env w
  /\ (Status.mode (status_ w) = kFault ->
      Status.mode (status_ ws) = kFault
      /\ Status.fault (status_ ws) = Status.fault (status_ w)).
Proof.
  intros Hs. destruct (ISR_DoSense_mode _ _ _ Hs) as [Hm Hf].
  split; [exact Hm|]. split; [exact Hf|].
  intros Hk. rewrite Hm, Hf. exact (sampled_in_fault env w Hk).
Qed.





Lemma max_min_range lo hi x :
  lo <= hi -> lo <= Int.max lo (Int.min hi x) <= hi.
Proof.
  intros H. unfold Int.max, Int.min.
  destruct (Z.ltb_spec x hi); destruct (Z.ltb_spec lo x);
    try destruct (Z.ltb_spec lo hi); lia.
Qed.

Lemma thermistor_steps :
  forallb (fun r => F32.le (thermistor_C r) (thermistor_C (r + 1))) readings
  = true.
Proof. vm_compute. reflexivity. Qed.

Lemma thermistor_step r :
  0 <= r < 4095 -> F32.le (thermistor_C r) (thermistor_C (r + 1)) = true.
Proof.
  intros Hr. pose proof thermistor_steps as H.
  rewrite forallb_forall in H. apply H. unfold readings.
  apply in_map_iff. exists (Z.to_nat r). split; [lia|].
  apply in_seq. lia.
Qed.

Lemma thermistor_monotone a b :
  0 <= a -> a <= b -> b < 4096 ->
  F32.le (thermistor_C a) (thermistor_C b) = true.
Proof.
  intros Ha Hab Hb.
  replace b with (a + Z.of_nat (Z.to_nat (b - a))) in * by lia.
  generalize dependent (Z.to_nat (b - a)). intros n. 
  induction n as [|n IH]; intros Hab Hb.
  - rewrite Z.add_0_r. apply F32_le_refl.
    destruct (Z.eq_dec a 4095) as [-> | Hne].
    + exact (proj2 (F32_le_not_nan _ _ (thermistor_step 4094 ltac:(lia)))).
    + exact (proj1 (F32_le_not_nan _ _ (thermistor_step a ltac:(lia)))).
  - apply (F32_le_trans _ (thermistor_C (a + Z.of_nat n))).
    + apply IH; lia.
    + replace (a + Z.of_nat (S n)) with (a + Z.of_nat n + 1) by lia.
      apply thermistor_step. lia.
Qed.

(** The temperature of the sampler is the interpolation of the table
    at the raw reading of the cycle. *)
Lemma ISR_DoSense_temperature env w ws :
  ISR_DoSense env w = Some ws ->
  Status.fet_temp_C (status_ ws)
  = thermistor_C (Status.adc_fet_temp_raw (status_ ws))
  /\ 0 <= Status.adc_fet_temp_raw (status_ ws).
Proof.
  intros Hs. inv_sense Hs. unfold thermistor_C. psimpl.
  split; [reflexivity|].
  destruct (g_measured_hw_rev <=? 4); apply u16_range.
Qed.

(** The temperature of the power stage is monotone in the reading of
    the thermistor: of two samples with 12 bit readings, the one with
    the larger reading has the larger temperature, or the same.  The
    interpolation of the table never goes down, and never yields a
    NaN, between its points or across them. *)
Theorem fet_temperature_is_monotone env1 env2 w1 w2 ws1 ws2 :
  ISR_DoSense env1 w1 = Some ws1 ->
  ISR_DoSense env2 w2 = Some ws2 ->
  Status.adc_fet_temp_raw (status_ ws1)
  <= Status.adc_fet_temp_raw (status_ ws2) ->
  Status.adc_fet_temp_raw (status_ ws2) < 4096 ->
  (Status.fet_temp_C (status_ ws1) <= Status.fet_temp_C (status_ ws2))%f32
  = true.
Proof.
  intros H1 H2 Hle Hlt.
  destruct (ISR_DoSense_temperature _ _ _ H1) as [-> Hr1].
  destruct (ISR_DoSense_temperature _ _ _ H2) as [-> _].
  apply thermistor_monotone; assumption.
Qed.

(** The value written to the debug converter is a 12 bit value,
    between 1024 and 3071, whatever the current. *)
Theorem dac_in_range sin_cos w wc :
  ISR_CalculateCurrentState sin_cos w = Some wc ->
  1024 <= dac_dhr12r1 wc <= 3071.
Proof.
  intros Hc. revert Hc.
  cbv beta zeta delta [ISR_CalculateCurrentState]. seq_intro.
  destruct (torque_on _) as [on|]; [|discriminate]. seq_intro.
  intros H.
  apply (f_equal (fun o => match o with
                           | Some x => dac_dhr12r1 x
                           | None => 0
                           end)) in H.
  cbn [dac_dhr12r1 with_dac_dhr12r1 over_dac_dhr12r1] in H.
  rewrite <- H.
  match goal with
  | |- context [Int.max 0 (Int.min 2047 ?x)] =>
      pose proof (max_min_range 0 2047 x ltac:(lia))
  end.
  lia.
Qed.

(** The torque estimate of the state estimator: zero in the modes
    that do not drive the motor, and the torque of the measured
    q-axis current in the others. *)
Lemma ISR_CalculateCurrentState_torque sin_cos w wc :
  ISR_CalculateCurrentState sin_cos w = Some wc ->
  Status.torque_Nm (status_ wc)
  = (if active_mode (Status.mode (status_ w))
     then (current_to_torque wc (Status.q_A (status_ wc))
           / Motor.unwrapped_position_scale (motor_ wc))%f32
     else F32.zero).
Proof.
  intros Hc. inv_calc Hc.
  assert (Hact : on = active_mode (Status.mode (status_ w))).
  { revert Hon. unfold torque_on. psimpl.
    destruct (Status.mode (status_ w)); intros Hon;
      try discriminate Hon; injection Hon as <-; reflexivity. }
  unfold current_to_torque. psimpl. unfold current_to_torque. psimpl.
  rewrite Hact. reflexivity.
Qed.

(** The stages of a timer interrupt that is due. *)
Lemma ISR_DoTimer_stages env w w' :
  ISR_DoTimer env w = Some w' ->
  timer_due w = true ->
  exists w0 ws sin_cos wc wd a b,
    w0 = (if negb (kInterruptDivisor =? 1)
          then over_phase_
                 (fun p => Z.rem (Int.i32 (p + 1)) kInterruptDivisor) w
          else w)
    /\ ISR_DoSense env w0 = Some ws
    /\ ISR_CalculateCurrentState
         sin_cos
         (over_status_
            (fun s => Status.with_cos (SinCos.c sin_cos)
                        (Status.with_sin (SinCos.s sin_cos) s)) ws)
       = Some wc
    /\ ISR_DoControl env sin_cos wc = Some wd
    /\ w' = cycle_end a b wd.
Proof.
  intros H Hdue. inv_stages H.
  - rewrite (skipped_not_due _ _ Hw Hskip) in Hdue. discriminate Hdue.
  - exists w0, ws, sin_cos, wc, wd. eexists. eexists.
    split; [exact Hw|]. split; [exact Hs|].
    split; [rewrite <- Hw0; exact Hc|]. split; [exact Hd|].
    rewrite Hw2, Hw1. reflexivity.
Qed.

(** The torque estimate of a control cycle is that of the mode in
    which the state estimator finds the servo, the mode before the
    cycle or the fault mode when the sampler has raised a fault: zero
    in the modes that do not drive the motor, and the torque of the
    measured q-axis current in the others, whatever the control
    stage does to the mode afterwards. *)
Theorem torque_estimate_of_sampled_mode env w w' :
  ISR_DoTimer env w = Some w' ->
  timer_due w = true ->
  Status.torque_Nm (status_ w')
  = (if active_mode (sampled_mode env w)
     then (current_to_torque w' (Status.q_A (status_ w'))
           / Motor.unwrapped_position_scale (motor_ w'))%f32
     else F32.zero).
Proof.
  intros H Hdue.
  destruct (ISR_DoTimer_stages _ _ _ H Hdue)
    as (w0 & ws & sin_cos & wc & wd & a & b & Hw0 & Hs & Hc & Hd & ->).
  pose proof (ISR_DoControl_cm _ _ _ _ Hd) as Hf.
  destruct (ISR_DoSense_mode _ _ _ Hs) as [Hsm _].
  pose proof (ISR_CalculateCurrentState_torque _ _ _ Hc) as Ht.
  revert Ht. rcbn. rewrite Hsm.
  assert (Hm0 : sampled_mode env w0 = sampled_mode env w).
  { rewrite Hw0.
    unfold sampled_mode, sampler_fault, cycle_overrun, encoder_jump,
      delta_position, encoder_position.
    psimpl. reflexivity. }
  rewrite Hm0. intros Ht.
  unfold cycle_end, current_to_torque. rcbn.
  rewrite (cm_observe (fun x => Status.torque_Nm (status_ x))
             (fun _ _ => eq_refl) _ _ Hf).
  rewrite (cm_observe (fun x => Status.q_A (status_ x))
             (fun _ _ => eq_refl) _ _ Hf).
  rewrite (cm_observe motor_ (fun _ _ => eq_refl) _ _ Hf).
  rewrite (cm_observe torque_constant_ (fun _ _ => eq_refl) _ _ Hf).
  exact Ht.
Qed.

End Sampler.

(** Position control and a gate monitor that is high: the sampler
    raises a fault, and the torque estimate of the cycle is zero. *)
Lemma torque_estimate_of_sampled_mode_witness :
  Status.torque_Nm
    (status_ (Reference.tick Reference.env_overrun Reference.running0))
  = F32.zero.
Proof.
  rewrite (torque_estimate_of_sampled_mode (E := Reference.extern)
             Reference.env_overrun Reference.running0
             (Reference.tick Reference.env_overrun Reference.running0)).
  - vm_compute. reflexivity.
  - apply get_defined. vm_compute. reflexivity.
  - vm_compute. reflexivity.
Defined.

(** Two samples of the same servo, with 1000 and 3000 counts on the
    thermistor. *)
Lemma fet_temperature_is_monotone_witness :
  (Status.fet_temp_C
     (status_ (Reference.get (ISR_DoSense (Reference.env_at 0)
                                          Reference.impl0)
                             Reference.impl0))
   <= Status.fet_temp_C
        (status_ (Reference.get (ISR_DoSense Reference.env_hot
                                             Reference.impl0)
                                Reference.impl0)))%f32
  = true.
Proof.
  apply (fet_temperature_is_monotone (E := Reference.extern)
           (Reference.env_at 0) Reference.env_hot
           Reference.impl0 Reference.impl0).
  - apply get_defined. vm_compute. reflexivity.
  - apply get_defined. vm_compute. reflexivity.
  - vm_compute. discriminate.
  - vm_compute. reflexivity.
Defined.


Lemma sampler_faults_witness :
  Status.mode
    (status_ (Reference.get (ISR_DoSense Reference.env_overrun
                                         Reference.running0)
                            Reference.running0))
  = kFault
  /\ Status.fault
       (status_ (Reference.get (ISR_DoSense Reference.env_overrun
                                            Reference.running0)
                               Reference.running0))
     = kPwmCycleOverrun.
Proof.
  destruct (sampler_faults (E := Reference.extern)
              Reference.env_overrun Reference.running0
              (Reference.get (ISR_DoSense Reference.env_overrun
                                          Reference.running0)
                             Reference.running0))
    as (Hm & Hf & _).
  - apply get_defined. vm_compute. reflexivity.
  - rewrite Hm, Hf. split; vm_compute; reflexivity.
Defined.

Lemma dac_in_range_witness :
  1024 <= dac_dhr12r1
            (Reference.get
               (ISR_CalculateCurrentState (SinCos.mk F32.zero f1_0)
                                          Reference.impl0)
               Reference.impl0) <= 3071.
Proof.
  apply (dac_in_range (E := Reference.extern) (SinCos.mk F32.zero f1_0)
           Reference.impl0).
  apply get_defined. vm_compute. reflexivity.
Defined.
(* ================================================================== *)
(** ** The controllers *)

Section Controllers.

Context {E : Extern}.

Lemma not_configured_outputs w w' :
  (forall r, mask w' r = mask (not_configured w) r) ->
  Motor.poles (motor_ w) = 0 ->
  Status.mode (status_ w') = kFault
  /\ Status.fault (status_ w') = kMotorNotConfigured.
Proof.
  intros Hf Hp.
  rewrite (observe (fun x => Status.mode (status_ x))
             (fun _ _ => eq_refl) _ _ Hf).
  rewrite (observe (fun x => Status.fault (status_ x))
             (fun _ _ => eq_refl) _ _ Hf).
  unfold not_configured. rewrite Hp. split; reflexivity.
Qed.

Lemma ISR_DoVoltageDQ_unconfigured sin_cos d q w :
  Motor.poles (motor_ w) = 0 ->
  outputs (ISR_DoVoltageDQ sin_cos d q w) = outputs w.
Proof.
  intros Hp. unfold ISR_DoVoltageDQ. rewrite Hp. reflexivity.
Qed.

Lemma ISR_DoCurrent_unconfigured sin_cos d q w :
  Motor.poles (motor_ w) = 0 ->
  outputs (ISR_DoCurrent sin_cos d q w) = outputs w.
Proof.
  intros Hp. cbv beta zeta delta [ISR_DoCurrent]. seq_intro.
  rewrite ISR_DoVoltageDQ_unconfigured by (psimpl; exact Hp).
  unfold outputs. psimpl. reflexivity.
Qed.

Lemma ISR_DoPositionCommon_unconfigured sin_cos o a b c w :
  Motor.poles (motor_ w) = 0 ->
  outputs (ISR_DoPositionCommon sin_cos o a b c w) = outputs w.
Proof.
  intros Hp. cbv beta zeta delta [ISR_DoPositionCommon]. seq_intro.
  rewrite ISR_DoCurrent_unconfigured by (psimpl; exact Hp).
  unfold outputs. psimpl. reflexivity.
Qed.

Lemma ISR_DoStayWithinBounds_unconfigured sin_cos w :
  Motor.poles (motor_ w) = 0 ->
  outputs (ISR_DoStayWithinBounds sin_cos w) = outputs w.
Proof.
  intros Hp. cbv beta zeta delta [ISR_DoStayWithinBounds].
  repeat match goal with
  | |- context [match (if ?c then _ else _) with _ => _ end] => destruct c
  end; seq_intro;
    rewrite ?ISR_DoCurrent_unconfigured, ?ISR_DoPositionCommon_unconfigured
      by (psimpl; exact Hp);
    unfold outputs; psimpl; reflexivity.
Qed.
(** A motor that is not configured is not driven.  With no poles in
    the configuration of the motor, the d/q voltage stage and every
    controller above it, the current controller and the three position
    controllers, raise [kMotorNotConfigured] and leave the compare
    registers and the power stage as they are, whatever is asked. *)
Theorem unconfigured_motor_is_not_driven sin_cos w :
  Motor.poles (motor_ w) = 0 ->
  (forall d q, refuses_to_drive w (ISR_DoVoltageDQ sin_cos d q w))
  /\ (forall d q, refuses_to_drive w (ISR_DoCurrent sin_cos d q w))
  /\ refuses_to_drive w (ISR_DoPosition sin_cos w)
  /\ refuses_to_drive w (ISR_DoZeroVelocity sin_cos w)
  /\ refuses_to_drive w (ISR_DoStayWithinBounds sin_cos w).
Proof.
  intros Hp. unfold refuses_to_drive.
  split; [intros d q|split; [intros d q|split; [|split]]].
  - destruct (not_configured_outputs w _ (ISR_DoVoltageDQ_frame sin_cos d q w) Hp).
    split; [assumption|]. split; [assumption|]. apply ISR_DoVoltageDQ_unconfigured, Hp.
  - destruct (not_configured_outputs w _ (ISR_DoCurrent_frame sin_cos d q w) Hp).
    split; [assumption|]. split; [assumption|]. apply ISR_DoCurrent_unconfigured, Hp.
  - destruct (not_configured_outputs w _ (ISR_DoPosition_frame sin_cos w) Hp).
    split; [assumption|]. split; [assumption|].
    cbv beta zeta delta [ISR_DoPosition].
    apply ISR_DoPositionCommon_unconfigured, Hp.
  - destruct (not_configured_outputs w _
                (ISR_DoZeroVelocity_frame sin_cos w) Hp).
    split; [assumption|]. split; [assumption|].
    cbv beta zeta delta [ISR_DoZeroVelocity].
    apply ISR_DoPositionCommon_unconfigured, Hp.
  - destruct (not_configured_outputs w _
                (ISR_DoStayWithinBounds_frame sin_cos w) Hp).
    split; [assumption|]. split; [assumption|].
    apply ISR_DoStayWithinBounds_unconfigured, Hp.
Qed.

Lemma F32_max_zero e :
  F32.le F32.zero (F32.max F32.zero e) = true.
Proof.
  unfold F32.max. destruct (F32.lt F32.zero e) eqn:H.
  - apply F32_lt_le. exact H.
  - reflexivity.
Qed.

(** The thermal limit of the current is a current between zero and
    [max_current_A], whatever the temperatures are, configured or
    measured, even NaN: a [max_current_A] that is zero or more is all
    that it takes. *)
Theorem thermal_limit_in_range w :
  F32.le F32.zero (Config.max_current_A (config_ w)) = true ->
  F32.le F32.zero (temp_limit_A w) = true
  /\ F32.le (temp_limit_A w) (Config.max_current_A (config_ w)) = true.
Proof.
  intros Hmax. unfold temp_limit_A.
  match goal with
  | |- context [F32.max F32.zero ?e] =>
      pose proof (F32_max_zero e) as Hb; revert Hb;
      generalize (F32.max F32.zero e)
  end.
  intros b Hb. unfold F32.min.
  destruct (F32.lt b (Config.max_current_A (config_ w))) eqn:H.
  - split; [exact Hb | apply F32_lt_le; exact H].
  - split; [exact Hmax|]. apply F32_le_refl.
    exact (proj2 (F32_le_not_nan _ _ Hmax)).
Qed.

(** A phase voltage of zero is a duty cycle of one half, whatever the
    minimum duty and its blend are, as soon as the filtered bus
    voltage is a number other than zero. *)
Theorem zero_voltage_is_half_duty w :
  F32.isnan (Status.filt_bus_V (status_ w)) = false ->
  (Status.filt_bus_V (status_ w) == F32.zero)%f32 = false ->
  ISR_VoltageToPwm w F32.zero = f0_5.
Proof.
  intros Hn Hz. unfold ISR_VoltageToPwm.
  assert (Hd : exists s, (F32.zero / Status.filt_bus_V (status_ w))%f32
                         = S754_zero s).
  { revert Hn Hz. destruct (Status.filt_bus_V (status_ w)) as [s|s| |s m e];
      intros Hn Hz; try discriminate; eexists; reflexivity. }
  destruct Hd as [s ->]. unfold Offset.
  destruct s; vm_compute; reflexivity.
Qed.

End Controllers.

(** The servo of the reference, with its 14 poles taken away. *)
Lemma unconfigured_motor_is_not_driven_witness :
  refuses_to_drive Reference.unconfigured0
    (ISR_DoPosition (SinCos.mk F32.zero f1_0) Reference.unconfigured0).
Proof.
  destruct (unconfigured_motor_is_not_driven (E := Reference.extern)
              (SinCos.mk F32.zero f1_0) Reference.unconfigured0)
    as (_ & _ & H & _).
  - vm_compute. reflexivity.
  - exact H.
Defined.

(** The configuration of the reference, with 100 A at most, at 60
    degrees. *)
Lemma thermal_limit_in_range_witness :
  F32.le F32.zero (temp_limit_A Reference.warm0) = true
  /\ F32.le (temp_limit_A Reference.warm0)
            (Config.max_current_A (config_ Reference.warm0)) = true.
Proof.
  apply (thermal_limit_in_range (E := Reference.extern) Reference.warm0).
  vm_compute. reflexivity.
Defined.

(** The servo of the reference with 24 V on the bus. *)
Lemma zero_voltage_is_half_duty_witness :
  ISR_VoltageToPwm Reference.powered0 F32.zero = f0_5.
Proof.
  apply (zero_voltage_is_half_duty (E := Reference.extern)
           Reference.powered0).
  - vm_compute. reflexivity.
  - vm_compute. reflexivity.
Defined.
(* ================================================================== *)
(** ** The main context *)

Section MainContext.

Context {E : Extern}.



(** [PollMillisecond] moves the servo from the start of the
    calibration into the calibration, with the driver enabled; in
    every other mode it only counts the milliseconds since the
    start. *)
Theorem poll_starts_the_calibration w :
  Status.mode (status_ (PollMillisecond w))
  = (if Mode_eqb (Status.mode (status_ w)) kEnabling
     then kCalibrating else Status.mode (status_ w))
  /\ motor_driver_enable (PollMillisecond w)
     = (Mode_eqb (Status.mode (status_ w)) kEnabling
        || motor_driver_enable w)
  /\ outputs (PollMillisecond w) = outputs w
  /\ startup_count_ (PollMillisecond w) = Int.u32 (startup_count_ w + 1).
Proof.
  cbv beta zeta delta [PollMillisecond]. seq_intro. unfold outputs. psimpl.
  destruct (Mode_eqb (Status.mode (status_ w)) kEnabling); auto.
Qed.

End MainContext.

(* ================================================================== *)
(** ** The start of the calibration and the position to set *)

Section Start.

Context {E : Extern}.

Lemma request_start w wm :
  Request w wm ->
  Status.mode (status_ w) = kStopped ->
  active_mode (CommandData.mode (current_data_ w)) = true ->
  Status.mode (status_ wm) = kEnabling
  /\ Status.fault (status_ wm) = Status.fault (status_ w)
  /\ outputs wm = (0, 0, 0, false)
  /\ motor_driver_enable wm = motor_driver_enable w
  /\ calibrate_adc1_ wm = 0 /\ calibrate_adc2_ wm = 0
  /\ calibrate_adc3_ wm = 0 /\ calibrate_count_ wm = 0.
Proof.
  intros [Hk | Hs | Hs Ha | Hr Hd Ha Ho | Hr Ha Hd Ho] Hm Hact.
  - exfalso. rewrite Hm in Hk. revert Hk Hact.
    destruct (CommandData.mode (current_data_ w)); discriminate.
  - rewrite Hs in Hact. discriminate Hact.
  - unfold ISR_StartCalibrating, outputs. rcbn.
    split; [reflexivity|]. split; [reflexivity|]. split; [reflexivity|].
    split; [reflexivity|]. split; [reflexivity|]. split; [reflexivity|].
    split; reflexivity.
  - rewrite Hm in Hr. discriminate Hr.
  - rewrite Hm in Hr. discriminate Hr.
Qed.

(** The calibration starts from scratch.  The control stage that
    finds a stopped servo asked for a controller, and no persistent
    fault, leaves it in [kEnabling] with the outputs off and the sums
    and the count of the calibration at zero: the state that the
    calibration needs to average its 256 samples. *)
Theorem calibration_starts_from_scratch env sin_cos w w' :
  ISR_DoControl env sin_cos w = Some w' ->
  Status.mode (status_ w) = kStopped ->
  active_mode (CommandData.mode (current_data_ w)) = true ->
  persistent_fault env w = None ->
  Status.mode (status_ w') = kEnabling
  /\ Status.fault (status_ w') = kSuccess
  /\ outputs_off w'
  /\ calibrate_adc1_ w' = 0 /\ calibrate_adc2_ w' = 0
  /\ calibrate_adc3_ w' = 0 /\ calibrate_count_ w' = 0.
Proof.
  intros Hd Hm Hact Hp. control_cases Hd.
  assert (Hc2 : CommandData.mode (current_data_ w2)
                = CommandData.mode (current_data_ w))
    by (psimpl; reflexivity).
  assert (Hm2 : Status.mode (status_ w2) = Status.mode (status_ w))
    by (psimpl; reflexivity).
  rewrite <- Hm2 in Hm. rewrite <- Hc2 in Hact.
  assert (Hb : Status.bus_V (status_ wm) = Status.bus_V (status_ w)).
  { rewrite (cm_observe (fun x => Status.bus_V (status_ x))
               (fun _ _ => eq_refl) _ _ (request_frame _ _ Hmc)).
    clear - Hw Hw0 Hw1. psimpl. reflexivity. }
  assert (Ht : Status.fet_temp_C (status_ wm)
               = Status.fet_temp_C (status_ w)).
  { rewrite (cm_observe (fun x => Status.fet_temp_C (status_ x))
               (fun _ _ => eq_refl) _ _ (request_frame _ _ Hmc)).
    clear - Hw Hw0 Hw1. psimpl. reflexivity. }
  assert (Hg : config_ wm = config_ w).
  { rewrite (cm_observe config_ (fun _ _ => eq_refl) _ _
               (request_frame _ _ Hmc)).
    clear - Hw Hw0 Hw1. psimpl. reflexivity. }
  destruct (request_start _ _ Hmc Hm Hact)
    as (Hmm & _ & Ho & _ & C1 & C2 & C3 & C4).
  unfold persistent_fault in Hp. rewrite <- Hb, <- Ht, <- Hg in Hp.
  assert (H8 : Status.mode (status_ w8) = kEnabling
               /\ Status.fault (status_ w8) = kSuccess
               /\ outputs w8 = outputs wm
               /\ calibrate_adc1_ w8 = calibrate_adc1_ wm
               /\ calibrate_adc2_ w8 = calibrate_adc2_ wm
               /\ calibrate_adc3_ w8 = calibrate_adc3_ wm
               /\ calibrate_count_ w8 = calibrate_count_ wm).
  { destruct (control_tail_modes _ _ _ _ _ _ _ _ Hw2 Hw3 Hw4 Hw5 Hw6 Hw7)
      as (_ & Ho8 & _).
    clear - Hw2 Hw3 Hw4 Hw5 Hw6 Hw7 Hmm Hp Ho8. revert Hp.
    split; [|split; [|split; [exact Ho8|]]];
      ssimpl_with ltac:(rewrite ?Hmm); revert Hp; case_conditions;
      intros Hp; try discriminate Hp; auto. }
  destruct H8 as (H8 & H8f & Ho8 & D1 & D2 & D3 & D4).
  clear - Hw8 H8 H8f Ho8 Ho D1 D2 D3 D4 C1 C2 C3 C4.
  destruct Hw8 as [H | H | H | H | w'' H Hf | w'' H Hf];
    try (rewrite H8 in H; discriminate H).
  split; [exact H8|]. split; [exact H8f|].
  split; [apply outputs_off_iff; rewrite Ho8; exact Ho|].
  rewrite D1, D2, D3, D4. auto.
Qed.

Lemma request_keeps_position w wm :
  Request w wm ->
  Status.unwrapped_position_raw (status_ wm)
  = Status.unwrapped_position_raw (status_ w)
  /\ CommandData.set_position (current_data_ wm)
     = CommandData.set_position (current_data_ w).
Proof.
  intros [Hk | Hs | Hs Ha | Hr Hd Ha Ho | Hr Ha Hd Ho];
    unfold ISR_StartCalibrating; ssimpl; split; reflexivity.
Qed.

Lemma ISR_DoCalibrating_position w :
  Status.unwrapped_position_raw (status_ (ISR_DoCalibrating w))
  = Status.unwrapped_position_raw (status_ w)
  /\ CommandData.set_position (current_data_ (ISR_DoCalibrating w))
     = CommandData.set_position (current_data_ w).
Proof.
  cbv beta zeta delta [ISR_DoCalibrating]. seq_intro. psimpl.
  split; reflexivity.
Qed.

Lemma dispatch_keeps_position w w' :
  Dispatch w w' ->
  Status.unwrapped_position_raw (status_ w')
  = Status.unwrapped_position_raw (status_ w)
  /\ CommandData.set_position (current_data_ w')
     = CommandData.set_position (current_data_ w).
Proof.
  intros Hd. destruct Hd as [H | H | H | H | w'' H Hf | w'' H Hf].
  - unfold ISR_DoStopped. rcbn. split; reflexivity.
  - unfold ISR_DoFault. rcbn. split; reflexivity.
  - split; reflexivity.
  - apply ISR_DoCalibrating_position.
  - rewrite (observe (fun x => Status.unwrapped_position_raw (status_ x))
               (fun _ _ => eq_refl) _ _ Hf).
    rewrite (observe (fun x => CommandData.set_position (current_data_ x))
               (fun _ _ => eq_refl) _ _ Hf).
    split; reflexivity.
  - rewrite (observe (fun x => Status.unwrapped_position_raw (status_ x))
               (fun _ _ => eq_refl) _ _ Hf).
    rewrite (observe (fun x => CommandData.set_position (current_data_ x))
               (fun _ _ => eq_refl) _ _ Hf).
    unfold not_configured. psimpl. split; reflexivity.
Qed.

(** A position to set is used once.  The control stage that finds
    one in the command makes it the raw unwrapped position, in counts
    of 1/65536 and with the saturating conversion of the target, and
    takes it out of the command; the raw unwrapped position is written
    in no other way, whatever the mode does. *)
Theorem set_position_is_used_once env sin_cos w w' :
  ISR_DoControl env sin_cos w = Some w' ->
  Status.unwrapped_position_raw (status_ w')
  = match CommandData.set_position (current_data_ w) with
    | Some p => F32.to_i32 (p * F32.of_Z 65536)%f32
    | None => Status.unwrapped_position_raw (status_ w)
    end
  /\ CommandData.set_position (current_data_ w') = None.
Proof.
  intros Hd. control_cases Hd.
  destruct (dispatch_keeps_position _ _ Hw8) as [-> ->].
  destruct (request_keeps_position _ _ Hmc) as [Hr Hs].
  assert (H8 : Status.unwrapped_position_raw (status_ w8)
               = Status.unwrapped_position_raw (status_ wm)
               /\ CommandData.set_position (current_data_ w8)
                  = CommandData.set_position (current_data_ wm)).
  { clear - Hw2 Hw3 Hw4 Hw5 Hw6 Hw7. ssimpl. split; reflexivity. }
  destruct H8 as [-> ->]. rewrite Hr, Hs. clear - Hw Hw0 Hw1.
  psimpl. destruct (CommandData.set_position (current_data_ w));
    split; reflexivity.
Qed.

End Start.

(** A stopped servo asked for position control. *)
Lemma calibration_starts_from_scratch_witness :
  Status.mode
    (status_ (Reference.control (Reference.env_at 0) Reference.commanded0))
  = kEnabling
  /\ calibrate_count_
       (Reference.control (Reference.env_at 0) Reference.commanded0)
     = 0.
Proof.
  destruct (calibration_starts_from_scratch (E := Reference.extern)
              (Reference.env_at 0) (SinCos.mk F32.zero f1_0)
              Reference.commanded0
              (Reference.control (Reference.env_at 0) Reference.commanded0))
    as (Hm & _ & _ & _ & _ & _ & Hc).
  - apply get_defined. vm_compute. reflexivity.
  - vm_compute. reflexivity.
  - vm_compute. reflexivity.
  - vm_compute. reflexivity.
  - split; assumption.
Defined.

(** Position control with 1.5 turns to set. *)
Lemma set_position_is_used_once_witness :
  Status.unwrapped_position_raw
    (status_ (Reference.control (Reference.env_at 0) Reference.setting0))
  = 98304.
Proof.
  destruct (set_position_is_used_once (E := Reference.extern)
              (Reference.env_at 0) (SinCos.mk F32.zero f1_0)
              Reference.setting0
              (Reference.control (Reference.env_at 0) Reference.setting0))
    as [Hr _].
  - apply get_defined. vm_compute. reflexivity.
  - rewrite Hr. vm_compute. reflexivity.
Defined.
(* ================================================================== *)
(** ** Entering a controller *)

Section Enter.

Context {E : Extern}.


Lemma not_refused_request cmd m (o : bool) :
  ready_mode m = true -> active_mode cmd = true ->
  cmd <> m ->
  ready_mode m
  && (Mode_eqb cmd kPosition || Mode_eqb cmd kStayWithinBounds)
  && negb (Mode_eqb cmd m) && o = false ->
  (Mode_eqb cmd kPosition || Mode_eqb cmd kStayWithinBounds) && o = false.
Proof.
  intros Hr Ha Hd. rewrite Hr, (Mode_eqb_neq _ _ Hd). cbn [negb andb].
  rewrite andb_true_r. exact (fun h => h).
Qed.


End Enter.

(* ================================================================== *)
(** ** The command under the position controllers *)

Section PositionCommand.

Context {E : Extern}.

Lemma ISR_DoPwmControl_data pwm w :
  current_data_ (ISR_DoPwmControl pwm w) = current_data_ w.
Proof.
  cbv beta zeta delta [ISR_DoPwmControl]. seq_intro. psimpl. reflexivity.
Qed.

Lemma ISR_DoVoltageDQ_data sin_cos d_V q_V w :
  current_data_ (ISR_DoVoltageDQ sin_cos d_V q_V w) = current_data_ w.
Proof.
  cbv beta zeta delta [ISR_DoVoltageDQ].
  destruct (Motor.poles (motor_ w) =? 0); [reflexivity|].
  seq_intro. cbv beta zeta delta [ISR_DoVoltageControl]. seq_intro.
  rewrite ISR_DoPwmControl_data. psimpl. reflexivity.
Qed.

Lemma ISR_DoCurrent_data sin_cos d q w :
  current_data_ (ISR_DoCurrent sin_cos d q w) = current_data_ w.
Proof.
  cbv beta zeta delta [ISR_DoCurrent]. seq_intro.
  rewrite ISR_DoVoltageDQ_data. psimpl. reflexivity.
Qed.

Lemma with_position_nan d :
  F32.isnan (CommandData.position d) = true ->
  CommandData.with_position F32.nan d = d.
Proof.
  destruct d. cbn. intros H.
  destruct position; try discriminate H. reflexivity.
Qed.

Lemma ISR_DoPositionCommon_data sin_cos o a b c w :
  current_data_ (ISR_DoPositionCommon sin_cos o a b c w)
  = CommandData.with_position F32.nan (current_data_ w).
Proof.
  cbv beta zeta delta [ISR_DoPositionCommon]. seq_intro.
  rewrite ISR_DoCurrent_data.
  destruct (F32.isnan (CommandData.position (current_data_ w))) eqn:Hn.
  - rewrite (with_position_nan _ Hn). subst.
    cbn [negb]. case_conditions; psimpl; reflexivity.
  - subst. cbn [negb]. case_conditions; psimpl; reflexivity.
Qed.

(** The position controllers and the command.  [ISR_DoPosition] and
    [ISR_DoZeroVelocity] leave the command as it is but for its
    position, which is NaN afterwards: a commanded position is taken
    once.  [ISR_DoStayWithinBounds] leaves the command as it is while
    no bound is violated; when one is, the velocity of the command is
    zero and its position NaN afterwards. *)
Theorem position_command_is_taken_once sin_cos w :
  current_data_ (ISR_DoPosition sin_cos w)
  = CommandData.with_position F32.nan (current_data_ w)
  /\ current_data_ (ISR_DoZeroVelocity sin_cos w)
     = CommandData.with_position F32.nan (current_data_ w)
  /\ current_data_ (ISR_DoStayWithinBounds sin_cos w)
     = if bound_violated w then
         CommandData.with_position F32.nan
           (CommandData.with_velocity F32.zero (current_data_ w))
       else current_data_ w.
Proof.
  split; [|split].
  - cbv beta zeta delta [ISR_DoPosition]. apply ISR_DoPositionCommon_data.
  - cbv beta zeta delta [ISR_DoZeroVelocity]. apply ISR_DoPositionCommon_data.
  - cbv beta zeta delta [ISR_DoStayWithinBounds bound_violated].
    destruct (negb (F32.isnan (CommandData.bounds_min (current_data_ w)))
              && (Status.unwrapped_position (status_ w)
                  < CommandData.bounds_min (current_data_ w))%f32);
      [|destruct (negb (F32.isnan
                          (CommandData.bounds_max (current_data_ w)))
                  && (Status.unwrapped_position (status_ w)
                      > CommandData.bounds_max (current_data_ w))%f32)];
      cbn [orb]; seq_intro;
      rewrite ?ISR_DoCurrent_data, ?ISR_DoPositionCommon_data;
      psimpl; destruct (current_data_ w); reflexivity.
Qed.

End PositionCommand.
